(** * llm-webui: the command builder, the process streamer and the listing
      endpoints of [llm_webui/server.py], embedded in Rocq.

    Python [str] values are held as Rocq [string]s (their UTF-8 bytes), Python
    [bytes] as [list byte].  A handler is a function of the request and of the
    behaviour of the child process it starts; what the Python standard
    library computes ([json.loads], [json.dumps], [shlex.split], [repr]) is a
    field of the class [PyRuntime]. *)

From Stdlib Require Import List String Ascii NArith ZArith Bool Arith Lia.
From Stdlib.Strings Require Import Byte.
From Stdlib Require Import Sorted Permutation.
Import ListNotations.

Local Open Scope string_scope.
Local Open Scope list_scope.
Local Open Scope Z_scope.

Set Implicit Arguments.
#[local] Set Warnings "-register-all".

(* ================================================================== *)
(** * Python values *)
(* ================================================================== *)

(** The values a field typed [Any] holds after JSON decoding.  A float is
    kept as a decimal text that denotes it; nothing below computes with
    floats. *)
Inductive pyval : Type :=
| PNone
| PBool (b : bool)
| PInt (z : Z)
| PFloat (text : string)
| PStr (s : string)
| PList (items : list pyval)
| PDict (entries : list (string * pyval)).

(** A [dict] with [str] keys: entries in insertion order, keys distinct. *)
Definition pydict := list (string * pyval).

(** A float text denotes zero when its digits before the exponent are all
    [0] (a text whose value only rounds to zero is not recognised). *)
Fixpoint mantissa_is_zero (t : string) (seen_digit : bool) : bool :=
  match t with
  | EmptyString => seen_digit
  | String c t' =>
      if Ascii.eqb c "0" then mantissa_is_zero t' true
      else if Ascii.eqb c "." || Ascii.eqb c "-" then mantissa_is_zero t' seen_digit
      else if Ascii.eqb c "e" || Ascii.eqb c "E" then seen_digit
      else false
  end.

Definition float_text_is_zero (t : string) : bool := mantissa_is_zero t false.

(** [bool(v)]. *)
Definition truthy (v : pyval) : bool :=
  match v with
  | PNone => false
  | PBool b => b
  | PInt z => negb (z =? 0)
  | PFloat t => negb (float_text_is_zero t)
  | PStr s => negb (s =? "")%string
  | PList l => match l with [] => false | _ :: _ => true end
  | PDict d => match d with [] => false | _ :: _ => true end
  end.

(** Truthiness of an [Optional[str]], an [Optional[List]] and an
    [Optional[Dict]] field. *)
Definition truthy_str (o : option string) : bool :=
  match o with Some s => negb (s =? "")%string | None => false end.

Definition truthy_list {A} (o : option (list A)) : bool :=
  match o with Some (_ :: _) => true | _ => false end.

(** The value of an optional field read where it is known to be set. *)
Definition the_str (o : option string) : string :=
  match o with Some s => s | None => "" end.

Definition the_list {A} (o : option (list A)) : list A :=
  match o with Some l => l | None => [] end.

(** [d.get(k, dflt)]. *)
Fixpoint dict_get (d : pydict) (k : string) (dflt : pyval) : pyval :=
  match d with
  | [] => dflt
  | (k', v) :: d' => if (k' =? k)%string then v else dict_get d' k dflt
  end.

(** Decimal text of a number, as [str] prints an [int]. *)
Definition digit_char (d : nat) : ascii := ascii_of_nat (48 + d).

Fixpoint decimal_pos (fuel : nat) (n : N) (acc : string) : string :=
  match fuel with
  | O => acc
  | S fuel' =>
      let acc' := String (digit_char (N.to_nat (n mod 10))) acc in
      if (n / 10 =? 0)%N then acc' else decimal_pos fuel' (n / 10)%N acc'
  end.

Definition decimal_N (n : N) : string := decimal_pos (S (N.to_nat (N.log2 n))) n "".

Definition decimal_Z (z : Z) : string :=
  if z <? 0 then "-" ++ decimal_N (Z.to_N (- z)) else decimal_N (Z.to_N z).

(* ================================================================== *)
(** * Exceptions and results *)
(* ================================================================== *)

(** An instance of [Exception]: the name of its class and the text
    [str(e)] gives.  What [except Exception] does not catch, such as a
    cancellation, is not modelled. *)
Record exc : Type := Exc { exc_class : string; exc_str : string }.

(** What a computation that may raise produces. *)
Inductive result (A : Type) : Type :=
| Ok (a : A)
| Raise (e : exc).
Arguments Ok {A} a.
Arguments Raise {A} e.

Definition bind {A B} (r : result A) (f : A -> result B) : result B :=
  match r with Ok a => f a | Raise e => Raise e end.

Declare Scope py_scope.
Delimit Scope py_scope with py.
Notation "x <- c ;; k" := (bind c (fun x => k))
  (at level 61, c at next level, right associativity) : py_scope.

(** [except json.JSONDecodeError]. *)
Definition is_JSONDecodeError (e : exc) : bool :=
  (exc_class e =? "JSONDecodeError")%string.

(** What a request handler produces: the value it returns, the
    [HTTPException] it raises, or an exception no clause of it catches
    (the framework answers 500 "Internal Server Error" then). *)
Inductive response (A : Type) : Type :=
| Return (a : A)
| HTTPException (status_code : Z) (detail : string)
| Uncaught (e : exc).
Arguments Return {A} a.
Arguments HTTPException {A} status_code detail.
Arguments Uncaught {A} e.

(* ================================================================== *)
(** * The Python runtime *)
(* ================================================================== *)

Class PyRuntime : Type := {
  (** [json.loads]: raises [JSONDecodeError] on a text that is not JSON. *)
  json_loads : string -> result pyval;
  (** [json.dumps] of a mapping. *)
  json_dumps : pydict -> result string;
  (** [shlex.split]: raises [ValueError] on an open quote or a trailing
      escape. *)
  shlex_split : string -> result (list string);
  (** [repr]. *)
  py_repr : pyval -> string;
  (** The exception [str(v)] raises, when it raises one: [ValueError] on an
      [int] of more digits than the interpreter converts (4300 unless it is
      set otherwise), [RecursionError] on a value nested deeper than it
      allows.  On every other value [py_repr] is the text [repr] returns. *)
  str_raises : pyval -> option exc
}.

(** The text of [str(v)] when [str] returns: a [str] is itself, any other
    value prints as its [repr]. *)
Definition py_str `{PyRuntime} (v : pyval) : string :=
  match v with
  | PStr s => s
  | PNone => "None"
  | PBool true => "True"
  | PBool false => "False"
  | PInt z => decimal_Z z
  | PFloat _ | PList _ | PDict _ => py_repr v
  end.

(* ================================================================== *)
(** * Requests *)
(* ================================================================== *)

Module PromptRequest.
Record t : Type := {
  prompt : string;
  model : option string;
  system : option string;
  attachments : option (list string);
  attachment_types : option (list (list string));   (* [[path, mimetype], ...] *)
  template : option string;
  options : option pydict;
  tools : option (list string);
  stream : bool;
  reasoning : option pydict;
  extra_args : option string
}.
End PromptRequest.

Module ChatMessage.
Record t : Type := {
  message : string;
  model : option string;
  conversation_id : option string;
  system : option string;
  tools : option (list string);
  options : option pydict;
  reasoning : option pydict;
  extra_args : option string
}.
End ChatMessage.

(* ================================================================== *)
(** * Command builder *)
(* ================================================================== *)

Section Builder.
Context `{PyRuntime}.

(** [for tool in tools: cmd.extend(["-T", tool])]. *)
Definition add_tools (cmd : list string) (tools : list string) : list string :=
  fold_left (fun cmd tool => cmd ++ ["-T"; tool]) tools cmd.

(** [add_options]: nothing for a missing or empty mapping, else
    [cmd.extend(["-o", str(key), str(value)])] for each item. *)
Definition add_options (cmd : list string) (options : option pydict) : list string :=
  match options with
  | None | Some [] => cmd
  | Some items =>
      fold_left (fun cmd kv => cmd ++ ["-o"; py_str (PStr (fst kv)); py_str (snd kv)])
                items cmd
  end.

(** The reasoning block: one [-o reasoning <json>] triple, or the items
    through [add_options] when [json.dumps] raises. *)
Definition add_reasoning (cmd : list string) (reasoning : option pydict) : list string :=
  if truthy_list reasoning then
    match json_dumps (the_list reasoning) with
    | Ok text => cmd ++ ["-o"; "reasoning"; text]
    | Raise _ => add_options cmd reasoning
    end
  else cmd.

(** [for path in attachments: cmd.extend(["-a", path])]. *)
Definition add_attachments (cmd : list string) (paths : list string) : list string :=
  fold_left (fun cmd path => cmd ++ ["-a"; path]) paths cmd.

(** The [ValueError] of unpacking a list of [n] items into two names. *)
Definition unpack_error (n : nat) : exc :=
  if (n <? 2)%nat
  then Exc "ValueError"
           ("not enough values to unpack (expected 2, got " ++ decimal_N (N.of_nat n) ++ ")")
  else Exc "ValueError" "too many values to unpack (expected 2)".

(** [for path, mimetype in attachment_types: cmd.extend(["--at", path, mimetype])]. *)
Fixpoint add_attachment_types (cmd : list string) (pairs : list (list string))
  : result (list string) :=
  match pairs with
  | [] => Ok cmd
  | [path; mimetype] :: rest => add_attachment_types (cmd ++ ["--at"; path; mimetype]) rest
  | entry :: _ => Raise (unpack_error (List.length entry))
  end.

(** The extra flags: the tokens of [shlex.split], nothing when it raises. *)
Definition add_extra_args (cmd : list string) (extra : option string) : list string :=
  if truthy_str extra then
    match shlex_split (the_str extra) with
    | Ok tokens => cmd ++ tokens
    | Raise _ => cmd
    end
  else cmd.

(** The argument vector [execute_prompt] builds (lines 128 to 174). *)
Definition execute_prompt_cmd (request : PromptRequest.t) : result (list string) :=
  let cmd := ["llm"; "prompt"] in
  let cmd := if truthy_str (PromptRequest.model request)
             then cmd ++ ["-m"; the_str (PromptRequest.model request)] else cmd in
  let cmd := if truthy_str (PromptRequest.system request)
             then cmd ++ ["-s"; the_str (PromptRequest.system request)] else cmd in
  let cmd := if truthy_str (PromptRequest.template request)
             then cmd ++ ["-t"; the_str (PromptRequest.template request)] else cmd in
  let cmd := if truthy_list (PromptRequest.tools request)
             then add_tools cmd (the_list (PromptRequest.tools request)) else cmd in
  let cmd := add_options cmd (PromptRequest.options request) in
  let cmd := add_reasoning cmd (PromptRequest.reasoning request) in
  let cmd := if truthy_list (PromptRequest.attachments request)
             then add_attachments cmd (the_list (PromptRequest.attachments request))
             else cmd in
  (cmd <- (if truthy_list (PromptRequest.attachment_types request)
           then add_attachment_types cmd (the_list (PromptRequest.attachment_types request))
           else Ok cmd) ;;
   let cmd := add_extra_args cmd (PromptRequest.extra_args request) in
   Ok (cmd ++ [PromptRequest.prompt request]))%py.

(** The argument vector [chat_message] builds (lines 197 to 229). *)
Definition chat_message_cmd (message : ChatMessage.t) : list string :=
  let cmd := ["llm"; "chat"] in
  let cmd := if truthy_str (ChatMessage.model message)
             then cmd ++ ["-m"; the_str (ChatMessage.model message)] else cmd in
  let cmd := if truthy_str (ChatMessage.conversation_id message)
             then cmd ++ ["--cid"; the_str (ChatMessage.conversation_id message)] else cmd in
  let cmd := if truthy_str (ChatMessage.system message)
             then cmd ++ ["-s"; the_str (ChatMessage.system message)] else cmd in
  let cmd := if truthy_list (ChatMessage.tools message)
             then add_tools cmd (the_list (ChatMessage.tools message)) else cmd in
  let cmd := add_options cmd (ChatMessage.options message) in
  let cmd := add_reasoning cmd (ChatMessage.reasoning message) in
  add_extra_args cmd (ChatMessage.extra_args message).

End Builder.

(* ================================================================== *)
(** * Bytes and text *)
(* ================================================================== *)

Definition nl : string := String (ascii_of_nat 10) "".

Definition in_range (lo hi : N) (b : byte) : bool :=
  ((lo <=? Byte.to_N b) && (Byte.to_N b <=? hi))%N.

(** A continuation byte, [0x80] to [0xBF]. *)
Definition is_cont (b : byte) : bool := in_range 128 191 b.

(** The second byte a lead byte admits (Unicode Standard, table 3-7): no
    overlong form, no surrogate, nothing above U+10FFFF. *)
Definition second_ok (b1 b2 : byte) : bool :=
  if in_range 224 224 b1 then in_range 160 191 b2
  else if in_range 237 237 b1 then in_range 128 159 b2
  else if in_range 240 240 b1 then in_range 144 191 b2
  else if in_range 244 244 b1 then in_range 128 143 b2
  else is_cont b2.

Inductive utf8_reason : Type :=
| InvalidStartByte
| InvalidContinuationByte
| UnexpectedEndOfData.

(** Where decoding stops: the start of the sequence, its bytes accepted so
    far, its first byte, and why. *)
Record utf8_error : Type := {
  err_start : nat;
  err_len : nat;
  err_byte : byte;
  err_reason : utf8_reason
}.

(** The first ill-formed sequence of [bs], whose first byte is at [pos]. *)
Fixpoint utf8_scan (bs : list byte) (pos : nat) : option utf8_error :=
  let stop len b reason :=
    Some {| err_start := pos; err_len := len; err_byte := b; err_reason := reason |} in
  match bs with
  | [] => None
  | b1 :: r1 =>
      if in_range 0 127 b1 then utf8_scan r1 (1 + pos)%nat
      else if in_range 194 223 b1 then
        match r1 with
        | [] => stop 1%nat b1 UnexpectedEndOfData
        | b2 :: r2 =>
            if is_cont b2 then utf8_scan r2 (2 + pos)%nat
            else stop 1%nat b1 InvalidContinuationByte
        end
      else if in_range 224 239 b1 then
        match r1 with
        | [] => stop 1%nat b1 UnexpectedEndOfData
        | b2 :: r2 =>
            if second_ok b1 b2 then
              match r2 with
              | [] => stop 2%nat b1 UnexpectedEndOfData
              | b3 :: r3 =>
                  if is_cont b3 then utf8_scan r3 (3 + pos)%nat
                  else stop 2%nat b1 InvalidContinuationByte
              end
            else stop 1%nat b1 InvalidContinuationByte
        end
      else if in_range 240 244 b1 then
        match r1 with
        | [] => stop 1%nat b1 UnexpectedEndOfData
        | b2 :: r2 =>
            if second_ok b1 b2 then
              match r2 with
              | [] => stop 2%nat b1 UnexpectedEndOfData
              | b3 :: r3 =>
                  if is_cont b3 then
                    match r3 with
                    | [] => stop 3%nat b1 UnexpectedEndOfData
                    | b4 :: r4 =>
                        if is_cont b4 then utf8_scan r4 (4 + pos)%nat
                        else stop 3%nat b1 InvalidContinuationByte
                    end
                  else stop 2%nat b1 InvalidContinuationByte
              end
            else stop 1%nat b1 InvalidContinuationByte
        end
      else stop 1%nat b1 InvalidStartByte
  end.

Definition hex_char (n : N) : ascii :=
  if (n <? 10)%N then ascii_of_N (48 + n) else ascii_of_N (87 + n).

Definition hex2 (n : N) : string :=
  String (hex_char (n / 16)) (String (hex_char (n mod 16)) "").

(** [str(e)] of the [UnicodeDecodeError]. *)
Definition utf8_error_str (e : utf8_error) : string :=
  let reason :=
    match err_reason e with
    | InvalidStartByte => "invalid start byte"
    | InvalidContinuationByte => "invalid continuation byte"
    | UnexpectedEndOfData => "unexpected end of data"
    end in
  if (err_len e =? 1)%nat then
    "'utf-8' codec can't decode byte 0x" ++ hex2 (Byte.to_N (err_byte e))
    ++ " in position " ++ decimal_N (N.of_nat (err_start e)) ++ ": " ++ reason
  else
    "'utf-8' codec can't decode bytes in position "
    ++ decimal_N (N.of_nat (err_start e)) ++ "-"
    ++ decimal_N (N.of_nat (err_start e + err_len e - 1)) ++ ": " ++ reason.

(** [bs.decode('utf-8')]. *)
Definition bytes_decode (bs : list byte) : result string :=
  match utf8_scan bs 0 with
  | None => Ok (string_of_list_byte bs)
  | Some e => Raise (Exc "UnicodeDecodeError" (utf8_error_str e))
  end.

(** [s.encode('utf-8')]. *)
Definition str_encode (s : string) : list byte := list_byte_of_string s.

(** ** White space, [strip], [split] and [join] *)

(** The character ['\n']. *)
Definition newline : ascii := ascii_of_nat 10.

(** The code points [str.isspace] accepts; [strip()] and [split()] take
    them, and no other, for white space. *)
Definition whitespace : list N :=
  [9; 10; 11; 12; 13; 28; 29; 30; 31; 32; 133; 160; 5760;
   8192; 8193; 8194; 8195; 8196; 8197; 8198; 8199; 8200; 8201; 8202;
   8232; 8233; 8239; 8287; 12288]%N.

(** The UTF-8 bytes of a code point. *)
Definition char_bytes (cp : N) : list ascii :=
  map ascii_of_N
      (if cp <? 128 then [cp]
       else if cp <? 2048 then [192 + cp / 64; 128 + cp mod 64]
       else if cp <? 65536 then [224 + cp / 4096; 128 + (cp / 64) mod 64; 128 + cp mod 64]
       else [240 + cp / 262144; 128 + (cp / 4096) mod 64;
             128 + (cp / 64) mod 64; 128 + cp mod 64])%N.

Definition space_chars : list (list ascii) := map char_bytes whitespace.

Definition chars_eqb (a b : list ascii) : bool :=
  (string_of_list_ascii a =? string_of_list_ascii b)%string.

(** The bytes [p] are one white-space character.  A text is read from its
    end when [back] is set: the bytes of [p] then come last first. *)
Definition is_space (back : bool) (p : list ascii) : bool :=
  existsb (chars_eqb (if back then rev p else p)) space_chars.

(** What follows the white-space character a text starts with.  In UTF-8
    no character is the start of another, and the first byte of a
    character is never inside another one: the bytes at the head of a text
    are a white-space character exactly when its first character is one,
    and so are the bytes at its end for its last character. *)
Definition space_at (back : bool) (l : list ascii) : option (list ascii) :=
  match l with
  | c1 :: r1 =>
      if is_space back [c1] then Some r1
      else match r1 with
           | c2 :: r2 =>
               if is_space back [c1; c2] then Some r2
               else match r2 with
                    | c3 :: r3 => if is_space back [c1; c2; c3] then Some r3 else None
                    | [] => None
                    end
           | [] => None
           end
  | [] => None
  end.

(** The text without the white space it starts with. *)
Fixpoint drop_space (back : bool) (l : list ascii) {struct l} : list ascii :=
  match l with
  | c1 :: r1 =>
      if is_space back [c1] then drop_space back r1
      else match r1 with
           | c2 :: r2 =>
               if is_space back [c1; c2] then drop_space back r2
               else match r2 with
                    | c3 :: r3 =>
                        if is_space back [c1; c2; c3] then drop_space back r3 else l
                    | [] => l
                    end
           | [] => l
           end
  | [] => []
  end.

(** [s.strip()]: the white space is dropped at the start, then at the
    end. *)
Definition strip_chars (l : list ascii) : list ascii :=
  rev (drop_space true (rev (drop_space false l))).

Definition str_strip (s : string) : string :=
  string_of_list_ascii (strip_chars (list_ascii_of_string s)).

(** [s.split(sep)] for a separator of one character: the pieces between
    its occurrences, the empty ones too. *)
Fixpoint str_split (sep : ascii) (s : string) : list string :=
  match s with
  | EmptyString => [EmptyString]
  | String c s' =>
      if Ascii.eqb c sep then EmptyString :: str_split sep s'
      else match str_split sep s' with
           | piece :: pieces => String c piece :: pieces
           | [] => [String c EmptyString]
           end
  end.

(** [s.split()]: the runs of characters between white space, none empty.
    [word] holds, in reverse, the bytes of the run under way. *)
Fixpoint split_space (l : list ascii) (word : list ascii) {struct l} : list (list ascii) :=
  let flush rest := match word with [] => rest | _ :: _ => rev word :: rest end in
  match l with
  | [] => flush []
  | c1 :: r1 =>
      if is_space false [c1] then flush (split_space r1 [])
      else match r1 with
           | c2 :: r2 =>
               if is_space false [c1; c2] then flush (split_space r2 [])
               else match r2 with
                    | c3 :: r3 =>
                        if is_space false [c1; c2; c3] then flush (split_space r3 [])
                        else split_space r1 (c1 :: word)
                    | [] => split_space r1 (c1 :: word)
                    end
           | [] => split_space r1 (c1 :: word)
           end
  end.

Definition str_words (s : string) : list string :=
  map string_of_list_ascii (split_space (list_ascii_of_string s) []).

(** [sep.join(parts)]. *)
Fixpoint str_join (sep : string) (parts : list string) : string :=
  match parts with
  | [] => ""
  | [part] => part
  | part :: parts' => part ++ sep ++ str_join sep parts'
  end.

(* ================================================================== *)
(** * Child processes *)
(* ================================================================== *)

(** What [subprocess.run(cmd, capture_output=True, text=True)] returns: the
    exit code of the child and its two outputs as text, decoded and with
    their line ends translated. *)
Record CompletedProcess : Type := {
  run_returncode : Z;
  run_stdout : string;
  run_stderr : string
}.

(** A child started by [asyncio.create_subprocess_exec], as its parent sees
    it: what each [await] on it gives.  [stdout_readline] lists the results
    of the successive calls of [process.stdout.readline()]; past its end the
    call gives [b""].  A call raises for instance [ValueError] when a line is
    longer than the reader's limit. *)
Record Process : Type := {
  stdin_drain : result unit;
  stdout_readline : list (result (list byte));
  returncode : Z;
  stderr_read : result (list byte)
}.

(** The lines of an output as [readline] cuts it: each ends with its
    newline, but for the last one when the output does not end with a
    newline.  [line] holds, in reverse, the bytes of the line under way. *)
Fixpoint lines_from (out line : list byte) : list (list byte) :=
  match out with
  | [] => match line with [] => [] | _ :: _ => [rev line] end
  | b :: out' =>
      if Byte.eqb b x0a then rev (b :: line) :: lines_from out' []
      else lines_from out' (b :: line)
  end.

Definition lines_of (out : list byte) : list (list byte) := lines_from out [].

(** The limit of the stream reader: [2 ** 16] bytes, since
    [create_subprocess_exec] is called without [limit]. *)
Definition reader_limit : N := 65536.

Definition ends_with_newline (line : list byte) : bool :=
  match rev line with
  | b :: _ => Byte.eqb b x0a
  | [] => false
  end.

(** [readline] returns a line whose bytes before the newline are not more
    than the limit. *)
Definition within_limit (line : list byte) : bool :=
  (N.of_nat (List.length line)
   <=? (if ends_with_newline line then reader_limit + 1 else reader_limit))%N.

(** The [ValueError] of [readline] on a longer line.  Its text depends on
    what had arrived when the reader looked: the line [whole], with its
    newline, or only a part of it longer than the limit. *)
Definition overrun (whole : bool) (line : list byte) : exc :=
  Exc "ValueError"
      (if whole && ends_with_newline line
       then "Separator is found, but chunk is longer than limit"
       else "Separator is not found, and chunk exceed the limit").

(** What the successive calls of [readline] give on an output made of
    [lines]: each line in turn, up to the first one that is longer than the
    limit, on which the call raises.  The generators call [readline] no
    more after an exception, and the list ends there. *)
Fixpoint readline_calls (whole : bool) (lines : list (list byte))
  : list (result (list byte)) :=
  match lines with
  | [] => []
  | line :: rest =>
      if within_limit line then Ok line :: readline_calls whole rest
      else [Raise (overrun whole line)]
  end.

(** A child that has run to its end: its exit code and the bytes it wrote
    to its two outputs. *)
Record Child : Type := {
  exit_code : Z;
  stdout_bytes : list byte;
  stderr_bytes : list byte
}.

(** The character ['\r']. *)
Definition carriage_return : ascii := ascii_of_nat 13.

(** [data.replace("\r\n", "\n")]. *)
Fixpoint replace_crlf (s : string) : string :=
  match s with
  | String c rest =>
      match rest with
      | String c' rest' =>
          if Ascii.eqb c carriage_return && Ascii.eqb c' newline
          then String newline (replace_crlf rest')
          else String c (replace_crlf rest)
      | EmptyString => s
      end
  | EmptyString => s
  end.

(** [data.replace("\r", "\n")]. *)
Fixpoint replace_cr (s : string) : string :=
  match s with
  | String c rest =>
      String (if Ascii.eqb c carriage_return then newline else c) (replace_cr rest)
  | EmptyString => s
  end.

(** [_translate_newlines], which [text=True] applies to a captured output:
    the bytes are decoded, in the encoding of the locale, which is taken to
    be UTF-8, and the line ends are translated.  It raises
    [UnicodeDecodeError] on bytes that do not decode. *)
Definition translate_newlines (data : list byte) : result string :=
  (text <- bytes_decode data ;;
   Ok (replace_cr (replace_crlf text)))%py.

(** [communicate] on a child that has ended, under [capture_output=True]
    and [text=True]: the standard output is translated first, then the
    error output. *)
Definition communicate (child : Child) : result CompletedProcess :=
  (stdout <- translate_newlines (stdout_bytes child) ;;
   stderr <- translate_newlines (stderr_bytes child) ;;
   Ok {| run_returncode := exit_code child;
         run_stdout := stdout;
         run_stderr := stderr |})%py.

(** The operating system: running a command to its end with its output
    captured as text, and starting one; creating a temporary file with the
    given suffix, which gives its path, and writing one.  [os_run] raises
    when the program cannot be started, and when an output of the child
    does not decode: it is [communicate child] on a machine where the
    command runs as [child]. *)
Record OS : Type := {
  os_run : list string -> result CompletedProcess;
  os_exec : list string -> result Process;
  os_mkstemp : string -> result string;
  os_write : string -> list byte -> result unit
}.

(** [subprocess.run(..., check=...)]. *)
Inductive run_result : Type :=
| Completed (result : CompletedProcess)
| CalledProcessError (returncode : Z) (stdout stderr : string)
| RunRaised (e : exc).

Definition subprocess_run (os : OS) (cmd : list string) (check : bool) : run_result :=
  match os_run os cmd with
  | Raise e => RunRaised e
  | Ok p =>
      if check && negb (run_returncode p =? 0)
      then CalledProcessError (run_returncode p) (run_stdout p) (run_stderr p)
      else Completed p
  end.

(* ================================================================== *)
(** * Asynchronous generators *)
(* ================================================================== *)

(** What a generator does that its caller or the child can see. *)
Inductive event : Type :=
| Spawn (argv : list string)
| StdinWrite (data : list byte)
| StdinClose
| Yield (chunk : string).

(** A generator run to its end: the events in order, and how it ended. *)
Definition gen (A : Type) : Type := (list event * result A)%type.

Definition gret {A} (a : A) : gen A := ([], Ok a).

Definition gbind {A B} (g : gen A) (f : A -> gen B) : gen B :=
  match g with
  | (es, Ok a) => let (es', r) := f a in (es ++ es', r)
  | (es, Raise e) => (es, Raise e)
  end.

Definition emit (e : event) : gen unit := ([e], Ok tt).

Definition lift {A} (r : result A) : gen A := ([], r).

(** [try: body  except Exception as e: handler(e)]. *)
Definition try_except {A} (body : gen A) (handler : exc -> gen A) : gen A :=
  match body with
  | (es, Raise e) => let (es', r) := handler e in (es ++ es', r)
  | (es, Ok a) => (es, Ok a)
  end.

Declare Scope gen_scope.
Delimit Scope gen_scope with gen.
Notation "x <- c ;; k" := (gbind c (fun x => k))
  (at level 61, c at next level, right associativity) : gen_scope.
Notation "c ;; k" := (gbind c (fun _ => k))
  (at level 61, right associativity) : gen_scope.

(** The chunks a run yields, in order. *)
Definition chunks_of (es : list event) : list string :=
  flat_map (fun e => match e with Yield c => [c] | _ => [] end) es.

Definition chunks {A} (g : gen A) : list string := chunks_of (fst g).

(** What a run does on the standard input of the child, in order. *)
Definition stdin_of (es : list event) : list event :=
  filter (fun e => match e with StdinWrite _ | StdinClose => true | _ => false end) es.

Section Streamer.
Variable os : OS.

Definition create_subprocess_exec (cmd : list string) : gen Process :=
  (emit (Spawn cmd) ;; lift (os_exec os cmd))%gen.

(** [while True: line = await readline(); if not line: break;
     yield line.decode('utf-8')]. *)
Fixpoint read_lines (stdout : list (result (list byte))) : gen unit :=
  match stdout with
  | [] => gret tt
  | Raise e :: _ => lift (Raise e)
  | Ok [] :: _ => gret tt
  | Ok line :: rest =>
      (text <- lift (bytes_decode line) ;;
       emit (Yield text) ;;
       read_lines rest)%gen
  end.

(** After the loop: [await process.wait()], then the error chunk when the
    child failed. *)
Definition report_exit (process : Process) : gen unit :=
  if negb (returncode process =? 0) then
    (stderr <- lift (stderr_read process) ;;
     text <- lift (bytes_decode stderr) ;;
     emit (Yield (nl ++ "Error: " ++ text)))%gen
  else gret tt.

Definition error_chunk (e : exc) : gen unit :=
  emit (Yield (nl ++ "Error: " ++ exc_str e)).

Definition stream_llm_response (cmd : list string) : gen unit :=
  try_except
    (process <- create_subprocess_exec cmd ;;
     read_lines (stdout_readline process) ;;
     report_exit process)%gen
    error_chunk.

Definition stream_llm_chat_response (cmd : list string) (message : string) : gen unit :=
  try_except
    (process <- create_subprocess_exec cmd ;;
     emit (StdinWrite (str_encode (message ++ nl))) ;;
     lift (stdin_drain process) ;;
     emit StdinClose ;;
     read_lines (stdout_readline process) ;;
     report_exit process)%gen
    error_chunk.

End Streamer.

(* ================================================================== *)
(** * Conversation summaries *)
(* ================================================================== *)

Module Conv.
(** The summary [list_conversations] keeps for one conversation id. *)
Record t : Type := {
  conversation_id : string;
  latest : pyval;
  model : pyval;
  count : Z;
  last_prompt : pyval
}.

Definition to_dict (c : t) : pyval :=
  PDict [("conversation_id", PStr (conversation_id c));
         ("latest", latest c);
         ("model", model c);
         ("count", PInt (count c));
         ("last_prompt", last_prompt c)].
End Conv.

(** [convs]: the summaries by conversation id, in insertion order. *)
Definition convs_t := list (string * Conv.t).

(** [row.get("datetime_utc") > conv["latest"]] on two [str]: the order of
    code points, which is the order of the UTF-8 bytes. *)
Definition str_gt (a b : string) : bool := String.ltb b a.

(** The body of the loop once [conv] is the entry of the row's id:
    [conv["count"] += 1], then the update of [latest].  [None]: a timestamp
    that is neither falsy nor a [str], which this model leaves out. *)
Definition touch (row : pydict) (conv : Conv.t) : option Conv.t :=
  let conv := {| Conv.conversation_id := Conv.conversation_id conv;
                 Conv.latest := Conv.latest conv;
                 Conv.model := Conv.model conv;
                 Conv.count := Conv.count conv + 1;
                 Conv.last_prompt := Conv.last_prompt conv |} in
  let updated := {| Conv.conversation_id := Conv.conversation_id conv;
                    Conv.latest := dict_get row "datetime_utc" PNone;
                    Conv.model := dict_get row "model" PNone;
                    Conv.count := Conv.count conv;
                    Conv.last_prompt := dict_get row "prompt" (PStr "") |} in
  if truthy (dict_get row "datetime_utc" PNone) then
    match dict_get row "datetime_utc" PNone with
    | PStr t =>
        if negb (truthy (Conv.latest conv)) then Some updated
        else match Conv.latest conv with
             | PStr l => if str_gt t l then Some updated else Some conv
             | _ => None
             end
    | _ => None
    end
  else Some conv.

(** [conv = convs.setdefault(cid, dflt)] followed by the loop body on
    [conv], which the dictionary holds by reference. *)
Fixpoint setdefault_touch (convs : convs_t) (cid : string) (dflt : Conv.t) (row : pydict)
  : option convs_t :=
  match convs with
  | [] =>
      match touch row dflt with
      | Some conv => Some [(cid, conv)]
      | None => None
      end
  | (k, conv) :: rest =>
      if (k =? cid)%string then
        match touch row conv with
        | Some conv' => Some ((k, conv') :: rest)
        | None => None
        end
      else
        match setdefault_touch rest cid dflt row with
        | Some rest' => Some ((k, conv) :: rest')
        | None => None
        end
  end.

(** One turn of [for row in logs].  [None]: a row that is not an object, or
    an id that is neither falsy nor a [str]. *)
Definition conv_step (convs : convs_t) (row : pyval) : option convs_t :=
  match row with
  | PDict row =>
      let cid := dict_get row "conversation_id" PNone in
      if negb (truthy cid) then Some convs
      else match cid with
           | PStr cid =>
               setdefault_touch convs cid
                 {| Conv.conversation_id := cid;
                    Conv.latest := dict_get row "datetime_utc" PNone;
                    Conv.model := dict_get row "model" PNone;
                    Conv.count := 0;
                    Conv.last_prompt := dict_get row "prompt" (PStr "") |}
                 row
           | _ => None
           end
  | _ => None
  end.

Fixpoint conv_loop (convs : convs_t) (logs : list pyval) : option convs_t :=
  match logs with
  | [] => Some convs
  | row :: rest =>
      match conv_step convs row with
      | Some convs' => conv_loop convs' rest
      | None => None
      end
  end.

(** [x["latest"] or ""], where [latest] is a [str] or falsy. *)
Definition sort_key (c : Conv.t) : string :=
  match Conv.latest c with
  | PStr l => l
  | _ => ""
  end.

(** [sorted(values, key=sort_key, reverse=True)]: descending, items of
    equal key in their original order. *)
Fixpoint insert_desc (x : Conv.t) (l : list Conv.t) : list Conv.t :=
  match l with
  | [] => [x]
  | y :: l' =>
      if String.leb (sort_key y) (sort_key x) then x :: y :: l'
      else y :: insert_desc x l'
  end.

Definition sorted_reverse (l : list Conv.t) : list Conv.t :=
  fold_right insert_desc [] l.

(** [l[:stop]]. *)
Definition slice_to {A} (l : list A) (stop : Z) : list A :=
  if stop <? 0 then firstn (Z.to_nat (Z.of_nat (List.length l) + stop)) l
  else firstn (Z.to_nat stop) l.

(** Lines 370 to 397 on decoded logs. *)
Definition conversations_of (logs : pyval) (limit : Z) : option (list Conv.t) :=
  match logs with
  | PList rows =>
      match conv_loop [] rows with
      | Some convs => Some (slice_to (sorted_reverse (map snd convs)) limit)
      | None => None
      end
  | _ => None
  end.

(* ================================================================== *)
(** * Request handlers *)
(* ================================================================== *)

(** An uploaded file: its name, its declared type, and what
    [await file.read()] gives. *)
Record UploadFile : Type := {
  filename : option string;
  content_type : option string;
  read : result (list byte)
}.

(** The body of the answer to [/api/prompt] and [/api/chat]. *)
Inductive body : Type :=
| StreamingResponse (content : gen unit)
| JSONResponse (content : pyval).

Definition opt_str (o : option string) : pyval :=
  match o with Some s => PStr s | None => PNone end.

Section Handlers.
Context `{PyRuntime} (os : OS).

Definition get_models : response pyval :=
  match subprocess_run os ["llm"; "models"; "list"; "--json"] true with
  | Completed result =>
      match json_loads (run_stdout result) with
      | Ok value => Return value
      | Raise e =>
          if is_JSONDecodeError e
          then HTTPException 500 "Failed to parse models response"
          else Uncaught e
      end
  | CalledProcessError _ _ stderr => HTTPException 500 ("Failed to get models: " ++ stderr)
  | RunRaised e => Uncaught e
  end.

Definition get_tools : response pyval :=
  match subprocess_run os ["llm"; "tools"; "list"; "--json"] true with
  | Completed result =>
      match json_loads (run_stdout result) with
      | Ok value => Return value
      | Raise e => if is_JSONDecodeError e then Return (PDict [("tools", PList [])]) else Uncaught e
      end
  | CalledProcessError _ _ stderr => HTTPException 500 ("Failed to get tools: " ++ stderr)
  | RunRaised e => Uncaught e
  end.

Definition get_logs (count : Z) : response pyval :=
  match subprocess_run os ["llm"; "logs"; "list"; "-n"; py_str (PInt count); "--json"] true with
  | Completed result =>
      match json_loads (run_stdout result) with
      | Ok value => Return value
      | Raise e => if is_JSONDecodeError e then Return (PDict [("logs", PList [])]) else Uncaught e
      end
  | CalledProcessError _ _ stderr => HTTPException 500 ("Failed to get logs: " ++ stderr)
  | RunRaised e => Uncaught e
  end.

(** [None]: the decoded logs are outside what [conversations_of] models. *)
Definition list_conversations (limit : Z) : option (response pyval) :=
  match subprocess_run os ["llm"; "logs"; "list"; "-n"; "0"; "--json"] true with
  | Completed result =>
      match json_loads (run_stdout result) with
      | Ok logs =>
          match conversations_of logs limit with
          | Some conv_list => Some (Return (PList (map Conv.to_dict conv_list)))
          | None => None
          end
      | Raise e => Some (if is_JSONDecodeError e then Return (PList []) else Uncaught e)
      end
  | CalledProcessError _ _ stderr =>
      Some (HTTPException 500 ("Failed to list conversations: " ++ stderr))
  | RunRaised e => Some (Uncaught e)
  end.

Definition get_conversation (cid : string) : response pyval :=
  match subprocess_run os ["llm"; "logs"; "list"; "--cid"; cid; "--json"] true with
  | Completed result =>
      match json_loads (run_stdout result) with
      | Ok value => Return value
      | Raise e => if is_JSONDecodeError e then Return (PList []) else Uncaught e
      end
  | CalledProcessError _ _ stderr =>
      HTTPException 500 ("Failed to fetch conversation: " ++ stderr)
  | RunRaised e => Uncaught e
  end.

Definition execute_prompt (request : PromptRequest.t) : response body :=
  match execute_prompt_cmd request with
  | Raise e => Uncaught e
  | Ok cmd =>
      if PromptRequest.stream request then
        Return (StreamingResponse (stream_llm_response os cmd))
      else
        match subprocess_run os cmd true with
        | Completed result =>
            Return (JSONResponse (PDict [("response", PStr (run_stdout result))]))
        | CalledProcessError _ _ stderr =>
            HTTPException 500 ("LLM command failed: " ++ stderr)
        | RunRaised e => Uncaught e
        end
  end.

Definition chat_message (message : ChatMessage.t) : response body :=
  let cmd := chat_message_cmd message in
  Return (StreamingResponse (stream_llm_chat_response os cmd (ChatMessage.message message))).

(** The temporary file is created, then the upload is read and written to
    it; any exception on the way becomes a 500. *)
Definition upload_file (file : UploadFile) : response pyval :=
  match (tmp_path <- os_mkstemp os ("_" ++ py_str (opt_str (filename file))) ;;
         content <- read file ;;
         _ <- os_write os tmp_path content ;;
         Ok (tmp_path, content))%py with
  | Ok (tmp_path, content) =>
      Return (PDict [("filename", opt_str (filename file));
                     ("path", PStr tmp_path);
                     ("size", PInt (Z.of_nat (List.length content)));
                     ("mimetype", opt_str (content_type file))])
  | Raise e => HTTPException 500 ("File upload failed: " ++ exc_str e)
  end.

Definition upload_clipboard_image (file : UploadFile) : response pyval :=
  upload_file file.

(** The names [llm templates list] prints, one a line: the lines of the
    output without the white space around them, the blank ones left
    out. *)
Definition get_templates : response pyval :=
  match subprocess_run os ["llm"; "templates"; "list"] true with
  | Completed result =>
      let lines := str_split newline (str_strip (run_stdout result)) in
      let templates :=
        map str_strip (filter (fun line => truthy (PStr (str_strip line))) lines) in
      Return (PDict [("templates", PList (map PStr templates))])
  | CalledProcessError _ _ stderr =>
      HTTPException 500 ("Failed to get templates: " ++ stderr)
  | RunRaised e => Uncaught e
  end.

(** The words of [path] that go between [llm] and [--help]: those of
    [shlex.split], and of [path.split()] when it raises. *)
Definition help_parts (path : option string) : list string :=
  if truthy_str path then
    match shlex_split (the_str path) with
    | Ok tokens => tokens
    | Raise _ => str_words (the_str path)
    end
  else [].

(** [subprocess.run] is called with [check=False]: it returns whatever the
    exit code of the command is, and the handler looks at [os_run]
    alone. *)
Definition get_help (path : option string) : response pyval :=
  let cmd := ["llm"] ++ help_parts path ++ ["--help"] in
  match os_run os cmd with
  | Ok result =>
      Return (PDict [("command", PStr (str_join " " cmd));
                     ("help", PStr (if truthy (PStr (run_stdout result))
                                    then run_stdout result
                                    else run_stderr result))])
  | Raise e => HTTPException 500 ("Failed to run help: " ++ exc_str e)
  end.

End Handlers.

(* ================================================================== *)
(** * The builders when [str] raises *)
(* ================================================================== *)

(** The builders above take every [str(value)] to return.  These follow the
    same lines of [execute_prompt] and [chat_message] with a [str] that can
    raise: nothing catches its exception in [add_options], so that it ends
    the request before any command is run. *)
Module Strict.
Section Strict.
Context `{PyRuntime}.

(** [str(v)].  It returns on [None], on a [bool], a [float] and a [str]. *)
Definition str (v : pyval) : result string :=
  match v with
  | PInt _ | PList _ | PDict _ =>
      match str_raises v with
      | Some e => Raise e
      | None => Ok (py_str v)
      end
  | PNone | PBool _ | PFloat _ | PStr _ => Ok (py_str v)
  end.

(** [for key, value in options.items():
       cmd.extend(["-o", str(key), str(value)])]. *)
Fixpoint extend_options (cmd : list string) (items : pydict) : result (list string) :=
  match items with
  | [] => Ok cmd
  | (key, value) :: rest =>
      (key <- str (PStr key) ;;
       value <- str value ;;
       extend_options (cmd ++ ["-o"; key; value]) rest)%py
  end.

(** [add_options] (lines 143 to 148 and 212 to 216). *)
Definition add_options (cmd : list string) (options : option pydict) : result (list string) :=
  match options with
  | None | Some [] => Ok cmd
  | Some items => extend_options cmd items
  end.

(** Lines 152 to 157 and 219 to 223: the [except] clause covers
    [json.dumps] alone, and the call of [add_options] in it is not
    guarded. *)
Definition add_reasoning (cmd : list string) (reasoning : option pydict)
  : result (list string) :=
  if truthy_list reasoning then
    match json_dumps (the_list reasoning) with
    | Ok text => Ok (cmd ++ ["-o"; "reasoning"; text])
    | Raise _ => add_options cmd reasoning
    end
  else Ok cmd.

(** The argument vector [execute_prompt] builds (lines 128 to 174). *)
Definition execute_prompt_cmd (request : PromptRequest.t) : result (list string) :=
  let cmd := ["llm"; "prompt"] in
  let cmd := if truthy_str (PromptRequest.model request)
             then cmd ++ ["-m"; the_str (PromptRequest.model request)] else cmd in
  let cmd := if truthy_str (PromptRequest.system request)
             then cmd ++ ["-s"; the_str (PromptRequest.system request)] else cmd in
  let cmd := if truthy_str (PromptRequest.template request)
             then cmd ++ ["-t"; the_str (PromptRequest.template request)] else cmd in
  let cmd := if truthy_list (PromptRequest.tools request)
             then add_tools cmd (the_list (PromptRequest.tools request)) else cmd in
  (cmd <- add_options cmd (PromptRequest.options request) ;;
   cmd <- add_reasoning cmd (PromptRequest.reasoning request) ;;
   let cmd := if truthy_list (PromptRequest.attachments request)
              then add_attachments cmd (the_list (PromptRequest.attachments request))
              else cmd in
   cmd <- (if truthy_list (PromptRequest.attachment_types request)
           then add_attachment_types cmd (the_list (PromptRequest.attachment_types request))
           else Ok cmd) ;;
   let cmd := add_extra_args cmd (PromptRequest.extra_args request) in
   Ok (cmd ++ [PromptRequest.prompt request]))%py.

(** The argument vector [chat_message] builds (lines 197 to 229). *)
Definition chat_message_cmd (message : ChatMessage.t) : result (list string) :=
  let cmd := ["llm"; "chat"] in
  let cmd := if truthy_str (ChatMessage.model message)
             then cmd ++ ["-m"; the_str (ChatMessage.model message)] else cmd in
  let cmd := if truthy_str (ChatMessage.conversation_id message)
             then cmd ++ ["--cid"; the_str (ChatMessage.conversation_id message)] else cmd in
  let cmd := if truthy_str (ChatMessage.system message)
             then cmd ++ ["-s"; the_str (ChatMessage.system message)] else cmd in
  let cmd := if truthy_list (ChatMessage.tools message)
             then add_tools cmd (the_list (ChatMessage.tools message)) else cmd in
  (cmd <- add_options cmd (ChatMessage.options message) ;;
   cmd <- add_reasoning cmd (ChatMessage.reasoning message) ;;
   Ok (add_extra_args cmd (ChatMessage.extra_args message)))%py.

Definition execute_prompt (os : OS) (request : PromptRequest.t) : response body :=
  match execute_prompt_cmd request with
  | Raise e => Uncaught e
  | Ok cmd =>
      if PromptRequest.stream request then
        Return (StreamingResponse (stream_llm_response os cmd))
      else
        match subprocess_run os cmd true with
        | Completed result =>
            Return (JSONResponse (PDict [("response", PStr (run_stdout result))]))
        | CalledProcessError _ _ stderr =>
            HTTPException 500 ("LLM command failed: " ++ stderr)
        | RunRaised e => Uncaught e
        end
  end.

Definition chat_message (os : OS) (message : ChatMessage.t) : response body :=
  match chat_message_cmd message with
  | Raise e => Uncaught e
  | Ok cmd =>
      Return (StreamingResponse
                (stream_llm_chat_response os cmd (ChatMessage.message message)))
  end.

End Strict.
End Strict.

(* ================================================================== *)
(** * The flag grammar of the specification *)
(* ================================================================== *)

(** The segments of an argument vector as section 4.1 of the specification
    words them; the theorems below compare the builders with them. *)
Section Grammar.
Context `{PyRuntime}.

(** [name <value>] for a field that is set and not empty. *)
Definition flag (name : string) (value : option string) : list string :=
  match value with
  | Some ((String _ _) as text) => [name; text]
  | _ => []
  end.

(** Repeated [-T <name>]. *)
Definition tool_flags (tools : option (list string)) : list string :=
  flat_map (fun tool => ["-T"; tool]) (the_list tools).

(** Repeated [-o <key> <value>]. *)
Definition option_flags (items : pydict) : list string :=
  flat_map (fun kv => ["-o"; fst kv; py_str (snd kv)]) items.

(** Repeated [-a <path>]. *)
Definition attachment_flags (paths : option (list string)) : list string :=
  flat_map (fun path => ["-a"; path]) (the_list paths).

(** Repeated [--at <path> <mimetype>]. *)
Definition attachment_type_flags (pairs : option (list (list string))) : list string :=
  flat_map (fun pair => "--at" :: pair) (the_list pairs).

(** The reasoning mapping: one JSON-encoded option, or its items as
    options when the encoding fails. *)
Definition reasoning_flags (reasoning : option pydict) : list string :=
  match reasoning with
  | Some ((_ :: _) as items) =>
      match json_dumps items with
      | Ok text => ["-o"; "reasoning"; text]
      | Raise _ => option_flags items
      end
  | _ => []
  end.

(** The extra flags: the shell words of the text, none when it does not
    tokenize. *)
Definition extra_flags (extra : option string) : list string :=
  match extra with
  | Some ((String _ _) as text) =>
      match shlex_split text with
      | Ok tokens => tokens
      | Raise _ => []
      end
  | _ => []
  end.

End Grammar.

(* ================================================================== *)
(** * A reference runtime *)
(* ================================================================== *)

(** The library functions of [PyRuntime], written out after CPython 3.11,
    for running the handlers on concrete requests. *)
Module Reference.

Definition tab : ascii := ascii_of_nat 9.
Definition lf : ascii := ascii_of_nat 10.
Definition cr : ascii := ascii_of_nat 13.
Definition backslash : ascii := ascii_of_nat 92.
Definition dquote : ascii := ascii_of_nat 34.
Definition squote : ascii := ascii_of_nat 39.

Definition snoc (s : string) (c : ascii) : string := s ++ String c "".

(** ** [shlex.split(s)]: [posix=True], [whitespace_split=True], no
       comments *)

Inductive shlex_state : Type :=
| InSpace                                  (* state ' ' *)
| InWord                                   (* state 'a' *)
| InQuote (q : ascii)                      (* state in quotes *)
| InEscape (escapedstate : shlex_state).   (* state in escape *)

Definition is_whitespace (c : ascii) : bool :=
  Ascii.eqb c " " || Ascii.eqb c tab || Ascii.eqb c cr || Ascii.eqb c lf.

Definition is_quote (c : ascii) : bool := Ascii.eqb c squote || Ascii.eqb c dquote.

Definition emit_token (token : string) (quoted : bool) (rest : result (list string))
  : result (list string) :=
  if negb (token =? "")%string || quoted
  then (tokens <- rest ;; Ok (token :: tokens))%py
  else rest.

(** [read_token] called until the end of the input: one character at a
    time, with the lexer's state, the token under construction and whether
    a quote was seen in it. *)
Fixpoint shlex_tokens (state : shlex_state) (token : string) (quoted : bool) (s : string)
  : result (list string) :=
  match s with
  | EmptyString =>
      match state with
      | InSpace | InWord => emit_token token quoted (Ok [])
      | InQuote _ => Raise (Exc "ValueError" "No closing quotation")
      | InEscape _ => Raise (Exc "ValueError" "No escaped character")
      end
  | String nextchar s' =>
      match state with
      | InSpace =>
          if is_whitespace nextchar then
            emit_token token quoted (shlex_tokens InSpace "" false s')
          else if Ascii.eqb nextchar backslash then
            shlex_tokens (InEscape InWord) token quoted s'
          else if is_quote nextchar then
            shlex_tokens (InQuote nextchar) token quoted s'
          else shlex_tokens InWord (String nextchar "") quoted s'
      | InQuote q =>
          if Ascii.eqb nextchar q then shlex_tokens InWord token true s'
          else if Ascii.eqb nextchar backslash && Ascii.eqb q dquote then
            shlex_tokens (InEscape (InQuote q)) token true s'
          else shlex_tokens (InQuote q) (snoc token nextchar) true s'
      | InEscape escapedstate =>
          let token :=
            match escapedstate with
            | InQuote q =>
                if negb (Ascii.eqb nextchar backslash) && negb (Ascii.eqb nextchar q)
                then snoc token backslash else token
            | _ => token
            end in
          shlex_tokens escapedstate (snoc token nextchar) quoted s'
      | InWord =>
          if is_whitespace nextchar then
            emit_token token quoted (shlex_tokens InSpace "" false s')
          else if is_quote nextchar then
            shlex_tokens (InQuote nextchar) token quoted s'
          else if Ascii.eqb nextchar backslash then
            shlex_tokens (InEscape InWord) token quoted s'
          else shlex_tokens InWord (snoc token nextchar) quoted s'
      end
  end.

Definition shlex_split (s : string) : result (list string) :=
  shlex_tokens InSpace "" false s.

(** ** [json.loads] *)

Definition json_error (msg : string) : exc := Exc "JSONDecodeError" msg.

Definition is_json_ws (c : ascii) : bool :=
  Ascii.eqb c " " || Ascii.eqb c tab || Ascii.eqb c lf || Ascii.eqb c cr.

Fixpoint skip_ws (s : string) : string :=
  match s with
  | String c s' => if is_json_ws c then skip_ws s' else s
  | EmptyString => s
  end.

Definition is_digit (c : ascii) : bool :=
  ((48 <=? N_of_ascii c) && (N_of_ascii c <=? 57))%N.

Definition hex_digit (c : ascii) : option N :=
  let n := N_of_ascii c in
  if ((48 <=? n) && (n <=? 57))%N then Some (n - 48)%N
  else if ((97 <=? n) && (n <=? 102))%N then Some (n - 87)%N
  else if ((65 <=? n) && (n <=? 70))%N then Some (n - 55)%N
  else None.

Definition hex4 (a b c d : ascii) : option N :=
  match hex_digit a, hex_digit b, hex_digit c, hex_digit d with
  | Some x, Some y, Some z, Some w => Some (((x * 16 + y) * 16 + z) * 16 + w)%N
  | _, _, _, _ => None
  end.

(** The UTF-8 bytes of a code point (a lone surrogate is written in the
    same three-byte form). *)
Definition utf8_encode (cp : N) : string :=
  string_of_list_ascii
    (map ascii_of_N
       (if cp <? 128 then [cp]
        else if cp <? 2048 then [192 + cp / 64; 128 + cp mod 64]
        else if cp <? 65536 then
          [224 + cp / 4096; 128 + (cp / 64) mod 64; 128 + cp mod 64]
        else [240 + cp / 262144; 128 + (cp / 4096) mod 64;
              128 + (cp / 64) mod 64; 128 + cp mod 64])%N).

Definition unescape (esc : ascii) : option ascii :=
  if Ascii.eqb esc dquote then Some dquote
  else if Ascii.eqb esc backslash then Some backslash
  else if Ascii.eqb esc "/" then Some "/"%char
  else if Ascii.eqb esc "b" then Some (ascii_of_nat 8)
  else if Ascii.eqb esc "f" then Some (ascii_of_nat 12)
  else if Ascii.eqb esc "n" then Some lf
  else if Ascii.eqb esc "r" then Some cr
  else if Ascii.eqb esc "t" then Some tab
  else None.

Definition is_high_surrogate (u : N) : bool := ((55296 <=? u) && (u <=? 56319))%N.
Definition is_low_surrogate (u : N) : bool := ((56320 <=? u) && (u <=? 57343))%N.

(** [scanstring]: the text after the opening quote, to the closing one. *)
Fixpoint scan_string (s : string) (acc : string) : result (string * string) :=
  match s with
  | EmptyString => Raise (json_error "Unterminated string starting at")
  | String c s1 =>
      if Ascii.eqb c dquote then Ok (acc, s1)
      else if Ascii.eqb c backslash then
        match s1 with
        | EmptyString => Raise (json_error "Unterminated string starting at")
        | String "u" (String h1 (String h2 (String h3 (String h4 s2)))) =>
            match hex4 h1 h2 h3 h4 with
            | None => Raise (json_error "Invalid \uXXXX escape")
            | Some uni =>
                match s2 with
                | String b (String "u" (String g1 (String g2 (String g3 (String g4 s3))))) =>
                    if is_high_surrogate uni && Ascii.eqb b backslash then
                      match hex4 g1 g2 g3 g4 with
                      | None => Raise (json_error "Invalid \uXXXX escape")
                      | Some uni2 =>
                          if is_low_surrogate uni2 then
                            scan_string s3
                              (acc ++ utf8_encode
                                        (65536 + (uni - 55296) * 1024 + (uni2 - 56320))%N)
                          else scan_string s2 (acc ++ utf8_encode uni)
                      end
                    else scan_string s2 (acc ++ utf8_encode uni)
                | _ => scan_string s2 (acc ++ utf8_encode uni)
                end
            end
        | String "u" _ => Raise (json_error "Invalid \uXXXX escape")
        | String esc s2 =>
            match unescape esc with
            | Some ch => scan_string s2 (snoc acc ch)
            | None => Raise (json_error "Invalid \escape")
            end
        end
      else if (N_of_ascii c <? 32)%N then Raise (json_error "Invalid control character at")
      else scan_string s1 (snoc acc c)
  end.

Fixpoint span_digits (s : string) : string * string :=
  match s with
  | String c s' =>
      if is_digit c then let (ds, rest) := span_digits s' in (String c ds, rest)
      else ("", s)
  | EmptyString => ("", s)
  end.

(** [NUMBER_RE]: the integer part, then the fraction and the exponent when
    they are there. *)
Definition match_number (s : string) : option (string * string * string) :=
  let (sign, s1) := match s with String "-" s' => ("-", s') | _ => ("", s) end in
  let after_int :=
    match s1 with
    | String c s2 =>
        if Ascii.eqb c "0" then Some ((sign ++ "0")%string, s2)
        else if is_digit c then
          let (ds, s3) := span_digits s2 in Some ((sign ++ String c ds)%string, s3)
        else None
    | EmptyString => None
    end in
  match after_int with
  | None => None
  | Some (integer, s2) =>
      let (frac, s3) :=
        match s2 with
        | String "." r =>
            let (ds, r') := span_digits r in
            if (ds =? "")%string then ("", s2) else (("." ++ ds)%string, r')
        | _ => ("", s2)
        end in
      let (exp, s4) :=
        match s3 with
        | String e r =>
            if Ascii.eqb e "e" || Ascii.eqb e "E" then
              let (sg, r1) :=
                match r with
                | String "+" r' => ("+", r')
                | String "-" r' => ("-", r')
                | _ => ("", r)
                end in
              let (ds, r2) := span_digits r1 in
              if (ds =? "")%string then ("", s3) else (String e (sg ++ ds)%string, r2)
            else ("", s3)
        | EmptyString => ("", s3)
        end in
      Some (integer, (frac ++ exp)%string, s4)
  end.

(** [int(text)]; past 4300 digits Python refuses the conversion. *)
Definition parse_int (text : string) : result pyval :=
  let digits := match text with String "-" t => t | _ => text end in
  if (4300 <? String.length digits)%nat then
    Raise (Exc "ValueError"
               "Exceeds the limit (4300) for integer string conversion")
  else
    let n := fold_left (fun acc c => acc * 10 + Z.of_N (N_of_ascii c - 48))
                       (list_ascii_of_string digits) 0 in
    Ok (PInt (match text with String "-" _ => - n | _ => n end)).

Fixpoint strip_prefix (p s : string) : option string :=
  match p, s with
  | EmptyString, _ => Some s
  | String a p', String b s' => if Ascii.eqb a b then strip_prefix p' s' else None
  | _, EmptyString => None
  end.

(** [dict(pairs)]: a later value for a key replaces the earlier one in
    place. *)
Fixpoint dict_set (d : pydict) (k : string) (v : pyval) : pydict :=
  match d with
  | [] => [(k, v)]
  | (k', v') :: d' => if (k' =? k)%string then (k', v) :: d' else (k', v') :: dict_set d' k v
  end.

Section Scan.
Variable scan : string -> result (pyval * string).

(** [JSONArray], at the first item. *)
Fixpoint array_loop (fuel : nat) (s : string) (acc : list pyval) : result (pyval * string) :=
  match fuel with
  | O => Raise (json_error "Expecting value")
  | S fuel' =>
      (vs <- scan s ;;
       match skip_ws (snd vs) with
       | String "]" s' => Ok (PList (rev (fst vs :: acc)), s')
       | String "," s' => array_loop fuel' (skip_ws s') (fst vs :: acc)
       | _ => Raise (json_error "Expecting ',' delimiter")
       end)%py
  end.

(** [JSONObject], after the quote that opens a key. *)
Fixpoint object_loop (fuel : nat) (s : string) (acc : pydict) : result (pyval * string) :=
  match fuel with
  | O => Raise (json_error "Expecting value")
  | S fuel' =>
      (ks <- scan_string s "" ;;
       match skip_ws (snd ks) with
       | String ":" s1 =>
           vs <- scan (skip_ws s1) ;;
           let acc := dict_set acc (fst ks) (fst vs) in
           match skip_ws (snd vs) with
           | String "}" s2 => Ok (PDict acc, s2)
           | String "," s2 =>
               match skip_ws s2 with
               | String c s3 =>
                   if Ascii.eqb c dquote then object_loop fuel' s3 acc
                   else Raise (json_error
                                 "Expecting property name enclosed in double quotes")
               | EmptyString =>
                   Raise (json_error "Expecting property name enclosed in double quotes")
               end
           | _ => Raise (json_error "Expecting ',' delimiter")
           end
       | _ => Raise (json_error "Expecting ':' delimiter")
       end)%py
  end.

End Scan.

(** [scan_once]; [depth] bounds the nesting, which Python bounds by its
    recursion limit. *)
Fixpoint scan_once (depth : nat) (s : string) : result (pyval * string) :=
  match depth with
  | O => Raise (Exc "RecursionError"
                    "maximum recursion depth exceeded while decoding a JSON document")
  | S depth' =>
      match s with
      | EmptyString => Raise (json_error "Expecting value")
      | String "{" s' =>
          match skip_ws s' with
          | String "}" s2 => Ok (PDict [], s2)
          | String c s2 =>
              if Ascii.eqb c dquote
              then object_loop (scan_once depth') (String.length s2) s2 []
              else Raise (json_error "Expecting property name enclosed in double quotes")
          | EmptyString =>
              Raise (json_error "Expecting property name enclosed in double quotes")
          end
      | String "[" s' =>
          match skip_ws s' with
          | String "]" s2 => Ok (PList [], s2)
          | s2 => array_loop (scan_once depth') (String.length s2) s2 []
          end
      | String c s' =>
          if Ascii.eqb c dquote then
            (r <- scan_string s' "" ;; Ok (PStr (fst r), snd r))%py
          else
            match strip_prefix "null" s, strip_prefix "true" s, strip_prefix "false" s with
            | Some s', _, _ => Ok (PNone, s')
            | _, Some s', _ => Ok (PBool true, s')
            | _, _, Some s' => Ok (PBool false, s')
            | None, None, None =>
                match match_number s with
                | Some (integer, "", s') => (n <- parse_int integer ;; Ok (n, s'))%py
                | Some (integer, rest, s') => Ok (PFloat (integer ++ rest), s')
                | None =>
                    match strip_prefix "NaN" s, strip_prefix "Infinity" s,
                          strip_prefix "-Infinity" s with
                    | Some s', _, _ => Ok (PFloat "nan", s')
                    | _, Some s', _ => Ok (PFloat "inf", s')
                    | _, _, Some s' => Ok (PFloat "-inf", s')
                    | None, None, None => Raise (json_error "Expecting value")
                    end
                end
            end
      end
  end.

Definition bom : string :=
  String (ascii_of_nat 239) (String (ascii_of_nat 187) (String (ascii_of_nat 191) "")).

(** [json.loads(s)] under the given recursion limit; the messages are
    Python's without the position it appends. *)
Definition json_loads (recursion_limit : nat) (s : string) : result pyval :=
  match strip_prefix bom s with
  | Some _ => Raise (json_error "Unexpected UTF-8 BOM (decode using utf-8-sig)")
  | None =>
      (r <- scan_once recursion_limit (skip_ws s) ;;
       match skip_ws (snd r) with
       | EmptyString => Ok (fst r)
       | _ => Raise (json_error "Extra data")
       end)%py
  end.

(** ** [repr] *)

Fixpoint join (sep : string) (parts : list string) : string :=
  match parts with
  | [] => ""
  | [p] => p
  | p :: rest => p ++ sep ++ join sep rest
  end.

Definition contains_char (c : ascii) (s : string) : bool :=
  existsb (Ascii.eqb c) (list_ascii_of_string s).

Definition repr_char (quote c : ascii) : string :=
  if Ascii.eqb c quote || Ascii.eqb c backslash then String backslash (String c "")
  else if Ascii.eqb c tab then "\t"
  else if Ascii.eqb c lf then "\n"
  else if Ascii.eqb c cr then "\r"
  else if (N_of_ascii c <? 32)%N || (N_of_ascii c =? 127)%N
       then "\x" ++ hex2 (N_of_ascii c)
  else String c "".

(** [repr] of a [str]; the bytes of a character outside ASCII are kept, as
    Python keeps a printable character.  A float prints as its text, which
    is what Python prints when the text is the shortest that denotes it. *)
Definition repr_str (s : string) : string :=
  let quote :=
    if contains_char squote s && negb (contains_char dquote s) then dquote else squote in
  String quote (concat "" (map (repr_char quote) (list_ascii_of_string s)))
  ++ String quote "".

Fixpoint py_repr (v : pyval) : string :=
  match v with
  | PNone => "None"
  | PBool true => "True"
  | PBool false => "False"
  | PInt z => decimal_Z z
  | PFloat t => t
  | PStr s => repr_str s
  | PList l => "[" ++ join ", " (map py_repr l) ++ "]"
  | PDict d =>
      "{" ++ join ", " (map (fun kv : string * pyval =>
                               let (k, x) := kv in
                               (repr_str k ++ ": " ++ py_repr x)%string) d) ++ "}"
  end.

(** ** [json.dumps] *)

Definition hex4_str (n : N) : string := hex2 (n / 256) ++ hex2 (n mod 256).

(** [\uXXXX] for a code point, a surrogate pair above U+FFFF. *)
Definition u_escape (cp : N) : string :=
  if (cp <? 65536)%N then "\u" ++ hex4_str cp
  else
    let v := (cp - 65536)%N in
    "\u" ++ hex4_str (55296 + v / 1024) ++ "\u" ++ hex4_str (56320 + v mod 1024).

Definition escape_ascii_char (c : ascii) : string :=
  if Ascii.eqb c backslash then "\\"
  else if Ascii.eqb c dquote then String backslash (String dquote "")
  else if Ascii.eqb c (ascii_of_nat 8) then "\b"
  else if Ascii.eqb c (ascii_of_nat 12) then "\f"
  else if Ascii.eqb c lf then "\n"
  else if Ascii.eqb c cr then "\r"
  else if Ascii.eqb c tab then "\t"
  else if (N_of_ascii c <? 32)%N || (126 <? N_of_ascii c)%N then u_escape (N_of_ascii c)
  else String c "".

(** The body of a JSON string under [ensure_ascii]: the code points of the
    UTF-8 text, each outside the printable ASCII range escaped. *)
Fixpoint escape_ascii (s : string) : string :=
  let low (c : ascii) := (N_of_ascii c mod 64)%N in
  match s with
  | EmptyString => ""
  | String c1 s1 =>
      let n := N_of_ascii c1 in
      if (n <? 192)%N then escape_ascii_char c1 ++ escape_ascii s1
      else if (n <? 224)%N then
        match s1 with
        | String c2 s2 => u_escape ((n - 192) * 64 + low c2) ++ escape_ascii s2
        | _ => escape_ascii_char c1
        end
      else if (n <? 240)%N then
        match s1 with
        | String c2 (String c3 s3) =>
            u_escape (((n - 224) * 64 + low c2) * 64 + low c3) ++ escape_ascii s3
        | _ => escape_ascii_char c1 ++ escape_ascii s1
        end
      else
        match s1 with
        | String c2 (String c3 (String c4 s4)) =>
            u_escape ((((n - 240) * 64 + low c2) * 64 + low c3) * 64 + low c4)
            ++ escape_ascii s4
        | _ => escape_ascii_char c1 ++ escape_ascii s1
        end
  end.

Definition dumps_str (s : string) : string :=
  String dquote (escape_ascii s) ++ String dquote "".

Fixpoint sequence {A} (l : list (result A)) : result (list A) :=
  match l with
  | [] => Ok []
  | r :: l' => (a <- r ;; rest <- sequence l' ;; Ok (a :: rest))%py
  end.

(** The encoder; [depth] bounds the nesting, which Python bounds by its
    recursion limit. *)
Fixpoint encode (depth : nat) (v : pyval) : result string :=
  match depth with
  | O => Raise (Exc "RecursionError"
                    "maximum recursion depth exceeded while encoding a JSON object")
  | S depth' =>
      match v with
      | PNone => Ok "null"
      | PBool true => Ok "true"
      | PBool false => Ok "false"
      | PInt z => Ok (decimal_Z z)
      | PFloat t =>
          Ok (if (t =? "nan")%string then "NaN"
              else if (t =? "inf")%string then "Infinity"
              else if (t =? "-inf")%string then "-Infinity"
              else t)
      | PStr s => Ok (dumps_str s)
      | PList l =>
          (items <- sequence (map (encode depth') l) ;;
           Ok ("[" ++ join ", " items ++ "]")%string)%py
      | PDict d =>
          (items <- sequence
                      (map (fun kv => x <- encode depth' (snd kv) ;;
                                      Ok (dumps_str (fst kv) ++ ": " ++ x)%string) d) ;;
           Ok ("{" ++ join ", " items ++ "}")%string)%py
      end
  end.

Definition json_dumps (recursion_limit : nat) (d : pydict) : result string :=
  encode recursion_limit (PDict d).

(** ** When [str] raises *)

(** The digits [str] converts at most: [sys.get_int_max_str_digits()]. *)
Definition max_str_digits : N := 4300.

Definition digits (z : Z) : N :=
  N.of_nat (String.length (decimal_N (Z.to_N (Z.abs z)))).

Fixpoint first_raised (l : list (option exc)) : option exc :=
  match l with
  | [] => None
  | Some e :: _ => Some e
  | None :: l' => first_raised l'
  end.

(** The exception of [repr(v)]; [depth] bounds the nesting as it does in
    [encode].  The items of a list and the values of a mapping are printed
    in order, and the keys of a mapping are [str]. *)
Fixpoint repr_raises (depth : nat) (v : pyval) : option exc :=
  match depth with
  | O => Some (Exc "RecursionError"
                   "maximum recursion depth exceeded while getting the repr of an object")
  | S depth' =>
      match v with
      | PInt z =>
          if (max_str_digits <? digits z)%N
          then Some (Exc "ValueError"
                         ("Exceeds the limit (4300 digits) for integer string conversion; "
                          ++ "use sys.set_int_max_str_digits() to increase the limit"))
          else None
      | PList l => first_raised (map (repr_raises depth') l)
      | PDict d => first_raised (map (fun kv => repr_raises depth' (snd kv)) d)
      | PNone | PBool _ | PFloat _ | PStr _ => None
      end
  end.

(** The runtime of an interpreter with the given recursion limit. *)
Definition runtime (recursion_limit : nat) : PyRuntime :=
  Build_PyRuntime (json_loads recursion_limit) (json_dumps recursion_limit)
                  shlex_split py_repr (repr_raises recursion_limit).

End Reference.

(* ================================================================== *)
(** * Vocabulary of the stream properties *)
(* ================================================================== *)

(** [readline] gave [line], which is not the end of file, and it decodes
    to [text]. *)
Definition decodes (line : list byte) (text : string) : Prop :=
  line <> [] /\ bytes_decode line = Ok text.

(** The first results of [readline] are lines that decode to [texts]. *)
Definition decoded_prefix (stdout : list (result (list byte))) (texts : list string) : Prop :=
  exists lines rest, stdout = map Ok lines ++ rest /\ Forall2 decodes lines texts.

(** The chunk that reports a failure. *)
Definition error_text (msg : string) : string := nl ++ "Error: " ++ msg.

(* ================================================================== *)
(** * Vocabulary of the conversation property *)
(* ================================================================== *)

(** The [str] a field of a log row holds, when it holds one that is not
    empty. *)
Definition row_str (key : string) (row : pyval) : option string :=
  match row with
  | PDict d =>
      match dict_get d key PNone with
      | PStr (String c s) => Some (String c s)
      | _ => None
      end
  | _ => None
  end.

(** The conversation a row belongs to, and its timestamp. *)
Definition row_cid : pyval -> option string := row_str "conversation_id".
Definition row_time : pyval -> option string := row_str "datetime_utc".

(** A value that is a [str] or falsy. *)
Definition str_or_falsy (v : pyval) : bool :=
  negb (truthy v) || match v with PStr _ => true | _ => false end.

(** The log rows [conversations_of] models: objects whose id and timestamp
    are strings when they are set. *)
Definition row_ok (row : pyval) : bool :=
  match row with
  | PDict d =>
      str_or_falsy (dict_get d "conversation_id" PNone)
      && str_or_falsy (dict_get d "datetime_utc" PNone)
  | _ => false
  end.

Definition in_conversation (cid : string) (row : pyval) : bool :=
  match row_cid row with
  | Some c => (c =? cid)%string
  | None => false
  end.

(** [a] sorts before or with [b] under [reverse=True]. *)
Definition newer_or_same (a b : Conv.t) : Prop :=
  String.leb (sort_key b) (sort_key a) = true.

(** [a] does not report an older time than [b]: when [b] reports a time, a
    [str] that is not empty, [a] reports one that is the same or greater in
    the order of strings. *)
Definition not_older (a b : Conv.t) : Prop :=
  forall tb,
    Conv.latest b = PStr tb -> tb <> "" ->
    exists ta, Conv.latest a = PStr ta /\ String.leb tb ta = true.

(** What a summary says of the rows seen so far. *)
Definition summary_ok (seen : list pyval) (cid : string) (c : Conv.t) : Prop :=
  Conv.conversation_id c = cid
  /\ Conv.count c = Z.of_nat (List.length (filter (in_conversation cid) seen))
  /\ str_or_falsy (Conv.latest c) = true
  /\ (forall row t,
        In row seen -> row_cid row = Some cid -> row_time row = Some t ->
        exists m, Conv.latest c = PStr m /\ String.leb t m = true)
  /\ (exists d,
        In (PDict d) seen /\ row_cid (PDict d) = Some cid
        /\ Conv.latest c = dict_get d "datetime_utc" PNone
        /\ Conv.model c = dict_get d "model" PNone
        /\ Conv.last_prompt c = dict_get d "prompt" (PStr "")).

(** The invariant of the loop of [list_conversations]. *)
Definition convs_ok (seen : list pyval) (convs : convs_t) : Prop :=
  NoDup (map fst convs)
  /\ (forall cid, In cid (map fst convs) <-> exists row, In row seen /\ row_cid row = Some cid)
  /\ (forall cid c, In (cid, c) convs -> summary_ok seen cid c).

(* ================================================================== *)
(** * Vocabulary of the further properties *)
(* ================================================================== *)

(** A template name as [get_templates] reports it: not empty, on one
    line, with no white space around it. *)
Definition clean_name (name : string) : Prop :=
  name <> ""
  /\ str_strip name = name
  /\ ~ In newline (list_ascii_of_string name).

(** A text without the character ['\r'], which [text=True] does not
    keep. *)
Definition no_carriage_return (s : string) : Prop :=
  ~ In carriage_return (list_ascii_of_string s).

(** [str] returns on the value. *)
Definition prints `{PyRuntime} (v : pyval) : Prop :=
  Strict.str v = Ok (py_str v).

(** [str] returns on every value of the mapping. *)
Definition values_print `{PyRuntime} (items : pydict) : Prop :=
  Forall (fun kv => prints (snd kv)) items.

(** [str] raises [e] on a value of the mapping, and returns on the values
    before it. *)
Definition first_unprintable `{PyRuntime} (items : pydict) (e : exc) : Prop :=
  exists good key value rest,
    items = good ++ (key, value) :: rest
    /\ values_print good
    /\ Strict.str value = Raise e.

(** No white space anywhere in the text. *)
Definition spaceless (s : string) : Prop :=
  forall a b, list_ascii_of_string s = a ++ b -> space_at false b = None.

(** A character that [shlex] takes as it is: no white space, no quote, no
    backslash. *)
Definition plain_char (c : ascii) : bool :=
  negb (Reference.is_whitespace c || Reference.is_quote c
        || Ascii.eqb c Reference.backslash).

(** A word made of such characters. *)
Definition plain_word (w : string) : Prop :=
  w <> "" /\ Forall (fun c => plain_char c = true) (list_ascii_of_string w).

(** The argument vectors of the children a run starts. *)
Definition spawned (es : list event) : list (list string) :=
  flat_map (fun e => match e with Spawn argv => [argv] | _ => [] end) es.





(** The row belongs to a conversation. *)
Definition has_id (row : pyval) : bool :=
  match row_cid row with Some _ => true | None => false end.

(** The rows a list of summaries accounts for. *)
Definition total_count (l : list Conv.t) : Z :=
  fold_right Z.add 0 (map Conv.count l).

(** The row a summary reports: the first row of the conversation among
    those that carry its greatest timestamp, and the first row of the
    conversation when it reports a row without timestamp. *)
Definition reported_row (rows : list pyval) (cid : string) (c : Conv.t) : Prop :=
  exists pre d post,
    rows = pre ++ PDict d :: post
    /\ row_cid (PDict d) = Some cid
    /\ Conv.latest c = dict_get d "datetime_utc" PNone
    /\ Conv.model c = dict_get d "model" PNone
    /\ Conv.last_prompt c = dict_get d "prompt" (PStr "")
    /\ (forall row t,
           In row pre -> row_cid row = Some cid -> row_time row = Some t ->
           exists m, row_time (PDict d) = Some m /\ String.ltb t m = true)
    /\ (row_time (PDict d) = None -> forall row, In row pre -> row_cid row <> Some cid).

(** The conversation ids of the rows in the order of their first
    occurrence, those of [seen] left out. *)
Fixpoint first_ids (rows : list pyval) (seen : list string) : list string :=
  match rows with
  | [] => []
  | row :: rest =>
      match row_cid row with
      | Some cid =>
          if existsb (String.eqb cid) seen then first_ids rest seen
          else cid :: first_ids rest (seen ++ [cid])
      | None => first_ids rest seen
      end
  end.

(** [convs.get(cid)]. *)
Fixpoint conv_get (convs : convs_t) (cid : string) : option Conv.t :=
  match convs with
  | [] => None
  | (k, c) :: rest => if (k =? cid)%string then Some c else conv_get rest cid
  end.

(* ================================================================== *)
(** * Sample requests and children *)
(* ================================================================== *)

Module Samples.

(** An interpreter with the default recursion limit. *)
Definition python : PyRuntime := Reference.runtime 1000.

Definition options : pydict := [("temperature", PFloat "0.7"); ("max_tokens", PInt 256)].

Definition reasoning : pydict := [("effort", PStr "high")].

Definition prompt_request (extra : string) : PromptRequest.t :=
  {| PromptRequest.prompt := "Describe the picture";
     PromptRequest.model := Some "gpt-4o";
     PromptRequest.system := Some "Be brief";
     PromptRequest.attachments := Some ["/tmp/a.png"; "/tmp/b.png"];
     PromptRequest.attachment_types := Some [["/tmp/c.bin"; "image/png"]];
     PromptRequest.template := None;
     PromptRequest.options := Some options;
     PromptRequest.tools := Some ["llm_time"];
     PromptRequest.stream := false;
     PromptRequest.reasoning := Some reasoning;
     PromptRequest.extra_args := Some extra |}.

Definition chat (text : string) : ChatMessage.t :=
  {| ChatMessage.message := text;
     ChatMessage.model := Some "gpt-4o";
     ChatMessage.conversation_id := Some "01hx";
     ChatMessage.system := None;
     ChatMessage.tools := None;
     ChatMessage.options := Some options;
     ChatMessage.reasoning := Some reasoning;
     ChatMessage.extra_args := Some "--no-stream" |}.

(** [value] inside [n] lists. *)
Fixpoint nested (n : nat) (value : pyval) : pyval :=
  match n with
  | O => value
  | S n' => PList [nested n' value]
  end.

(** A reasoning mapping whose value is nested [n] lists deep, and requests
    that carry it. *)
Definition deep_reasoning (n : nat) : pydict := [("effort", nested n (PStr "high"))].

Definition deep_chat (n : nat) : ChatMessage.t :=
  {| ChatMessage.message := "hi";
     ChatMessage.model := Some "gpt-4o";
     ChatMessage.conversation_id := Some "01hx";
     ChatMessage.system := None;
     ChatMessage.tools := None;
     ChatMessage.options := Some options;
     ChatMessage.reasoning := Some (deep_reasoning n);
     ChatMessage.extra_args := Some "--no-stream" |}.

Definition deep_request (n : nat) : PromptRequest.t :=
  {| PromptRequest.prompt := "hi";
     PromptRequest.model := None;
     PromptRequest.system := None;
     PromptRequest.attachments := None;
     PromptRequest.attachment_types := None;
     PromptRequest.template := None;
     PromptRequest.options := None;
     PromptRequest.tools := None;
     PromptRequest.stream := false;
     PromptRequest.reasoning := Some (deep_reasoning n);
     PromptRequest.extra_args := None |}.

(** A child that writes the given lines and error output and ends with
    the given code; each line has arrived whole when it is read. *)
Definition child (lines : list (list byte)) (code : Z) (err : list byte) : Process :=
  {| stdin_drain := Ok tt;
     stdout_readline := readline_calls true lines;
     returncode := code;
     stderr_read := Ok err |}.

(** A child that prints the given text. *)
Definition child_printing (out : string) (code : Z) (err : list byte) : Process :=
  child (lines_of (list_byte_of_string out)) code err.

(** A machine on which every command runs as [ran] and starts as
    [started], and temporary files can be written. *)
Definition machine (ran : result CompletedProcess) (started : result Process) : OS :=
  {| os_run := fun _ => ran;
     os_exec := fun _ => started;
     os_mkstemp := fun suffix => Ok ("/tmp/tmpk3q9x0aw" ++ suffix)%string;
     os_write := fun _ _ => Ok tt |}.

Definition not_found : exc :=
  Exc "FileNotFoundError" "[Errno 2] No such file or directory: 'llm'".

(** A machine on which the command writes the given bytes and ends with
    [code]. *)
Definition machine_writing (code : Z) (out err : list byte) : OS :=
  machine (communicate {| exit_code := code; stdout_bytes := out; stderr_bytes := err |})
          (Raise not_found).

(** A machine on which the command prints [out] and [err] and ends with
    [code]. *)
Definition machine_printing (code : Z) (out err : string) : OS :=
  machine_writing code (str_encode out) (str_encode err).

(** A machine on which the started child is [p]. *)
Definition machine_starting (p : Process) : OS := machine (Raise not_found) (Ok p).

(** The log rows of the specification's example. *)
Definition log_row (cid t : string) : pyval :=
  PDict [("conversation_id", PStr cid); ("datetime_utc", PStr t)].

Definition logs : list pyval :=
  [log_row "a" "2024-01-01"; log_row "a" "2024-01-02"; log_row "b" "2024-01-01"].

(** A JSON string without escapes. *)
Definition quoted (s : string) : string :=
  String Reference.dquote s ++ String Reference.dquote "".

Definition log_row_json (cid t : string) : string :=
  "{" ++ quoted "conversation_id" ++ ": " ++ quoted cid ++ ", "
  ++ quoted "datetime_utc" ++ ": " ++ quoted t ++ "}".

(** The same rows as the command prints them. *)
Definition logs_json : string :=
  "[" ++ log_row_json "a" "2024-01-01" ++ ", " ++ log_row_json "a" "2024-01-02" ++ ", "
  ++ log_row_json "b" "2024-01-01" ++ "]".

(** [json.dumps(reasoning)]. *)
Definition reasoning_json : string :=
  "{" ++ quoted "effort" ++ ": " ++ quoted "high" ++ "}".

Definition summary (cid t : string) (n : Z) : Conv.t :=
  {| Conv.conversation_id := cid;
     Conv.latest := PStr t;
     Conv.model := PNone;
     Conv.count := n;
     Conv.last_prompt := PStr "" |}.

(** A line that is not UTF-8, and an error output. *)
Definition bad_line : list byte := [xff; x0a].
Definition boom : list byte := list_byte_of_string "boom".

(** A line of 65537 letters and its newline: one byte more than the
    reader takes. *)
Definition long_line : list byte := repeat x61 (N.to_nat 65537) ++ [x0a].

Definition picture : UploadFile :=
  {| filename := Some "shot.png";
     content_type := Some "image/png";
     read := Ok [x89; x50; x4e; x47] |}.

(** The vector of [prompt_request "--no-cache"]. *)
Definition prompt_cmd : list string :=
  ["llm"; "prompt"; "-m"; "gpt-4o"; "-s"; "Be brief"; "-T"; "llm_time";
   "-o"; "temperature"; "0.7"; "-o"; "max_tokens"; "256";
   "-o"; "reasoning"; reasoning_json;
   "-a"; "/tmp/a.png"; "-a"; "/tmp/b.png"; "--at"; "/tmp/c.bin"; "image/png";
   "--no-cache"; "Describe the picture"].

Definition hello_lines : list (list byte) :=
  [list_byte_of_string ("Hello" ++ nl)%string; list_byte_of_string "world"].

(** What [llm templates list] prints for two templates, with blank space
    around the names and a blank line. *)
Definition templates_out : string :=
  ("  summary " ++ nl ++ nl ++ "fix bug" ++ String (ascii_of_nat 9) nl)%string.

(** A machine without the program [llm]. *)
Definition missing : OS := machine (Raise not_found) (Raise not_found).

(** A text with a character of two bytes, on two lines. *)
Definition accented : string :=
  ("h" ++ String (ascii_of_nat 195) (String (ascii_of_nat 169) "llo") ++ nl ++ "world")%string.

(** Log rows with their prompts; two rows of "a" carry its greatest
    timestamp, and one row belongs to no conversation. *)
Definition prompt_row (cid t prompt : string) : pyval :=
  PDict [("conversation_id", PStr cid); ("datetime_utc", PStr t); ("prompt", PStr prompt)].

Definition stray_row : pyval := PDict [("prompt", PStr "alone")].

Definition ties : list pyval :=
  [prompt_row "a" "2024-01-01" "old"; stray_row;
   prompt_row "a" "2024-01-02" "first"; prompt_row "b" "2024-01-01" "other";
   prompt_row "a" "2024-01-02" "second"].

Definition prompt_summary (cid t : string) (n : Z) (prompt : string) : Conv.t :=
  {| Conv.conversation_id := cid;
     Conv.latest := PStr t;
     Conv.model := PNone;
     Conv.count := n;
     Conv.last_prompt := PStr prompt |}.

(** Two conversations whose only rows carry the same timestamp. *)
Definition same_day : list pyval :=
  [prompt_row "b" "2024-01-01" "x"; prompt_row "a" "2024-01-01" "y"].

Definition same_day_convs : convs_t :=
  [("b", prompt_summary "b" "2024-01-01" 1 "x");
   ("a", prompt_summary "a" "2024-01-01" 1 "y")].

(** The summaries the loop ends with on [ties]. *)
Definition ties_convs : convs_t :=
  [("a", prompt_summary "a" "2024-01-02" 3 "first");
   ("b", prompt_summary "b" "2024-01-01" 1 "other")].

(** A request whose second attachment type lacks its mimetype. *)
Definition malformed_request : PromptRequest.t :=
  {| PromptRequest.prompt := "Describe the picture";
     PromptRequest.model := None;
     PromptRequest.system := None;
     PromptRequest.attachments := None;
     PromptRequest.attachment_types := Some [["/tmp/c.bin"; "image/png"]; ["/tmp/d.bin"]];
     PromptRequest.template := None;
     PromptRequest.options := None;
     PromptRequest.tools := None;
     PromptRequest.stream := true;
     PromptRequest.reasoning := None;
     PromptRequest.extra_args := None |}.


End Samples.

(* ================================================================== *)
(** * Command builder: closed forms *)
(* ================================================================== *)

Section BuilderFacts.
Context `{PyRuntime}.

Lemma fold_left_extend {A} (f : A -> list string) (items : list A) (cmd : list string) :
  fold_left (fun cmd x => cmd ++ f x) items cmd = cmd ++ flat_map f items.
Proof.
  revert cmd. induction items as [|x items IH]; intros cmd; simpl.
  - now rewrite app_nil_r.
  - rewrite IH. now rewrite <- app_assoc.
Qed.

Lemma flag_eq (name : string) (value : option string) (cmd : list string) :
  (if truthy_str value then cmd ++ [name; the_str value] else cmd) = cmd ++ flag name value.
Proof.
  destruct value as [[|c s]|]; simpl; now rewrite ?app_nil_r.
Qed.

Lemma add_tools_eq (cmd : list string) (tools : option (list string)) :
  (if truthy_list tools then add_tools cmd (the_list tools) else cmd)
  = cmd ++ tool_flags tools.
Proof.
  unfold add_tools, tool_flags.
  destruct tools as [[|t ts]|]; simpl truthy_list; cbv iota;
    rewrite ?(fold_left_extend (fun tool => ["-T"; tool])); simpl; now rewrite ?app_nil_r.
Qed.

Lemma add_options_eq (cmd : list string) (options : option pydict) :
  add_options cmd options = cmd ++ option_flags (the_list options).
Proof.
  unfold add_options, option_flags.
  destruct options as [[|kv items]|]; simpl the_list.
  - simpl. now rewrite app_nil_r.
  - now rewrite (fold_left_extend (fun kv => ["-o"; py_str (PStr (fst kv)); py_str (snd kv)])).
  - simpl. now rewrite app_nil_r.
Qed.

Lemma add_reasoning_eq (cmd : list string) (reasoning : option pydict) :
  add_reasoning cmd reasoning = cmd ++ reasoning_flags reasoning.
Proof.
  unfold add_reasoning, reasoning_flags.
  destruct reasoning as [[|kv items]|]; simpl truthy_list; cbv iota;
    rewrite ?app_nil_r; try reflexivity.
  cbn [the_list]. destruct (json_dumps (kv :: items)); [reflexivity|].
  apply (add_options_eq cmd (Some (kv :: items))).
Qed.

Lemma add_attachments_eq (cmd : list string) (paths : option (list string)) :
  (if truthy_list paths then add_attachments cmd (the_list paths) else cmd)
  = cmd ++ attachment_flags paths.
Proof.
  unfold add_attachments, attachment_flags.
  destruct paths as [[|p ps]|]; simpl truthy_list; cbv iota;
    rewrite ?(fold_left_extend (fun path => ["-a"; path])); simpl; now rewrite ?app_nil_r.
Qed.

Lemma add_attachment_types_ok (pairs : list (list string)) (cmd : list string) :
  Forall (fun pair => List.length pair = 2%nat) pairs ->
  add_attachment_types cmd pairs = Ok (cmd ++ flat_map (fun pair => "--at" :: pair) pairs).
Proof.
  intros Hpairs. revert cmd.
  induction Hpairs as [|pair pairs Hlen _ IH]; intros cmd; simpl.
  - now rewrite app_nil_r.
  - destruct pair as [|path [|mimetype [|x rest]]]; try discriminate.
    rewrite IH. simpl. now rewrite <- app_assoc.
Qed.

Lemma add_attachment_types_eq (cmd : list string) (pairs : option (list (list string))) :
  Forall (fun pair => List.length pair = 2%nat) (the_list pairs) ->
  (if truthy_list pairs then add_attachment_types cmd (the_list pairs) else Ok cmd)
  = Ok (cmd ++ attachment_type_flags pairs).
Proof.
  intros Hpairs. unfold attachment_type_flags.
  destruct pairs as [[|p ps]|]; simpl truthy_list; cbv iota;
    try (simpl; now rewrite app_nil_r).
  now apply add_attachment_types_ok.
Qed.

Lemma add_extra_args_eq (cmd : list string) (extra : option string) :
  add_extra_args cmd extra = cmd ++ extra_flags extra.
Proof.
  unfold add_extra_args, extra_flags.
  destruct extra as [[|c s]|]; simpl truthy_str; cbv iota; rewrite ?app_nil_r;
    try reflexivity.
  simpl the_str. destruct (shlex_split (String c s)); now rewrite ?app_nil_r.
Qed.

(** The vector of [execute_prompt], segment by segment. *)
Lemma execute_prompt_cmd_closed (request : PromptRequest.t) :
  Forall (fun pair => List.length pair = 2%nat)
         (the_list (PromptRequest.attachment_types request)) ->
  execute_prompt_cmd request =
  Ok (["llm"; "prompt"]
      ++ flag "-m" (PromptRequest.model request)
      ++ flag "-s" (PromptRequest.system request)
      ++ flag "-t" (PromptRequest.template request)
      ++ tool_flags (PromptRequest.tools request)
      ++ option_flags (the_list (PromptRequest.options request))
      ++ reasoning_flags (PromptRequest.reasoning request)
      ++ attachment_flags (PromptRequest.attachments request)
      ++ attachment_type_flags (PromptRequest.attachment_types request)
      ++ extra_flags (PromptRequest.extra_args request)
      ++ [PromptRequest.prompt request]).
Proof.
  intros Hpairs. unfold execute_prompt_cmd.
  rewrite !flag_eq, add_tools_eq, add_options_eq, add_reasoning_eq, add_attachments_eq.
  rewrite add_attachment_types_eq by assumption.
  cbn [bind]. rewrite add_extra_args_eq.
  now rewrite <- !app_assoc.
Qed.

(** The vector of [chat_message], segment by segment. *)
Lemma chat_message_cmd_closed (message : ChatMessage.t) :
  chat_message_cmd message =
  ["llm"; "chat"]
  ++ flag "-m" (ChatMessage.model message)
  ++ flag "--cid" (ChatMessage.conversation_id message)
  ++ flag "-s" (ChatMessage.system message)
  ++ tool_flags (ChatMessage.tools message)
  ++ option_flags (the_list (ChatMessage.options message))
  ++ reasoning_flags (ChatMessage.reasoning message)
  ++ extra_flags (ChatMessage.extra_args message).
Proof.
  unfold chat_message_cmd.
  rewrite !flag_eq, add_tools_eq, add_options_eq, add_reasoning_eq, add_extra_args_eq.
  now rewrite <- !app_assoc.
Qed.

End BuilderFacts.

(* ================================================================== *)
(** * Command builder: when [str] raises *)
(* ================================================================== *)

Section StrictFacts.
Context `{PyRuntime}.

Lemma str_cases (v : pyval) : prints v \/ exists e, Strict.str v = Raise e.
Proof.
  unfold prints, Strict.str.
  destruct v; auto; destruct (str_raises _); eauto.
Qed.

Lemma values_print_cases (items : pydict) :
  values_print items \/ exists e, first_unprintable items e.
Proof.
  induction items as [|[key value] items IH]; [left; constructor|].
  destruct (str_cases value) as [Hvalue|[e Hvalue]].
  - destruct IH as [Hitems|(e & good & k & v & rest & -> & Hgood & Hv)].
    + left. now constructor.
    + right. exists e, ((key, value) :: good), k, v, rest.
      split; [reflexivity|split; [now constructor|exact Hv]].
  - right. exists e, [], key, value, items. split; [reflexivity|split; [constructor|exact Hvalue]].
Qed.

Lemma first_unprintable_not_nil (e : exc) : ~ first_unprintable [] e.
Proof. intros (good & key & value & rest & Heq & _). now destruct good. Qed.

Lemma values_print_not_raise (items : pydict) (e : exc) :
  values_print items -> ~ first_unprintable items e.
Proof.
  intros Hitems (good & key & value & rest & -> & _ & Hvalue).
  apply Forall_app in Hitems. destruct Hitems as [_ Hitems].
  inversion Hitems as [|? ? Hhead _]; subst.
  unfold prints in Hhead. cbn [snd] in Hhead. congruence.
Qed.

Lemma extend_options_prints (items : pydict) (cmd : list string) :
  values_print items ->
  Strict.extend_options cmd items = Ok (cmd ++ option_flags items).
Proof.
  intros Hitems. revert cmd.
  induction Hitems as [|[key value] items Hvalue _ IH]; intros cmd.
  - cbn. now rewrite app_nil_r.
  - unfold prints in Hvalue. cbn [snd] in Hvalue.
    cbn [Strict.extend_options Strict.str py_str bind]. rewrite Hvalue. cbn [bind].
    rewrite IH. unfold option_flags. cbn [flat_map fst snd]. now rewrite <- app_assoc.
Qed.

Lemma extend_options_raise (items : pydict) (cmd : list string) (e : exc) :
  first_unprintable items e -> Strict.extend_options cmd items = Raise e.
Proof.
  intros (good & key & value & rest & -> & Hgood & Hvalue). revert cmd.
  induction Hgood as [|[k v] good Hv _ IH]; intros cmd.
  - cbn [app Strict.extend_options Strict.str py_str bind]. now rewrite Hvalue.
  - unfold prints in Hv. cbn [snd] in Hv.
    cbn [app Strict.extend_options Strict.str py_str bind]. rewrite Hv. cbn [bind].
    apply IH.
Qed.

Lemma strict_add_options_prints (cmd : list string) (options : option pydict) :
  values_print (the_list options) ->
  Strict.add_options cmd options = Ok (add_options cmd options).
Proof.
  intros Hitems. rewrite add_options_eq.
  destruct options as [[|kv items]|]; cbn [Strict.add_options the_list];
    try (cbn; now rewrite app_nil_r).
  now apply extend_options_prints.
Qed.

Lemma strict_add_options_raise (cmd : list string) (options : option pydict) (e : exc) :
  first_unprintable (the_list options) e ->
  Strict.add_options cmd options = Raise e.
Proof.
  intros Hraise.
  destruct options as [[|kv items]|]; cbn [Strict.add_options the_list] in *;
    try (now apply first_unprintable_not_nil in Hraise).
  now apply extend_options_raise.
Qed.

(** The reasoning block when [str] returns wherever it is called: on the
    values of the mapping when [json.dumps] raises. *)
Lemma strict_add_reasoning_prints (cmd : list string) (reasoning : option pydict) :
  (forall e, json_dumps (the_list reasoning) = Raise e ->
             values_print (the_list reasoning)) ->
  Strict.add_reasoning cmd reasoning = Ok (add_reasoning cmd reasoning).
Proof.
  intros Hfallback. unfold Strict.add_reasoning, add_reasoning.
  destruct (truthy_list reasoning); [|reflexivity].
  destruct (json_dumps (the_list reasoning)) as [text|e]; [reflexivity|].
  apply strict_add_options_prints. now apply (Hfallback e).
Qed.

Lemma strict_add_reasoning_raise (cmd : list string) (reasoning : option pydict)
      (e e' : exc) :
  json_dumps (the_list reasoning) = Raise e ->
  first_unprintable (the_list reasoning) e' ->
  Strict.add_reasoning cmd reasoning = Raise e'.
Proof.
  intros Hdumps Hraise. unfold Strict.add_reasoning. rewrite Hdumps.
  destruct reasoning as [[|kv items]|]; cbn [truthy_list the_list] in *;
    try (now apply first_unprintable_not_nil in Hraise).
  now apply (strict_add_options_raise cmd (Some (kv :: items))).
Qed.

(** On a request whose values [str] prints, the builders are those of the
    section on the command builder. *)
Lemma strict_prompt_cmd_prints (request : PromptRequest.t) :
  values_print (the_list (PromptRequest.options request)) ->
  (forall e, json_dumps (the_list (PromptRequest.reasoning request)) = Raise e ->
             values_print (the_list (PromptRequest.reasoning request))) ->
  Strict.execute_prompt_cmd request = execute_prompt_cmd request.
Proof.
  intros Hoptions Hreasoning. unfold Strict.execute_prompt_cmd, execute_prompt_cmd.
  cbv zeta. rewrite (strict_add_options_prints _ _ Hoptions). cbn [bind].
  rewrite (strict_add_reasoning_prints _ _ Hreasoning). reflexivity.
Qed.

Lemma strict_chat_cmd_prints (message : ChatMessage.t) :
  values_print (the_list (ChatMessage.options message)) ->
  (forall e, json_dumps (the_list (ChatMessage.reasoning message)) = Raise e ->
             values_print (the_list (ChatMessage.reasoning message))) ->
  Strict.chat_message_cmd message = Ok (chat_message_cmd message).
Proof.
  intros Hoptions Hreasoning. unfold Strict.chat_message_cmd, chat_message_cmd.
  cbv zeta. rewrite (strict_add_options_prints _ _ Hoptions). cbn [bind].
  rewrite (strict_add_reasoning_prints _ _ Hreasoning). reflexivity.
Qed.

(** The exception of [str] on a value of the options ends both builders. *)
Lemma strict_cmd_options_raise (e : exc) :
  (forall request,
      first_unprintable (the_list (PromptRequest.options request)) e ->
      Strict.execute_prompt_cmd request = Raise e)
  /\ (forall message,
         first_unprintable (the_list (ChatMessage.options message)) e ->
         Strict.chat_message_cmd message = Raise e).
Proof.
  split.
  - intros request Hraise. unfold Strict.execute_prompt_cmd. cbv zeta.
    now rewrite (strict_add_options_raise _ _ Hraise).
  - intros message Hraise. unfold Strict.chat_message_cmd. cbv zeta.
    now rewrite (strict_add_options_raise _ _ Hraise).
Qed.

(** So does its exception on a value of the reasoning mapping when
    [json.dumps] has raised. *)
Lemma strict_cmd_reasoning_raise (e e' : exc) :
  (forall request,
      values_print (the_list (PromptRequest.options request)) ->
      json_dumps (the_list (PromptRequest.reasoning request)) = Raise e ->
      first_unprintable (the_list (PromptRequest.reasoning request)) e' ->
      Strict.execute_prompt_cmd request = Raise e')
  /\ (forall message,
         values_print (the_list (ChatMessage.options message)) ->
         json_dumps (the_list (ChatMessage.reasoning message)) = Raise e ->
         first_unprintable (the_list (ChatMessage.reasoning message)) e' ->
         Strict.chat_message_cmd message = Raise e').
Proof.
  split.
  - intros request Hoptions Hdumps Hraise. unfold Strict.execute_prompt_cmd. cbv zeta.
    rewrite (strict_add_options_prints _ _ Hoptions). cbn [bind].
    now rewrite (strict_add_reasoning_raise _ _ Hdumps Hraise).
  - intros message Hoptions Hdumps Hraise. unfold Strict.chat_message_cmd. cbv zeta.
    rewrite (strict_add_options_prints _ _ Hoptions). cbn [bind].
    now rewrite (strict_add_reasoning_raise _ _ Hdumps Hraise).
Qed.

End StrictFacts.

(* ================================================================== *)
(** * Command builder: properties *)
(* ================================================================== *)

Section BuilderClaims.
Context `{PyRuntime}.






(** C8, amended.  A reasoning mapping that is not empty contributes one
    triple [-o reasoning <json>] after the options; when [json.dumps]
    raises, it contributes its items as [-o key str(value)] triples
    instead, and the vector is built, provided [str] returns on each of its
    values; when [str] raises on one of them, its exception ends the
    request: the handler lets it through and runs no command. *)
Theorem reasoning_json_or_fallback (items : pydict) :
  items <> [] ->
  (forall request : PromptRequest.t,
      PromptRequest.reasoning request = Some items ->
      Forall (fun pair => List.length pair = 2%nat)
             (the_list (PromptRequest.attachment_types request)) ->
      values_print (the_list (PromptRequest.options request)) ->
      forall before after,
        before = ["llm"; "prompt"]
                 ++ flag "-m" (PromptRequest.model request)
                 ++ flag "-s" (PromptRequest.system request)
                 ++ flag "-t" (PromptRequest.template request)
                 ++ tool_flags (PromptRequest.tools request)
                 ++ option_flags (the_list (PromptRequest.options request)) ->
        after = attachment_flags (PromptRequest.attachments request)
                ++ attachment_type_flags (PromptRequest.attachment_types request)
                ++ extra_flags (PromptRequest.extra_args request)
                ++ [PromptRequest.prompt request] ->
        (forall text, json_dumps items = Ok text ->
           Strict.execute_prompt_cmd request
           = Ok (before ++ ["-o"; "reasoning"; text] ++ after))
        /\ (forall e, json_dumps items = Raise e -> values_print items ->
              Strict.execute_prompt_cmd request
              = Ok (before ++ flat_map (fun kv => ["-o"; fst kv; py_str (snd kv)]) items
                           ++ after))
        /\ (forall e e', json_dumps items = Raise e -> first_unprintable items e' ->
              Strict.execute_prompt_cmd request = Raise e'
              /\ forall os, Strict.execute_prompt os request = Uncaught e'))
  /\ (forall message : ChatMessage.t,
         ChatMessage.reasoning message = Some items ->
         values_print (the_list (ChatMessage.options message)) ->
         forall before after,
           before = ["llm"; "chat"]
                    ++ flag "-m" (ChatMessage.model message)
                    ++ flag "--cid" (ChatMessage.conversation_id message)
                    ++ flag "-s" (ChatMessage.system message)
                    ++ tool_flags (ChatMessage.tools message)
                    ++ option_flags (the_list (ChatMessage.options message)) ->
           after = extra_flags (ChatMessage.extra_args message) ->
           (forall text, json_dumps items = Ok text ->
              Strict.chat_message_cmd message
              = Ok (before ++ ["-o"; "reasoning"; text] ++ after))
           /\ (forall e, json_dumps items = Raise e -> values_print items ->
                 Strict.chat_message_cmd message
                 = Ok (before ++ flat_map (fun kv => ["-o"; fst kv; py_str (snd kv)]) items
                              ++ after))
           /\ (forall e e', json_dumps items = Raise e -> first_unprintable items e' ->
                 Strict.chat_message_cmd message = Raise e'
                 /\ forall os, Strict.chat_message os message = Uncaught e')).
Proof.
  intros Hitems. destruct items as [|kv items]; [easy|]. split.
  - intros request Hreasoning Hpairs Hoptions before after -> ->.
    split; [|split].
    + intros text Hdumps.
      rewrite strict_prompt_cmd_prints, (execute_prompt_cmd_closed request Hpairs);
        try assumption; rewrite Hreasoning; cbn [the_list].
      * unfold reasoning_flags. rewrite Hdumps. now rewrite <- !app_assoc.
      * intros e He. congruence.
    + intros e Hdumps Hprint.
      rewrite strict_prompt_cmd_prints, (execute_prompt_cmd_closed request Hpairs);
        try assumption; rewrite Hreasoning; cbn [the_list].
      * unfold reasoning_flags. rewrite Hdumps. now rewrite <- !app_assoc.
      * intros _ _. exact Hprint.
    + intros e e' Hdumps Hraise.
      assert (Hcmd : Strict.execute_prompt_cmd request = Raise e').
      { apply (proj1 (strict_cmd_reasoning_raise e e')); try assumption;
          now rewrite Hreasoning. }
      split; [exact Hcmd|]. intros os. unfold Strict.execute_prompt. now rewrite Hcmd.
  - intros message Hreasoning Hoptions before after -> ->.
    split; [|split].
    + intros text Hdumps.
      rewrite strict_chat_cmd_prints, chat_message_cmd_closed;
        try assumption; rewrite Hreasoning; cbn [the_list].
      * unfold reasoning_flags. rewrite Hdumps. now rewrite <- !app_assoc.
      * intros e He. congruence.
    + intros e Hdumps Hprint.
      rewrite strict_chat_cmd_prints, chat_message_cmd_closed;
        try assumption; rewrite Hreasoning; cbn [the_list].
      * unfold reasoning_flags. rewrite Hdumps. now rewrite <- !app_assoc.
      * intros _ _. exact Hprint.
    + intros e e' Hdumps Hraise.
      assert (Hcmd : Strict.chat_message_cmd message = Raise e').
      { apply (proj2 (strict_cmd_reasoning_raise e e')); try assumption;
          now rewrite Hreasoning. }
      split; [exact Hcmd|]. intros os. unfold Strict.chat_message. now rewrite Hcmd.
Qed.

End BuilderClaims.

(* ================================================================== *)
(** * Streamer: runs of the generators *)
(* ================================================================== *)

Section StreamFacts.
Variable os : OS.

Lemma lines_from_concat (out line : list byte) :
  List.concat (lines_from out line) = rev line ++ out.
Proof.
  revert line. induction out as [|b out IH]; intros line; simpl.
  - destruct line; simpl; now rewrite ?app_nil_r.
  - destruct (Byte.eqb b x0a); simpl; rewrite IH; simpl; now rewrite <- ?app_assoc.
Qed.

(** [readline] cuts the output into lines that make it up, none empty. *)
Lemma lines_of_concat (out : list byte) : List.concat (lines_of out) = out.
Proof. apply lines_from_concat. Qed.

Lemma rev_cons_nonempty {A} (x : A) (l : list A) : rev (x :: l) <> [].
Proof. simpl. intros Hrev. apply app_eq_nil in Hrev. now destruct Hrev. Qed.

Lemma lines_from_nonempty (out line : list byte) :
  Forall (fun l => l <> []) (lines_from out line).
Proof.
  revert line. induction out as [|b out IH]; intros line.
  - destruct line as [|x line]; repeat constructor. apply rev_cons_nonempty.
  - cbn [lines_from]. destruct (Byte.eqb b x0a); [constructor|]; try apply IH.
    apply rev_cons_nonempty.
Qed.

Lemma chunks_of_app (es1 es2 : list event) :
  chunks_of (es1 ++ es2) = chunks_of es1 ++ chunks_of es2.
Proof. apply flat_map_app. Qed.

Lemma chunks_of_yields (texts : list string) : chunks_of (map Yield texts) = texts.
Proof. induction texts as [|t texts IH]; simpl; [reflexivity|]. now rewrite IH. Qed.

Lemma chunks_of_spawn (cmd : list string) (es : list event) :
  chunks_of (Spawn cmd :: es) = chunks_of es.
Proof. reflexivity. Qed.


Lemma stdin_of_yields (texts : list string) : stdin_of (map Yield texts) = [].
Proof. induction texts as [|t texts IH]; simpl; [reflexivity|]. exact IH. Qed.

(** The loop yields the decoded lines one by one, then goes on with the
    rest of the stream. *)
Lemma read_lines_decoded (lines : list (list byte)) (texts : list string)
      (rest : list (result (list byte))) :
  Forall2 decodes lines texts ->
  read_lines (map Ok lines ++ rest)
  = (map Yield texts ++ fst (read_lines rest), snd (read_lines rest)).
Proof.
  induction 1 as [|line text lines texts [Hline Hdecode] _ IH]; simpl.
  - now destruct (read_lines rest).
  - destruct line as [|b line]; [easy|].
    rewrite Hdecode, IH. reflexivity.
Qed.

(** The loop only yields, and what it yields is the decoding of the first
    lines of the stream. *)
Lemma read_lines_shape (stdout : list (result (list byte))) :
  exists texts, decoded_prefix stdout texts /\ fst (read_lines stdout) = map Yield texts.
Proof.
  induction stdout as [|r stdout (texts & (lines & rest & Hsplit & Hdec) & Hfst)].
  - exists []. split; [|reflexivity]. exists [], []. split; [reflexivity|constructor].
  - destruct r as [line|e].
    + destruct line as [|b line].
      * exists []. split; [|reflexivity].
        exists [], (Ok [] :: stdout). split; [reflexivity|constructor].
      * simpl. destruct (bytes_decode (b :: line)) as [text|e] eqn:Hdecode.
        -- exists (text :: texts). split.
           ++ exists ((b :: line) :: lines), rest. split.
              ** simpl. now rewrite Hsplit.
              ** constructor; [|assumption]. split; [discriminate|assumption].
           ++ unfold gbind, lift, emit. simpl.
              destruct (read_lines stdout) as [es r]. simpl in *. now rewrite Hfst.
        -- exists []. split; [|reflexivity].
           exists [], (Ok (b :: line) :: stdout). split; [reflexivity|constructor].
    + exists []. split; [|reflexivity].
      exists [], (Raise e :: stdout). split; [reflexivity|constructor].
Qed.

(** What follows the loop when it ended without an exception. *)
Lemma report_exit_run (p : Process) :
  report_exit p =
  if returncode p =? 0 then ([], Ok tt)
  else match stderr_read p with
       | Raise e => ([], Raise e)
       | Ok err =>
           match bytes_decode err with
           | Raise e => ([], Raise e)
           | Ok text => ([Yield (error_text text)], Ok tt)
           end
       end.
Proof.
  unfold report_exit. destruct (returncode p =? 0); simpl; [reflexivity|].
  destruct (stderr_read p) as [err|e]; simpl; [|reflexivity].
  destruct (bytes_decode err); reflexivity.
Qed.

(** A run of [stream_llm_response] when the child could not be started. *)
Lemma stream_spawn_failure (cmd : list string) (e : exc) :
  os_exec os cmd = Raise e ->
  stream_llm_response os cmd = ([Spawn cmd; Yield (error_text (exc_str e))], Ok tt).
Proof.
  intros Hexec. unfold stream_llm_response, create_subprocess_exec, try_except, gbind,
    emit, lift, error_chunk. now rewrite Hexec.
Qed.

(** A run of [stream_llm_response] on a started child: the chunks of the
    loop, then at most one more chunk, and no exception. *)
Lemma stream_run (cmd : list string) (p : Process) :
  os_exec os cmd = Ok p ->
  exists tail,
    stream_llm_response os cmd
    = (Spawn cmd :: fst (read_lines (stdout_readline p)) ++ tail, Ok tt)
    /\ match snd (read_lines (stdout_readline p)) with
       | Raise e => tail = [Yield (error_text (exc_str e))]
       | Ok _ =>
           match fst (report_exit p), snd (report_exit p) with
           | es, Ok _ => tail = es
           | es, Raise e => tail = es ++ [Yield (error_text (exc_str e))]
           end
       end.
Proof.
  intros Hexec. unfold stream_llm_response, create_subprocess_exec, try_except, gbind,
    emit, lift, error_chunk. rewrite Hexec.
  destruct (read_lines (stdout_readline p)) as [es [[]|e]]; simpl.
  - destruct (report_exit p) as [es' [[]|e]]; simpl.
    + exists es'. split; [|reflexivity]. reflexivity.
    + exists (es' ++ [Yield (error_text (exc_str e))]). split; [|reflexivity].
      now rewrite app_assoc.
  - exists [Yield (error_text (exc_str e))]. split; reflexivity.
Qed.

(** A run of [stream_llm_chat_response] when the child could not be
    started. *)
Lemma chat_spawn_failure (cmd : list string) (message : string) (e : exc) :
  os_exec os cmd = Raise e ->
  stream_llm_chat_response os cmd message
  = ([Spawn cmd; Yield (error_text (exc_str e))], Ok tt).
Proof.
  intros Hexec. unfold stream_llm_chat_response, create_subprocess_exec, try_except,
    gbind, emit, lift, error_chunk. now rewrite Hexec.
Qed.

(** A run of [stream_llm_chat_response] when [drain] raises. *)
Lemma chat_drain_failure (cmd : list string) (message : string) (p : Process) (e : exc) :
  os_exec os cmd = Ok p ->
  stdin_drain p = Raise e ->
  stream_llm_chat_response os cmd message
  = ([Spawn cmd; StdinWrite (str_encode (message ++ nl)); Yield (error_text (exc_str e))],
     Ok tt).
Proof.
  intros Hexec Hdrain. unfold stream_llm_chat_response, create_subprocess_exec,
    try_except, gbind, emit, lift, error_chunk. now rewrite Hexec, Hdrain.
Qed.

(** A run of [stream_llm_chat_response] once the message is sent: that of
    [stream_llm_response] after the two operations on the input stream. *)
Lemma chat_run (cmd : list string) (message : string) (p : Process) :
  os_exec os cmd = Ok p ->
  stdin_drain p = Ok tt ->
  exists es,
    stream_llm_response os cmd = (Spawn cmd :: es, Ok tt)
    /\ stream_llm_chat_response os cmd message
       = (Spawn cmd :: StdinWrite (str_encode (message ++ nl)) :: StdinClose :: es, Ok tt).
Proof.
  intros Hexec Hdrain.
  unfold stream_llm_chat_response, stream_llm_response, create_subprocess_exec,
    try_except, gbind, emit, lift, error_chunk. rewrite Hexec, Hdrain.
  destruct (read_lines (stdout_readline p)) as [es [[]|e]]; simpl.
  - destruct (report_exit p) as [es' [[]|e]]; simpl; eexists; split; reflexivity.
  - eexists; split; reflexivity.
Qed.

End StreamFacts.

(* ================================================================== *)
(** * Streamer: properties *)
(* ================================================================== *)



Lemma readline_calls_within (whole : bool) (lines : list (list byte)) :
  Forall (fun line => within_limit line = true) lines ->
  readline_calls whole lines = map Ok lines.
Proof.
  induction 1 as [|line lines Hline _ IH]; [reflexivity|].
  cbn [readline_calls map]. now rewrite Hline, IH.
Qed.

Lemma readline_calls_overrun (whole : bool) (good rest : list (list byte))
      (long : list byte) :
  Forall (fun line => within_limit line = true) good ->
  within_limit long = false ->
  readline_calls whole (good ++ long :: rest) = map Ok good ++ [Raise (overrun whole long)].
Proof.
  intros Hgood Hlong. induction Hgood as [|line good Hline _ IH].
  - cbn [readline_calls app map]. now rewrite Hlong.
  - cbn [readline_calls app map]. now rewrite Hline, IH.
Qed.

(** The chunks of a run on a child whose lines [readline] returns one by
    one, all of them valid UTF-8. *)
Lemma stream_lines_run (os : OS) (cmd : list string) (p : Process)
      (lines : list (list byte)) (texts : list string) :
  os_exec os cmd = Ok p ->
  stdout_readline p = map Ok lines ->
  Forall2 decodes lines texts ->
  (returncode p = 0 -> chunks (stream_llm_response os cmd) = texts)
  /\ (forall err text,
         returncode p <> 0 -> stderr_read p = Ok err -> bytes_decode err = Ok text ->
         chunks (stream_llm_response os cmd) = texts ++ [(nl ++ "Error: " ++ text)%string])
  /\ (forall message,
         stdin_drain p = Ok tt ->
         chunks (stream_llm_chat_response os cmd message)
         = chunks (stream_llm_response os cmd)).
Proof.
  intros Hexec Hout Hdec.
  destruct (stream_run os cmd Hexec) as (tail & Hrun & Htail).
  rewrite <- (app_nil_r (map Ok lines)) in Hout.
  rewrite Hout, (read_lines_decoded [] Hdec) in *. cbn [fst snd read_lines gret] in *.
  rewrite report_exit_run in Htail.
  split; [|split].
  - intros Hcode. unfold chunks. rewrite Hrun. cbn [fst].
    rewrite Hcode in Htail. cbn in Htail. subst tail.
    rewrite !app_nil_r, chunks_of_spawn. apply chunks_of_yields.
  - intros err text Hcode Herr Htext. unfold chunks. rewrite Hrun. cbn [fst].
    rewrite Herr, Htext in Htail.
    apply Z.eqb_neq in Hcode. rewrite Hcode in Htail. cbn in Htail. subst tail.
    rewrite !app_nil_r, chunks_of_spawn, chunks_of_app, chunks_of_yields.
    reflexivity.
  - intros message Hdrain.
    destruct (chat_run os cmd message Hexec Hdrain) as (es & Hes & Hchat).
    unfold chunks. now rewrite Hchat, Hes.
Qed.

(** C3, amended.  When the child writes N lines, each of them valid UTF-8
    and within the limit of the reader (65536 bytes before the newline),
    and ends with code 0, the generator yields exactly N chunks, the
    decoded lines in their order, and no error chunk. *)
Theorem stream_yields_every_line (os : OS) (cmd : list string) (p : Process)
        (out : list byte) (whole : bool) (texts : list string) :
  os_exec os cmd = Ok p ->
  stdout_readline p = readline_calls whole (lines_of out) ->
  Forall (fun line => within_limit line = true) (lines_of out) ->
  Forall2 decodes (lines_of out) texts ->
  returncode p = 0 ->
  chunks (stream_llm_response os cmd) = texts
  /\ List.length (chunks (stream_llm_response os cmd)) = List.length (lines_of out)
  /\ (forall message, stdin_drain p = Ok tt ->
        chunks (stream_llm_chat_response os cmd message) = texts).
Proof.
  intros Hexec Hout Hlimit Hdec Hcode.
  rewrite (readline_calls_within whole Hlimit) in Hout.
  destruct (stream_lines_run os cmd Hexec Hout Hdec) as (Hrun & _ & Hchat).
  specialize (Hrun Hcode).
  split; [exact Hrun|split].
  - rewrite Hrun. symmetry. eapply Forall2_length; eassumption.
  - intros message Hdrain. now rewrite (Hchat message Hdrain).
Qed.

(** C4, amended.  When the child ends with a code other than 0: with
    streaming, its lines being valid UTF-8 and within the limit of the
    reader and its error output valid UTF-8, the last chunk of the stream
    is a newline, "Error: " and the error output, after the chunks of the
    lines; without streaming, its two outputs being valid UTF-8, the
    handler raises a 500 whose detail is "LLM command failed: " and the
    error output as text; an output that does not decode makes
    [subprocess.run] raise, and the handler lets that exception through. *)
Theorem nonzero_exit_reports_stderr `{PyRuntime} (os : OS) :
  (forall cmd p out whole texts err text,
      os_exec os cmd = Ok p ->
      stdout_readline p = readline_calls whole (lines_of out) ->
      Forall (fun line => within_limit line = true) (lines_of out) ->
      Forall2 decodes (lines_of out) texts ->
      returncode p <> 0 ->
      stderr_read p = Ok err ->
      bytes_decode err = Ok text ->
      chunks (stream_llm_response os cmd) = texts ++ [(nl ++ "Error: " ++ text)%string]
      /\ (forall message, stdin_drain p = Ok tt ->
            chunks (stream_llm_chat_response os cmd message)
            = texts ++ [(nl ++ "Error: " ++ text)%string]))
  /\ (forall request cmd child,
         Strict.execute_prompt_cmd request = Ok cmd ->
         PromptRequest.stream request = false ->
         os_run os cmd = communicate child ->
         exit_code child <> 0 ->
         (forall stdout stderr,
             translate_newlines (stdout_bytes child) = Ok stdout ->
             translate_newlines (stderr_bytes child) = Ok stderr ->
             Strict.execute_prompt os request
             = HTTPException 500 ("LLM command failed: " ++ stderr)%string)
         /\ (forall e,
                communicate child = Raise e ->
                Strict.execute_prompt os request = Uncaught e)).
Proof.
  split.
  - intros cmd p out whole texts err text Hexec Hout Hlimit Hdec Hcode Herr Htext.
    rewrite (readline_calls_within whole Hlimit) in Hout.
    destruct (stream_lines_run os cmd Hexec Hout Hdec) as (_ & Hrun & Hchat).
    specialize (Hrun err text Hcode Herr Htext).
    split; [exact Hrun|].
    intros message Hdrain. now rewrite (Hchat message Hdrain).
  - intros request cmd child Hcmd Hstream Hrun Hcode.
    unfold Strict.execute_prompt, subprocess_run. rewrite Hcmd, Hstream, Hrun.
    split.
    + intros stdout stderr Hstdout Hstderr. unfold communicate.
      rewrite Hstdout, Hstderr. cbn [bind run_returncode run_stderr].
      apply Z.eqb_neq in Hcode. now rewrite Hcode.
    + intros e He. now rewrite He.
Qed.

Lemma read_lines_raise (e : exc) (rest : list (result (list byte))) :
  read_lines (Raise e :: rest) = ([], Raise e).
Proof. reflexivity. Qed.

Lemma read_lines_undecodable (line : list byte) (e : exc)
      (rest : list (result (list byte))) :
  line <> [] -> bytes_decode line = Raise e ->
  read_lines (Ok line :: rest) = ([], Raise e).
Proof.
  intros Hline Hdecode. destruct line as [|b line]; [easy|].
  simpl. now rewrite Hdecode.
Qed.

(** The chunks of a run whose loop stops on an exception after some
    decoded lines. *)
Lemma stream_interrupted (os : OS) (cmd : list string) (p : Process)
      (lines : list (list byte)) (texts : list string)
      (rest : list (result (list byte))) (e : exc) :
  os_exec os cmd = Ok p ->
  stdout_readline p = map Ok lines ++ rest ->
  Forall2 decodes lines texts ->
  read_lines rest = ([], Raise e) ->
  chunks (stream_llm_response os cmd) = texts ++ [error_text (exc_str e)].
Proof.
  intros Hexec Hout Hdec Hrest.
  destruct (stream_run os cmd Hexec) as (tail & Hrun & Htail).
  unfold chunks. rewrite Hrun. cbn [fst].
  rewrite Hout, (read_lines_decoded rest Hdec), Hrest in *. cbn [fst snd] in *.
  subst tail. rewrite app_nil_r, chunks_of_spawn, chunks_of_app, chunks_of_yields.
  reflexivity.
Qed.

(** A line longer than the limit of the reader ends the stream: the chunks
    are the lines before it and one error chunk with the text of the
    [ValueError], whatever the exit code of the child. *)
Lemma long_line_ends_in_error_chunk (os : OS) (cmd : list string) (p : Process)
      (whole : bool) (good rest : list (list byte)) (long : list byte)
      (texts : list string) :
  os_exec os cmd = Ok p ->
  stdout_readline p = readline_calls whole (good ++ long :: rest) ->
  Forall (fun line => within_limit line = true) good ->
  within_limit long = false ->
  Forall2 decodes good texts ->
  chunks (stream_llm_response os cmd) = texts ++ [error_text (exc_str (overrun whole long))].
Proof.
  intros Hexec Hout Hgood Hlong Hdec.
  rewrite (readline_calls_overrun whole rest long Hgood Hlong) in Hout.
  eapply stream_interrupted; eauto using read_lines_raise.
Qed.

Lemma chat_chunks (os : OS) (cmd : list string) (message : string) (p : Process) :
  os_exec os cmd = Ok p ->
  stdin_drain p = Ok tt ->
  chunks (stream_llm_chat_response os cmd message) = chunks (stream_llm_response os cmd).
Proof.
  intros Hexec Hdrain.
  destruct (chat_run os cmd message Hexec Hdrain) as (es & Hes & Hchat).
  unfold chunks. now rewrite Hchat, Hes.
Qed.

(** The chunks of any run: decoded lines of the child, then nothing or one
    error chunk. *)
Lemma stream_chunks_shape (os : OS) (cmd : list string) :
  exists texts tail,
    chunks (stream_llm_response os cmd) = texts ++ tail
    /\ (tail = [] \/ exists msg, tail = [error_text msg])
    /\ (forall p, os_exec os cmd = Ok p -> decoded_prefix (stdout_readline p) texts).
Proof.
  destruct (os_exec os cmd) as [p|e] eqn:Hexec.
  - destruct (stream_run os cmd Hexec) as (tail & Hrun & Htail).
    destruct (read_lines_shape (stdout_readline p)) as (texts & Hprefix & Hfst).
    exists texts, (chunks_of tail). split; [|split].
    + unfold chunks. rewrite Hrun. cbn [fst].
      now rewrite chunks_of_spawn, chunks_of_app, Hfst, chunks_of_yields.
    + destruct (snd (read_lines (stdout_readline p))) as [[]|e].
      * rewrite report_exit_run in Htail.
        destruct (returncode p =? 0); [|destruct (stderr_read p) as [err|e];
                                         [destruct (bytes_decode err)|]];
          cbn [fst snd app] in Htail; subst tail; cbn; eauto.
      * subst tail. cbn. eauto.
    + intros p' [= <-]. exact Hprefix.
  - exists [], [error_text (exc_str e)]. split; [|split].
    + unfold chunks. now rewrite (stream_spawn_failure os cmd Hexec).
    + eauto.
    + intros p' [=].
Qed.

(** C5.  An exception raised while the child is started, while the message
    is sent, or while the output is read or decoded never leaves the
    generator: the run ends normally, and its chunks are the lines decoded
    so far followed by one error chunk carrying the text of the
    exception. *)
Theorem stream_catches_every_exception (os : OS) (cmd : list string) (message : string) :
  (snd (stream_llm_response os cmd) = Ok tt
   /\ snd (stream_llm_chat_response os cmd message) = Ok tt)
  /\ (forall e, os_exec os cmd = Raise e ->
        chunks (stream_llm_response os cmd) = [error_text (exc_str e)]
        /\ chunks (stream_llm_chat_response os cmd message) = [error_text (exc_str e)])
  /\ (forall p e, os_exec os cmd = Ok p -> stdin_drain p = Raise e ->
        chunks (stream_llm_chat_response os cmd message) = [error_text (exc_str e)])
  /\ (forall p lines texts rest e,
        os_exec os cmd = Ok p ->
        Forall2 decodes lines texts ->
        stdout_readline p = map Ok lines ++ Raise e :: rest ->
        chunks (stream_llm_response os cmd) = texts ++ [error_text (exc_str e)]
        /\ (stdin_drain p = Ok tt ->
            chunks (stream_llm_chat_response os cmd message)
            = texts ++ [error_text (exc_str e)]))
  /\ (forall p lines texts line rest e,
        os_exec os cmd = Ok p ->
        Forall2 decodes lines texts ->
        stdout_readline p = map Ok lines ++ Ok line :: rest ->
        line <> [] -> bytes_decode line = Raise e ->
        chunks (stream_llm_response os cmd) = texts ++ [error_text (exc_str e)]
        /\ (stdin_drain p = Ok tt ->
            chunks (stream_llm_chat_response os cmd message)
            = texts ++ [error_text (exc_str e)]))
  /\ (exists texts tail,
        chunks (stream_llm_response os cmd) = texts ++ tail
        /\ (tail = [] \/ exists msg, tail = [error_text msg])
        /\ (forall p, os_exec os cmd = Ok p -> decoded_prefix (stdout_readline p) texts)).
Proof.
  split; [split|split; [|split; [|split; [|split]]]].
  - destruct (os_exec os cmd) as [p|e] eqn:Hexec.
    + now destruct (stream_run os cmd Hexec) as (tail & -> & _).
    + now rewrite (stream_spawn_failure os cmd Hexec).
  - destruct (os_exec os cmd) as [p|e] eqn:Hexec.
    + destruct (stdin_drain p) as [[]|e] eqn:Hdrain.
      * now destruct (chat_run os cmd message Hexec Hdrain) as (es & _ & ->).
      * now rewrite (chat_drain_failure os cmd message Hexec Hdrain).
    + now rewrite (chat_spawn_failure os cmd message Hexec).
  - intros e Hexec. unfold chunks.
    now rewrite (stream_spawn_failure os cmd Hexec), (chat_spawn_failure os cmd message Hexec).
  - intros p e Hexec Hdrain. unfold chunks.
    now rewrite (chat_drain_failure os cmd message Hexec Hdrain).
  - intros p lines texts rest e Hexec Hdec Hout.
    assert (Hrun : chunks (stream_llm_response os cmd) = texts ++ [error_text (exc_str e)])
      by (eapply stream_interrupted; eauto using read_lines_raise).
    split; [exact Hrun|]. intros Hdrain. now rewrite (chat_chunks os cmd message Hexec Hdrain).
  - intros p lines texts line rest e Hexec Hdec Hout Hline Hdecode.
    assert (Hrun : chunks (stream_llm_response os cmd) = texts ++ [error_text (exc_str e)])
      by (eapply stream_interrupted; eauto using read_lines_undecodable).
    split; [exact Hrun|]. intros Hdrain. now rewrite (chat_chunks os cmd message Hexec Hdrain).
  - apply stream_chunks_shape.
Qed.


(* ================================================================== *)
(** * Conversations: order of strings, sorting, slicing *)
(* ================================================================== *)

Lemma ascii_compare_N (a b : ascii) :
  Ascii.compare a b = N.compare (N_of_ascii a) (N_of_ascii b).
Proof. reflexivity. Qed.

Lemma string_compare_refl (s : string) : String.compare s s = Eq.
Proof.
  induction s as [|c s IH]; simpl; [reflexivity|].
  rewrite ascii_compare_N, N.compare_refl. exact IH.
Qed.

Lemma string_compare_not_gt_trans (a b c : string) :
  String.compare a b <> Gt -> String.compare b c <> Gt -> String.compare a c <> Gt.
Proof.
  revert b c. induction a as [|x a IH]; intros [|y b] [|z c]; simpl; try congruence.
  rewrite !ascii_compare_N.
  destruct (N.compare_spec (N_of_ascii x) (N_of_ascii y)) as [Hxy|Hxy|Hxy];
    destruct (N.compare_spec (N_of_ascii y) (N_of_ascii z)) as [Hyz|Hyz|Hyz];
    intros Hab Hbc; try congruence.
  - rewrite Hxy, Hyz, N.compare_refl. now apply IH with b.
  - rewrite Hxy. apply N.compare_lt_iff in Hyz. now rewrite Hyz.
  - rewrite <- Hyz. apply N.compare_lt_iff in Hxy. now rewrite Hxy.
  - assert (Hxz : (N_of_ascii x < N_of_ascii z)%N) by lia.
    apply N.compare_lt_iff in Hxz. now rewrite Hxz.
Qed.

Lemma leb_not_gt (a b : string) : String.leb a b = true <-> String.compare a b <> Gt.
Proof. unfold String.leb. destruct (String.compare a b); split; congruence. Qed.

Lemma leb_refl (s : string) : String.leb s s = true.
Proof. apply leb_not_gt. now rewrite string_compare_refl. Qed.

Lemma leb_trans (a b c : string) :
  String.leb a b = true -> String.leb b c = true -> String.leb a c = true.
Proof. rewrite !leb_not_gt. apply string_compare_not_gt_trans. Qed.

Lemma ltb_leb (a b : string) : String.ltb a b = true -> String.leb a b = true.
Proof. unfold String.ltb, String.leb. now destruct (String.compare a b). Qed.

Lemma not_ltb_leb (a b : string) : String.ltb a b = false -> String.leb b a = true.
Proof.
  unfold String.ltb, String.leb. rewrite (String.compare_antisym a b).
  now destruct (String.compare b a).
Qed.

Lemma newer_or_same_trans (a b c : Conv.t) :
  newer_or_same a b -> newer_or_same b c -> newer_or_same a c.
Proof. unfold newer_or_same. intros Hab Hbc. now apply leb_trans with (sort_key b). Qed.

Lemma insert_desc_perm (x : Conv.t) (l : list Conv.t) :
  Permutation (insert_desc x l) (x :: l).
Proof.
  induction l as [|y l IH]; simpl; [reflexivity|].
  destruct (String.leb (sort_key y) (sort_key x)); [reflexivity|].
  rewrite IH. apply perm_swap.
Qed.

Lemma sorted_reverse_perm (l : list Conv.t) : Permutation (sorted_reverse l) l.
Proof.
  induction l as [|x l IH]; simpl; [reflexivity|].
  rewrite insert_desc_perm. now constructor.
Qed.

Lemma insert_desc_sorted (x : Conv.t) (l : list Conv.t) :
  StronglySorted newer_or_same l -> StronglySorted newer_or_same (insert_desc x l).
Proof.
  induction 1 as [|y l Hsorted IH Hall]; simpl.
  - repeat constructor.
  - destruct (String.leb (sort_key y) (sort_key x)) eqn:Hle.
    + constructor; [now constructor|].
      constructor; [exact Hle|].
      eapply Forall_impl; [|exact Hall].
      intros z Hyz. now apply newer_or_same_trans with y.
    + constructor; [exact IH|].
      rewrite (Forall_forall (newer_or_same y)). intros z Hz.
      apply (Permutation_in _ (insert_desc_perm x l)) in Hz. destruct Hz as [<-|Hz].
      * unfold newer_or_same.
        destruct (String.leb_total (sort_key y) (sort_key x)); congruence.
      * now apply (proj1 (Forall_forall _ _) Hall).
Qed.

Lemma sorted_reverse_sorted (l : list Conv.t) :
  StronglySorted newer_or_same (sorted_reverse l).
Proof.
  induction l as [|x l IH]; simpl; [constructor|]. now apply insert_desc_sorted.
Qed.

(** The sort is stable: summaries of equal key keep their order. *)
Lemma insert_desc_stable (k : string) (x : Conv.t) (l : list Conv.t) :
  filter (fun c => (sort_key c =? k)%string) (insert_desc x l)
  = filter (fun c => (sort_key c =? k)%string) (x :: l).
Proof.
  induction l as [|y l IH]; [reflexivity|].
  cbn [insert_desc]. destruct (String.leb (sort_key y) (sort_key x)) eqn:Hle;
    [reflexivity|].
  cbn [filter] in *. rewrite IH.
  destruct (String.eqb_spec (sort_key x) k) as [Hx|Hx];
    destruct (String.eqb_spec (sort_key y) k) as [Hy|Hy]; try reflexivity.
  rewrite Hx, Hy, leb_refl in Hle. discriminate.
Qed.

Lemma sorted_reverse_stable (k : string) (l : list Conv.t) :
  filter (fun c => (sort_key c =? k)%string) (sorted_reverse l)
  = filter (fun c => (sort_key c =? k)%string) l.
Proof.
  induction l as [|x l IH]; [reflexivity|].
  cbn [sorted_reverse fold_right]. fold (sorted_reverse l).
  rewrite insert_desc_stable. cbn [filter]. now rewrite IH.
Qed.

Lemma firstn_sorted (n : nat) (l : list Conv.t) :
  StronglySorted newer_or_same l -> StronglySorted newer_or_same (firstn n l).
Proof.
  intros Hsorted. revert n.
  induction Hsorted as [|x l Hsorted IH Hall]; intros [|n]; simpl; try constructor.
  - apply IH.
  - rewrite Forall_forall in *. intros y Hy. apply Hall.
    rewrite <- (firstn_skipn n l). apply in_or_app. now left.
Qed.

Lemma slice_to_firstn {A} (l : list A) (stop : Z) :
  exists n, slice_to l stop = firstn n l /\ (0 <= stop -> n = Z.to_nat stop).
Proof.
  unfold slice_to. destruct (stop <? 0) eqn:Hstop.
  - eexists. split; [reflexivity|]. apply Z.ltb_lt in Hstop. lia.
  - eexists. split; reflexivity.
Qed.

(* ================================================================== *)
(** * Conversations: the loop and its invariant *)
(* ================================================================== *)

Lemma in_conversation_iff (cid : string) (row : pyval) :
  in_conversation cid row = true <-> row_cid row = Some cid.
Proof.
  unfold in_conversation. destruct (row_cid row) as [c|].
  - rewrite String.eqb_eq. split; congruence.
  - split; discriminate.
Qed.

Lemma filter_snoc {A} (f : A -> bool) (l : list A) (x : A) :
  filter f (l ++ [x]) = filter f l ++ (if f x then [x] else []).
Proof. rewrite filter_app. simpl. now destruct (f x). Qed.

Lemma row_str_some (key : string) (d : pydict) (s : string) :
  row_str key (PDict d) = Some s ->
  dict_get d key PNone = PStr s /\ truthy (PStr s) = true.
Proof.
  unfold row_str. destruct (dict_get d key PNone) as [| | | |[|c t]| |]; try discriminate.
  now intros [= <-].
Qed.

Lemma row_str_none (key : string) (d : pydict) :
  str_or_falsy (dict_get d key PNone) = true ->
  row_str key (PDict d) = None ->
  truthy (dict_get d key PNone) = false.
Proof.
  unfold row_str, str_or_falsy.
  destruct (dict_get d key PNone) as [| | | |[|c t]| |]; simpl; try discriminate;
    try reflexivity; rewrite ?orb_false_r; intros H1 H2;
    try (apply negb_true_iff in H1; exact H1).
Qed.

(** A row of another conversation leaves a summary as it is. *)
Lemma summary_ok_other (seen : list pyval) (cid : string) (c : Conv.t) (row : pyval) :
  summary_ok seen cid c ->
  row_cid row <> Some cid ->
  summary_ok (seen ++ [row]) cid c.
Proof.
  intros (Hid & Hcount & Hstr & Hmax & d & Hin & Hd) Hother.
  assert (Hnot : in_conversation cid row = false).
  { destruct (in_conversation cid row) eqn:E; [|reflexivity].
    now apply in_conversation_iff in E. }
  repeat split; try assumption.
  - now rewrite filter_snoc, Hnot, app_nil_r.
  - intros row' t Hrow' Hcid Htime.
    apply in_app_or in Hrow'. destruct Hrow' as [Hrow'|[<-|[]]]; [eauto|congruence].
  - exists d. split; [apply in_or_app; now left|exact Hd].
Qed.

(** The summary after a row of its conversation that does not move
    [latest]. *)
Lemma summary_ok_keep (seen : list pyval) (cid : string) (c : Conv.t) (d : pydict) :
  row_cid (PDict d) = Some cid ->
  Conv.conversation_id c = cid ->
  Conv.count c = Z.of_nat (List.length (filter (in_conversation cid) seen)) ->
  str_or_falsy (Conv.latest c) = true ->
  (forall row t,
      In row (seen ++ [PDict d]) -> row_cid row = Some cid -> row_time row = Some t ->
      exists m, Conv.latest c = PStr m /\ String.leb t m = true) ->
  (exists d',
      In (PDict d') (seen ++ [PDict d]) /\ row_cid (PDict d') = Some cid
      /\ Conv.latest c = dict_get d' "datetime_utc" PNone
      /\ Conv.model c = dict_get d' "model" PNone
      /\ Conv.last_prompt c = dict_get d' "prompt" (PStr "")) ->
  summary_ok (seen ++ [PDict d]) cid
    {| Conv.conversation_id := Conv.conversation_id c;
       Conv.latest := Conv.latest c;
       Conv.model := Conv.model c;
       Conv.count := Conv.count c + 1;
       Conv.last_prompt := Conv.last_prompt c |}.
Proof.
  intros Hcid Hid Hcount Hstr Hmax Hwit.
  apply in_conversation_iff in Hcid.
  refine (conj Hid (conj _ (conj Hstr (conj Hmax Hwit)))).
  cbn. rewrite filter_snoc, Hcid, length_app, Hcount. simpl. lia.
Qed.

(** The summary after a row of its conversation that moves [latest]. *)
Lemma summary_ok_update (seen : list pyval) (cid : string) (c : Conv.t) (d : pydict)
      (t : string) :
  row_cid (PDict d) = Some cid ->
  row_time (PDict d) = Some t ->
  Conv.conversation_id c = cid ->
  Conv.count c = Z.of_nat (List.length (filter (in_conversation cid) seen)) ->
  (forall row t',
      In row seen -> row_cid row = Some cid -> row_time row = Some t' ->
      String.leb t' t = true) ->
  summary_ok (seen ++ [PDict d]) cid
    {| Conv.conversation_id := Conv.conversation_id c;
       Conv.latest := dict_get d "datetime_utc" PNone;
       Conv.model := dict_get d "model" PNone;
       Conv.count := Conv.count c + 1;
       Conv.last_prompt := dict_get d "prompt" (PStr "") |}.
Proof.
  intros Hcid Htime Hid Hcount Hmax.
  destruct (row_str_some _ _ Htime) as [Hdt Htruthy].
  pose proof Hcid as Hin. apply in_conversation_iff in Hin.
  refine (conj Hid (conj _ (conj _ (conj _ _)))); cbn.
  - rewrite filter_snoc, Hin, length_app, Hcount. simpl. lia.
  - rewrite Hdt. apply orb_true_r.
  - intros row t' Hrow Hcid' Htime'. exists t. split; [exact Hdt|].
    apply in_app_or in Hrow. destruct Hrow as [Hrow|[<-|[]]]; [eauto|].
    rewrite Htime in Htime'. injection Htime' as <-. apply leb_refl.
  - exists d. repeat split; try assumption. apply in_or_app. right. now left.
Qed.

(** A row of the conversation updates its summary. *)
Lemma touch_spec (seen : list pyval) (cid : string) (c : Conv.t) (d : pydict) :
  row_ok (PDict d) = true ->
  row_cid (PDict d) = Some cid ->
  Conv.conversation_id c = cid ->
  Conv.count c = Z.of_nat (List.length (filter (in_conversation cid) seen)) ->
  str_or_falsy (Conv.latest c) = true ->
  (forall row t,
      In row seen -> row_cid row = Some cid -> row_time row = Some t ->
      exists m, Conv.latest c = PStr m /\ String.leb t m = true) ->
  (exists d',
      In (PDict d') (seen ++ [PDict d]) /\ row_cid (PDict d') = Some cid
      /\ Conv.latest c = dict_get d' "datetime_utc" PNone
      /\ Conv.model c = dict_get d' "model" PNone
      /\ Conv.last_prompt c = dict_get d' "prompt" (PStr "")) ->
  exists c', touch d c = Some c' /\ summary_ok (seen ++ [PDict d]) cid c'.
Proof.
  intros Hrow Hcid Hid Hcount Hstr Hmax Hwit.
  simpl in Hrow. apply andb_true_iff in Hrow. destruct Hrow as [_ Htime_ok].
  unfold touch. cbn [Conv.latest Conv.count Conv.conversation_id Conv.model Conv.last_prompt].
  destruct (row_time (PDict d)) as [t|] eqn:Htime.
  - (* the row has a timestamp *)
    destruct (row_str_some _ _ Htime) as [Hdt Htruthy]. rewrite Hdt, Htruthy.
    destruct (truthy (Conv.latest c)) eqn:Hlatest; cbn [negb].
    + assert (Hl : exists l, Conv.latest c = PStr l).
      { unfold str_or_falsy in Hstr. rewrite Hlatest in Hstr.
        destruct (Conv.latest c); try discriminate. eauto. }
      destruct Hl as [l Hl]. rewrite Hl.
      unfold str_gt. destruct (String.ltb l t) eqn:Hlt.
      * eexists. split; [reflexivity|]. rewrite <- Hdt.
        apply summary_ok_update with t; try assumption.
        intros row t' Hrow Hcid' Htime'.
        destruct (Hmax _ _ Hrow Hcid' Htime') as (m & Hm & Hle).
        rewrite Hl in Hm. injection Hm as <-.
        apply leb_trans with l; [exact Hle|now apply ltb_leb].
      * eexists. split; [reflexivity|]. rewrite <- Hl.
        apply summary_ok_keep; try assumption.
        intros row t' Hrow Hcid' Htime'.
        apply in_app_or in Hrow. destruct Hrow as [Hrow|[<-|[]]]; [eauto|].
        rewrite Htime in Htime'. injection Htime' as <-.
        exists l. split; [exact Hl|now apply not_ltb_leb].
    + eexists. split; [reflexivity|]. rewrite <- Hdt.
      apply summary_ok_update with t; try assumption.
      intros row t' Hrow Hcid' Htime'.
      destruct (Hmax _ _ Hrow Hcid' Htime') as (m & Hm & Hle).
      rewrite Hm in Hlatest. simpl in Hlatest. apply negb_false_iff in Hlatest.
      apply String.eqb_eq in Hlatest. subst m.
      unfold row_time, row_str in Htime'. destruct row; try discriminate.
      destruct (dict_get entries "datetime_utc" PNone) as [| | | |[|x y]| |];
        try discriminate.
      injection Htime' as <-. discriminate.
  - (* the row has no timestamp *)
    rewrite (row_str_none _ _ Htime_ok Htime).
    eexists. split; [reflexivity|].
    apply summary_ok_keep; try assumption.
    intros row t Hrow Hcid' Htime'.
    apply in_app_or in Hrow. destruct Hrow as [Hrow|[<-|[]]]; [eauto|congruence].
Qed.

(** [setdefault] on an id the dictionary holds: its entry is updated in
    place. *)
Lemma setdefault_touch_hit (l1 l2 : convs_t) (cid : string) (c dflt : Conv.t)
      (d : pydict) :
  ~ In cid (map fst l1) ->
  setdefault_touch (l1 ++ (cid, c) :: l2) cid dflt d
  = match touch d c with
    | Some c' => Some (l1 ++ (cid, c') :: l2)
    | None => None
    end.
Proof.
  induction l1 as [|[k x] l1 IH]; intros Hfresh; simpl.
  - now rewrite String.eqb_refl.
  - destruct (String.eqb_spec k cid) as [->|Hk].
    + exfalso. apply Hfresh. now left.
    + rewrite IH by (intros Hin; apply Hfresh; now right).
      now destruct (touch d c).
Qed.

(** [setdefault] on a new id: the default is added at the end. *)
Lemma setdefault_touch_miss (convs : convs_t) (cid : string) (dflt : Conv.t) (d : pydict) :
  ~ In cid (map fst convs) ->
  setdefault_touch convs cid dflt d
  = match touch d dflt with
    | Some c' => Some (convs ++ [(cid, c')])
    | None => None
    end.
Proof.
  induction convs as [|[k x] convs IH]; intros Hfresh; simpl.
  - reflexivity.
  - destruct (String.eqb_spec k cid) as [->|Hk].
    + exfalso. apply Hfresh. now left.
    + rewrite IH by (intros Hin; apply Hfresh; now right).
      now destruct (touch d dflt).
Qed.

Lemma conv_step_group (convs : convs_t) (d : pydict) (cid : string) :
  row_cid (PDict d) = Some cid ->
  conv_step convs (PDict d)
  = setdefault_touch convs cid
      {| Conv.conversation_id := cid;
         Conv.latest := dict_get d "datetime_utc" PNone;
         Conv.model := dict_get d "model" PNone;
         Conv.count := 0;
         Conv.last_prompt := dict_get d "prompt" (PStr "") |}
      d.
Proof.
  intros Hcid. destruct (row_str_some _ _ Hcid) as [Hget Htruthy].
  unfold conv_step. now rewrite Hget, Htruthy.
Qed.

(** One turn of the loop keeps the invariant. *)
Lemma conv_step_ok (seen : list pyval) (convs : convs_t) (row : pyval) :
  convs_ok seen convs ->
  row_ok row = true ->
  exists convs', conv_step convs row = Some convs' /\ convs_ok (seen ++ [row]) convs'.
Proof.
  intros (Hnodup & Hkeys & Hsum) Hrow.
  destruct row as [| | | | | |d]; try discriminate.
  destruct (row_cid (PDict d)) as [cid|] eqn:Hcid.
  - (* the row belongs to [cid] *)
    rewrite (conv_step_group convs d Hcid).
    assert (Hkeys' : forall k (convs' : convs_t),
               map fst convs' = map fst convs \/ map fst convs' = map fst convs ++ [cid] ->
               (In cid (map fst convs')) ->
               (In k (map fst convs') <->
                exists row, In row (seen ++ [PDict d]) /\ row_cid row = Some k)).
    { intros k convs' Hmap Hcid'. split.
      - intros Hk. destruct (string_dec k cid) as [->|Hne].
        + exists (PDict d). split; [apply in_or_app; right; now left|exact Hcid].
        + assert (Hold : In k (map fst convs)).
          { destruct Hmap as [Hmap|Hmap]; rewrite Hmap in Hk; [exact Hk|].
            apply in_app_or in Hk. destruct Hk as [Hk|[Hk|[]]]; [exact Hk|congruence]. }
          apply Hkeys in Hold. destruct Hold as (row & Hin & Hrow').
          exists row. split; [apply in_or_app; now left|exact Hrow'].
      - intros (row & Hin & Hrow'). apply in_app_or in Hin.
        destruct Hin as [Hin|[<-|[]]].
        + assert (Hold : In k (map fst convs)) by (apply Hkeys; eauto).
          destruct Hmap as [Hmap|Hmap]; rewrite Hmap; [exact Hold|].
          apply in_or_app. now left.
        + rewrite Hcid in Hrow'. injection Hrow' as <-. exact Hcid'. }
    destruct (in_dec string_dec cid (map fst convs)) as [Hin|Hfresh].
    + (* an id seen before *)
      apply in_map_iff in Hin. destruct Hin as ([k c] & Hk & Hin). simpl in Hk. subst k.
      destruct (in_split _ _ Hin) as (l1 & l2 & Hsplit). subst convs.
      rewrite map_app in Hnodup. simpl in Hnodup.
      pose proof (NoDup_remove_2 _ _ _ Hnodup) as Hnot.
      assert (Hnot1 : ~ In cid (map fst l1)) by (intros H; apply Hnot, in_or_app; now left).
      assert (Hnot2 : ~ In cid (map fst l2)) by (intros H; apply Hnot, in_or_app; now right).
      rewrite setdefault_touch_hit by exact Hnot1.
      destruct (Hsum cid c Hin) as (Hid & Hcount & Hstr & Hmax & d' & Hd' & Hwit).
      destruct (@touch_spec seen cid c d) as (c' & -> & Hc'); try assumption.
      { exists d'. split; [apply in_or_app; now left|exact Hwit]. }
      eexists. split; [reflexivity|].
      assert (Hmap : map fst (l1 ++ (cid, c') :: l2) = map fst (l1 ++ (cid, c) :: l2))
        by now rewrite !map_app.
      split; [|split].
      * rewrite Hmap, map_app. exact Hnodup.
      * intros k. apply (Hkeys' k); [now left|].
        rewrite map_app. apply in_or_app. right. now left.
      * intros k x Hx. apply in_app_or in Hx. destruct Hx as [Hx|[[= <- <-]|Hx]].
        -- apply summary_ok_other.
           ++ apply Hsum. apply in_or_app. now left.
           ++ rewrite Hcid. intros [= ->]. apply Hnot1.
              apply in_map_iff. now exists (k, x).
        -- exact Hc'.
        -- apply summary_ok_other.
           ++ apply Hsum. apply in_or_app. right. now right.
           ++ rewrite Hcid. intros [= ->]. apply Hnot2.
              apply in_map_iff. now exists (k, x).
    + (* a new id *)
      rewrite setdefault_touch_miss by exact Hfresh.
      assert (Hnone : filter (in_conversation cid) seen = []).
      { destruct (filter (in_conversation cid) seen) as [|row rows] eqn:Hfilter;
          [reflexivity|].
        assert (Hrow' : In row (filter (in_conversation cid) seen))
          by (rewrite Hfilter; now left).
        apply filter_In in Hrow'. destruct Hrow' as [Hrow' Hcid'].
        apply in_conversation_iff in Hcid'.
        exfalso. apply Hfresh, Hkeys. eauto. }
      destruct (@touch_spec seen cid
                  {| Conv.conversation_id := cid;
                     Conv.latest := dict_get d "datetime_utc" PNone;
                     Conv.model := dict_get d "model" PNone;
                     Conv.count := 0;
                     Conv.last_prompt := dict_get d "prompt" (PStr "") |} d)
        as (c' & -> & Hc'); try assumption; cbn.
      { reflexivity. }
      { now rewrite Hnone. }
      { simpl in Hrow. now apply andb_true_iff in Hrow. }
      { intros row t Hin Hcid' _. exfalso. apply Hfresh, Hkeys. eauto. }
      { exists d. repeat split; try assumption. apply in_or_app. right. now left. }
      eexists. split; [reflexivity|].
      split; [|split].
      * rewrite map_app. simpl. apply NoDup_app; [exact Hnodup| |].
        -- repeat constructor. now intros [].
        -- intros k Hk [<-|[]]. now apply Hfresh.
      * intros k. apply (Hkeys' k); [right; now rewrite map_app|].
        rewrite map_app. apply in_or_app. right. now left.
      * intros k x Hx. apply in_app_or in Hx. destruct Hx as [Hx|[[= <- <-]|[]]].
        -- apply summary_ok_other; [now apply Hsum|].
           rewrite Hcid. intros [= ->]. apply Hfresh.
           apply in_map_iff. now exists (k, x).
        -- exact Hc'.
  - (* the row belongs to no conversation *)
    simpl in Hrow. apply andb_true_iff in Hrow. destruct Hrow as [Hcid_ok _].
    unfold conv_step. rewrite (row_str_none _ _ Hcid_ok Hcid). cbn [negb].
    eexists. split; [reflexivity|]. split; [exact Hnodup|split].
    + intros k. rewrite Hkeys. split; intros (row & Hin & Hrow').
      * exists row. split; [apply in_or_app; now left|exact Hrow'].
      * apply in_app_or in Hin. destruct Hin as [Hin|[<-|[]]]; [eauto|congruence].
    + intros k x Hx. apply summary_ok_other; [now apply Hsum|]. congruence.
Qed.

(** The loop keeps the invariant. *)
Lemma conv_loop_ok (rows seen : list pyval) (convs : convs_t) :
  convs_ok seen convs ->
  Forall (fun row => row_ok row = true) rows ->
  exists convs', conv_loop convs rows = Some convs' /\ convs_ok (seen ++ rows) convs'.
Proof.
  revert seen convs. induction rows as [|row rows IH]; intros seen convs Hok Hrows.
  - exists convs. split; [reflexivity|]. now rewrite app_nil_r.
  - inversion Hrows as [|? ? Hrow Hrows']; subst.
    destruct (conv_step_ok row Hok Hrow) as (convs1 & Hstep & Hok1).
    destruct (IH _ _ Hok1 Hrows') as (convs' & Hloop & Hok').
    exists convs'. split.
    + simpl. now rewrite Hstep.
    + now rewrite <- app_assoc in Hok'.
Qed.

Lemma convs_ok_nil : convs_ok [] [].
Proof.
  split; [constructor|split].
  - intros cid. split; [intros []|intros (row & [] & _)].
  - intros cid c [].
Qed.

(* ================================================================== *)
(** * Handlers: properties *)
(* ================================================================== *)

Lemma newer_or_same_not_older (a b : Conv.t) : newer_or_same a b -> not_older a b.
Proof.
  unfold newer_or_same, not_older, sort_key. intros Hle tb Hb Htb.
  rewrite Hb in Hle. destruct (Conv.latest a) as [| | | |ta| |];
    try (destruct tb; [easy|discriminate Hle]).
  now exists ta.
Qed.

Lemma sorted_not_older (l : list Conv.t) :
  StronglySorted newer_or_same l -> StronglySorted not_older l.
Proof.
  induction 1 as [|a l _ IH Hall]; constructor; [exact IH|].
  eapply Forall_impl; [|exact Hall]. intros b. apply newer_or_same_not_older.
Qed.

Lemma sorted_latest (l : list Conv.t) :
  StronglySorted newer_or_same l ->
  forall i j a b ta tb,
    (i < j)%nat -> nth_error l i = Some a -> nth_error l j = Some b ->
    Conv.latest a = PStr ta -> Conv.latest b = PStr tb ->
    String.leb tb ta = true.
Proof.
  induction 1 as [|x l _ IH Hall]; intros i j a b ta tb Hij Ha Hb Hta Htb.
  - now destruct i.
  - destruct j as [|j]; [lia|]. cbn in Hb. destruct i as [|i]; cbn in Ha.
    + injection Ha as ->. rewrite Forall_forall in Hall.
      apply nth_error_In in Hb. specialize (Hall b Hb).
      unfold newer_or_same, sort_key in Hall. now rewrite Hta, Htb in Hall.
    + apply (IH i j a b); [lia|assumption..].
Qed.

(** C2.  On log rows whose ids and timestamps are strings, the loop keeps
    one summary per conversation id; its count is the number of rows with
    that id; its [latest] is the greatest timestamp of these rows in the
    order of strings, with the model and the prompt of the row it comes
    from.  The answer is one object per summary, with its five fields, in
    descending order of [latest]: no summary comes after one whose
    [latest] is smaller; and it is cut to [limit] items.  On the three rows
    of the example it is "a", with count 2 and latest "2024-01-02", then
    "b". *)
Theorem conversations_grouped `{PyRuntime} (rows : list pyval) (limit : Z) :
  Forall (fun row => row_ok row = true) rows ->
  exists convs out,
    conv_loop [] rows = Some convs
    /\ conversations_of (PList rows) limit = Some out
    /\ (forall os done,
           os_run os ["llm"; "logs"; "list"; "-n"; "0"; "--json"] = Ok done ->
           run_returncode done = 0 ->
           json_loads (run_stdout done) = Ok (PList rows) ->
           list_conversations os limit
           = Some (Return
                     (PList (map (fun c =>
                                    PDict [("conversation_id", PStr (Conv.conversation_id c));
                                           ("latest", Conv.latest c);
                                           ("model", Conv.model c);
                                           ("count", PInt (Conv.count c));
                                           ("last_prompt", Conv.last_prompt c)])
                                 out))))
    /\ NoDup (map fst convs)
    /\ (forall cid,
           In cid (map fst convs) <-> exists row, In row rows /\ row_cid row = Some cid)
    /\ (forall cid c,
           In (cid, c) convs ->
           Conv.conversation_id c = cid
           /\ Conv.count c = Z.of_nat (List.length (filter (in_conversation cid) rows))
           /\ (forall row t,
                  In row rows -> row_cid row = Some cid -> row_time row = Some t ->
                  exists m, Conv.latest c = PStr m /\ String.leb t m = true)
           /\ (exists d,
                  In (PDict d) rows /\ row_cid (PDict d) = Some cid
                  /\ Conv.latest c = dict_get d "datetime_utc" PNone
                  /\ Conv.model c = dict_get d "model" PNone
                  /\ Conv.last_prompt c = dict_get d "prompt" (PStr "")))
    /\ Permutation (sorted_reverse (map snd convs)) (map snd convs)
    /\ StronglySorted not_older (sorted_reverse (map snd convs))
    /\ (exists n,
           out = firstn n (sorted_reverse (map snd convs))
           /\ (0 <= limit -> n = Z.to_nat limit))
    /\ StronglySorted not_older out
    /\ (forall i j a b ta tb,
           (i < j)%nat -> nth_error out i = Some a -> nth_error out j = Some b ->
           Conv.latest a = PStr ta -> Conv.latest b = PStr tb ->
           String.leb tb ta = true)
    /\ (0 <= limit -> (List.length out <= Z.to_nat limit)%nat)
    /\ conversations_of (PList Samples.logs) 50
       = Some [Samples.summary "a" "2024-01-02" 2; Samples.summary "b" "2024-01-01" 1].
Proof.
  intros Hrows.
  destruct (conv_loop_ok (seen := []) convs_ok_nil Hrows) as (convs & Hloop & Hok).
  simpl in Hok. destruct Hok as (Hnodup & Hkeys & Hsum).
  destruct (slice_to_firstn (sorted_reverse (map snd convs)) limit) as (n & Hslice & Hn).
  exists convs, (slice_to (sorted_reverse (map snd convs)) limit).
  assert (Hout : conversations_of (PList rows) limit
                 = Some (slice_to (sorted_reverse (map snd convs)) limit))
    by (unfold conversations_of; now rewrite Hloop).
  assert (Hsorted : StronglySorted newer_or_same
                      (slice_to (sorted_reverse (map snd convs)) limit))
    by (rewrite Hslice; apply firstn_sorted, sorted_reverse_sorted).
  repeat match goal with |- _ /\ _ => split end; try assumption.
  - intros os done Hrun Hcode Hjson.
    unfold list_conversations, subprocess_run.
    rewrite Hrun, Hcode. change (true && negb (0 =? 0)) with false. cbv iota.
    rewrite Hjson, Hout. reflexivity.
  - intros cid c Hin. destruct (Hsum cid c Hin) as (Hid & Hcount & _ & Hmax & Hwit).
    auto.
  - apply sorted_reverse_perm.
  - apply sorted_not_older, sorted_reverse_sorted.
  - exists n. split; assumption.
  - apply sorted_not_older, Hsorted.
  - apply sorted_latest, Hsorted.
  - intros Hlimit. rewrite Hslice, (Hn Hlimit). apply firstn_le_length.
  - reflexivity.
Qed.

(** C1, amended.  When the command ends with code 0 and its output is not
    JSON, the handlers of tools, logs, conversations and of one
    conversation return their empty default; the handler of models raises
    a 500 "Failed to parse models response". *)
Theorem parse_failure_defaults `{PyRuntime} (os : OS) (done : CompletedProcess) (e : exc) :
  run_returncode done = 0 ->
  json_loads (run_stdout done) = Raise e ->
  is_JSONDecodeError e = true ->
  (os_run os ["llm"; "tools"; "list"; "--json"] = Ok done ->
   get_tools os = Return (PDict [("tools", PList [])]))
  /\ (forall count,
         os_run os ["llm"; "logs"; "list"; "-n"; py_str (PInt count); "--json"] = Ok done ->
         get_logs os count = Return (PDict [("logs", PList [])]))
  /\ (forall limit,
         os_run os ["llm"; "logs"; "list"; "-n"; "0"; "--json"] = Ok done ->
         list_conversations os limit = Some (Return (PList [])))
  /\ (forall cid,
         os_run os ["llm"; "logs"; "list"; "--cid"; cid; "--json"] = Ok done ->
         get_conversation os cid = Return (PList []))
  /\ (os_run os ["llm"; "models"; "list"; "--json"] = Ok done ->
      get_models os = HTTPException 500 "Failed to parse models response").
Proof.
  intros Hcode Hjson He.
  unfold get_tools, get_logs, list_conversations, get_conversation, get_models,
    subprocess_run.
  repeat split; intros; repeat match goal with Heq : os_run _ _ = _ |- _ => rewrite Heq end;
    rewrite Hcode; change (true && negb (0 =? 0)) with false; cbv iota;
    now rewrite Hjson, He.
Qed.

(** C10.  The clipboard endpoint answers as the upload endpoint does on
    every file: the description of the temporary copy when it could be
    written, a 500 with the text of the exception otherwise. *)
Theorem upload_clipboard_same `{PyRuntime} (os : OS) (file : UploadFile) :
  upload_clipboard_image os file = upload_file os file
  /\ (forall path content,
         os_mkstemp os ("_" ++ py_str (opt_str (filename file))) = Ok path ->
         read file = Ok content ->
         os_write os path content = Ok tt ->
         upload_clipboard_image os file
         = Return (PDict [("filename", opt_str (filename file));
                          ("path", PStr path);
                          ("size", PInt (Z.of_nat (List.length content)));
                          ("mimetype", opt_str (content_type file))]))
  /\ (forall e,
         os_mkstemp os ("_" ++ py_str (opt_str (filename file))) = Raise e ->
         upload_clipboard_image os file
         = HTTPException 500 ("File upload failed: " ++ exc_str e)).
Proof.
  split; [reflexivity|split].
  - intros path content Hpath Hread Hwrite.
    unfold upload_clipboard_image, upload_file, bind. now rewrite Hpath, Hread, Hwrite.
  - intros e Hpath. unfold upload_clipboard_image, upload_file, bind. now rewrite Hpath.
Qed.

(* ================================================================== *)
(** * The properties on sample inputs *)
(* ================================================================== *)

(** C1 as stated fails for the models endpoint: the command ends with code
    0, its output "not json" makes [json.loads] raise [JSONDecodeError],
    and the handler raises a 500 instead of returning a default. *)
Lemma models_parse_failure_is_http_500 :
  let os := Samples.machine_printing 0 "not json" "" in
  subprocess_run os ["llm"; "models"; "list"; "--json"] true
  = Completed {| run_returncode := 0; run_stdout := "not json"; run_stderr := "" |}
  /\ json_loads (PyRuntime := Samples.python) "not json"
     = Raise (Exc "JSONDecodeError" "Expecting value")
  /\ get_models (H := Samples.python) os
     = HTTPException 500 "Failed to parse models response"
  /\ ~ (exists default, get_models (H := Samples.python) os = Return default).
Proof.
  repeat split. intros [default Hdefault]. discriminate Hdefault.
Qed.

Lemma parse_failure_defaults_witness :
  let os := Samples.machine_printing 0 "not json" "" in
  get_tools (H := Samples.python) os = Return (PDict [("tools", PList [])])
  /\ get_logs (H := Samples.python) os 5 = Return (PDict [("logs", PList [])])
  /\ list_conversations (H := Samples.python) os 50 = Some (Return (PList []))
  /\ get_models (H := Samples.python) os
     = HTTPException 500 "Failed to parse models response".
Proof.
  intros os.
  destruct (@parse_failure_defaults Samples.python os
              {| run_returncode := 0; run_stdout := "not json"; run_stderr := "" |}
              (Exc "JSONDecodeError" "Expecting value") eq_refl eq_refl eq_refl)
    as (Htools & Hlogs & Hconvs & _ & Hmodels).
  split; [|split; [|split]].
  - exact (Htools eq_refl).
  - exact (Hlogs 5 eq_refl).
  - exact (Hconvs 50 eq_refl).
  - exact (Hmodels eq_refl).
Defined.

Lemma conversations_grouped_witness :
  Forall (fun row => row_ok row = true) Samples.logs
  /\ list_conversations (H := Samples.python)
       (Samples.machine_printing 0 Samples.logs_json "") 50
     = Some (Return (PList [PDict [("conversation_id", PStr "a");
                                   ("latest", PStr "2024-01-02");
                                   ("model", PNone);
                                   ("count", PInt 2);
                                   ("last_prompt", PStr "")];
                            PDict [("conversation_id", PStr "b");
                                   ("latest", PStr "2024-01-01");
                                   ("model", PNone);
                                   ("count", PInt 1);
                                   ("last_prompt", PStr "")]])).
Proof.
  assert (Hrows : Forall (fun row => row_ok row = true) Samples.logs)
    by (repeat constructor).
  split; [exact Hrows|].
  destruct (@conversations_grouped Samples.python Samples.logs 50 Hrows)
    as (convs & out & _ & Hout & Hanswer & _).
  rewrite (Hanswer (Samples.machine_printing 0 Samples.logs_json "")
                   {| run_returncode := 0; run_stdout := Samples.logs_json;
                      run_stderr := "" |} eq_refl eq_refl eq_refl).
  vm_compute in Hout. injection Hout as <-. reflexivity.
Defined.

(** C3 as stated fails on a child that writes one line that is not UTF-8
    and ends with code 0: the only chunk is an error chunk. *)
Lemma undecodable_line_ends_in_error_chunk :
  let p := Samples.child [Samples.bad_line] 0 [] in
  let os := Samples.machine_starting p in
  os_exec os ["llm"; "prompt"; "hi"] = Ok p
  /\ stdout_readline p = map Ok [Samples.bad_line]
  /\ returncode p = 0
  /\ chunks (stream_llm_response os ["llm"; "prompt"; "hi"])
     = [error_text
          "'utf-8' codec can't decode byte 0xff in position 0: invalid start byte"]
  /\ ~ (exists texts,
           Forall2 (fun line text => bytes_decode line = Ok text) [Samples.bad_line] texts
           /\ chunks (stream_llm_response os ["llm"; "prompt"; "hi"]) = texts).
Proof.
  repeat split. intros (texts & Hdec & _).
  inversion Hdec as [|? ? ? ? Hline _]; subst. discriminate Hline.
Qed.

Lemma letters_valid (n pos : nat) (tail : list byte) :
  utf8_scan (repeat x61 n ++ tail) pos = utf8_scan tail (n + pos).
Proof.
  revert pos. induction n as [|n IH]; intros pos; [reflexivity|].
  cbn [repeat app]. change (utf8_scan (x61 :: repeat x61 n ++ tail) pos)
    with (utf8_scan (repeat x61 n ++ tail) (1 + pos)).
  rewrite IH. f_equal. lia.
Qed.

Lemma letters_over_limit (n : nat) :
  (reader_limit < N.of_nat n)%N -> within_limit (repeat x61 n ++ [x0a]) = false.
Proof.
  intros Hn. unfold within_limit, ends_with_newline.
  rewrite rev_app_distr, length_app, repeat_length. cbn [rev app List.length Byte.eqb].
  change (Byte.eqb x0a x0a) with true. cbv iota.
  apply N.leb_gt. lia.
Qed.

(** C3 as stated fails as well on a child that writes one line of valid
    UTF-8 that is longer than the limit of the reader and ends with code
    0: [readline] raises, and the only chunk is an error chunk. *)
Lemma long_line_sample :
  let p := Samples.child [Samples.long_line] 0 [] in
  let os := Samples.machine_starting p in
  utf8_scan Samples.long_line 0 = None
  /\ within_limit Samples.long_line = false
  /\ returncode p = 0
  /\ chunks (stream_llm_response os ["llm"; "prompt"; "hi"])
     = [error_text "Separator is found, but chunk is longer than limit"].
Proof.
  intros p os.
  assert (Hlong : within_limit Samples.long_line = false).
  { apply letters_over_limit. rewrite N2Nat.id. reflexivity. }
  split.
  { unfold Samples.long_line. rewrite letters_valid. reflexivity. }
  split; [exact Hlong|]. split; [reflexivity|].
  assert (Hout : stdout_readline p = readline_calls true ([] ++ Samples.long_line :: []))
    by reflexivity.
  rewrite (@long_line_ends_in_error_chunk os ["llm"; "prompt"; "hi"] p true [] []
             Samples.long_line [] eq_refl Hout (Forall_nil _) Hlong (Forall2_nil _)).
  unfold overrun, ends_with_newline, Samples.long_line.
  rewrite rev_app_distr. reflexivity.
Qed.

Lemma stream_yields_every_line_witness :
  let out := list_byte_of_string ("Hello" ++ nl ++ "world") in
  let p := Samples.child (lines_of out) 0 [] in
  let os := Samples.machine_starting p in
  Forall (fun line => within_limit line = true) (lines_of out)
  /\ Forall2 decodes (lines_of out) [("Hello" ++ nl)%string; "world"]
  /\ chunks (stream_llm_response os ["llm"; "prompt"; "hi"])
     = [("Hello" ++ nl)%string; "world"].
Proof.
  intros out p os.
  assert (Hlimit : Forall (fun line => within_limit line = true) (lines_of out))
    by (repeat constructor).
  assert (Hdec : Forall2 decodes (lines_of out) [("Hello" ++ nl)%string; "world"])
    by (repeat constructor; discriminate).
  split; [exact Hlimit|split; [exact Hdec|]].
  exact (proj1 (@stream_yields_every_line os ["llm"; "prompt"; "hi"] p out true _
                  eq_refl eq_refl Hlimit Hdec eq_refl)).
Defined.

(** C4 as stated fails on a child that ends with code 1 after a line that
    is not UTF-8: the last chunk carries the text of the decoding error,
    not the error output "boom". *)
Lemma undecodable_line_hides_stderr :
  let p := Samples.child [Samples.bad_line] 1 Samples.boom in
  let os := Samples.machine_starting p in
  os_exec os ["llm"; "prompt"; "hi"] = Ok p
  /\ returncode p = 1
  /\ stderr_read p = Ok Samples.boom
  /\ bytes_decode Samples.boom = Ok "boom"
  /\ chunks (stream_llm_response os ["llm"; "prompt"; "hi"])
     = [error_text
          "'utf-8' codec can't decode byte 0xff in position 0: invalid start byte"]
  /\ last (chunks (stream_llm_response os ["llm"; "prompt"; "hi"])) ""
     <> (nl ++ "Error: " ++ "boom")%string.
Proof.
  repeat split. discriminate.
Qed.

Lemma nonzero_exit_reports_stderr_witness :
  let out := list_byte_of_string ("Hello" ++ nl ++ "world") in
  let p := Samples.child (lines_of out) 1 Samples.boom in
  chunks (stream_llm_response (Samples.machine_starting p) ["llm"; "prompt"; "hi"])
  = [("Hello" ++ nl)%string; "world"; (nl ++ "Error: boom")%string]
  /\ Strict.execute_prompt (H := Samples.python) (Samples.machine_printing 1 "" "boom")
       (Samples.prompt_request "--no-cache")
     = HTTPException 500 "LLM command failed: boom"
  /\ Strict.execute_prompt (H := Samples.python)
       (Samples.machine_writing 1 [] Samples.bad_line)
       (Samples.prompt_request "--no-cache")
     = Uncaught (Exc "UnicodeDecodeError"
                     "'utf-8' codec can't decode byte 0xff in position 0: invalid start byte").
Proof.
  intros out p. split; [|split].
  - refine (proj1 (proj1 (@nonzero_exit_reports_stderr Samples.python
                            (Samples.machine_starting p))
                         ["llm"; "prompt"; "hi"] p out true
                         [("Hello" ++ nl)%string; "world"] Samples.boom "boom"
                         eq_refl eq_refl _ _ _ eq_refl eq_refl)).
    + repeat constructor.
    + repeat constructor; discriminate.
    + discriminate.
  - refine (proj1 (proj2 (@nonzero_exit_reports_stderr Samples.python
                            (Samples.machine_printing 1 "" "boom"))
                         (Samples.prompt_request "--no-cache") Samples.prompt_cmd
                         {| exit_code := 1; stdout_bytes := [];
                            stderr_bytes := Samples.boom |}
                         eq_refl eq_refl eq_refl _)
                  "" "boom" eq_refl eq_refl).
    discriminate.
  - refine (proj2 (proj2 (@nonzero_exit_reports_stderr Samples.python
                            (Samples.machine_writing 1 [] Samples.bad_line))
                         (Samples.prompt_request "--no-cache") Samples.prompt_cmd
                         {| exit_code := 1; stdout_bytes := [];
                            stderr_bytes := Samples.bad_line |}
                         eq_refl eq_refl eq_refl _)
                  _ eq_refl).
    discriminate.
Defined.

Lemma stream_catches_every_exception_witness :
  let os := Samples.machine_printing 0 "" "" in
  os_exec os ["llm"; "chat"] = Raise Samples.not_found
  /\ stream_llm_chat_response os ["llm"; "chat"] "hi"
     = ([Spawn ["llm"; "chat"];
         Yield (error_text "[Errno 2] No such file or directory: 'llm'")], Ok tt)
  /\ chunks (stream_llm_response os ["llm"; "chat"])
     = [error_text "[Errno 2] No such file or directory: 'llm'"].
Proof.
  intros os. split; [reflexivity|split; [reflexivity|]].
  exact (proj1 (proj1 (proj2 (stream_catches_every_exception os ["llm"; "chat"] "hi"))
                      Samples.not_found eq_refl)).
Defined.



Lemma sample_options_print : values_print (H := Samples.python) Samples.options.
Proof. repeat constructor. Qed.

(** On a value nested 999 lists deep the reference [json.dumps] raises,
    the mapping being one level deeper than the interpreter takes, and
    [str] still returns. *)
Lemma deep_value_prints :
  values_print (H := Samples.python) (Samples.deep_reasoning 999).
Proof.
  assert (Hnone : str_raises (PyRuntime := Samples.python)
                    (PList [Samples.nested 998 (PStr "high")]) = None)
    by (vm_compute; reflexivity).
  constructor; [|constructor]. unfold prints. cbn [snd].
  change (Samples.nested 999 (PStr "high"))
    with (PList [Samples.nested 998 (PStr "high")]).
  unfold Strict.str. now rewrite Hnone.
Qed.

(** C8 as stated fails on a reasoning mapping nested deeper than the
    interpreter takes: [json.dumps] raises, [str] raises in the fallback,
    and the request ends with that exception. *)
Lemma deep_reasoning_ends_the_request :
  let request := Samples.deep_request 1100 in
  PromptRequest.reasoning request = Some (Samples.deep_reasoning 1100)
  /\ json_dumps (PyRuntime := Samples.python) (Samples.deep_reasoning 1100)
     = Raise (Exc "RecursionError"
                  "maximum recursion depth exceeded while encoding a JSON object")
  /\ Strict.execute_prompt_cmd (H := Samples.python) request
     = Raise (Exc "RecursionError"
                  "maximum recursion depth exceeded while getting the repr of an object")
  /\ (forall os,
        Strict.execute_prompt (H := Samples.python) os request
        = Uncaught (Exc "RecursionError"
                        "maximum recursion depth exceeded while getting the repr of an object"))
  /\ ~ (exists cmd, Strict.execute_prompt_cmd (H := Samples.python) request = Ok cmd).
Proof.
  intros request.
  assert (Hcmd : Strict.execute_prompt_cmd (H := Samples.python) request
                 = Raise (Exc "RecursionError"
                              ("maximum recursion depth exceeded "
                               ++ "while getting the repr of an object")))
    by (vm_compute; reflexivity).
  split; [reflexivity|split; [vm_compute; reflexivity|split; [exact Hcmd|split]]].
  - intros os. unfold Strict.execute_prompt. now rewrite Hcmd.
  - intros [cmd Hok]. rewrite Hcmd in Hok. discriminate Hok.
Qed.

Lemma reasoning_json_or_fallback_witness :
  json_dumps (PyRuntime := Samples.python) Samples.reasoning = Ok Samples.reasoning_json
  /\ Strict.chat_message_cmd (H := Samples.python) (Samples.chat "hi")
     = Ok (["llm"; "chat"; "-m"; "gpt-4o"; "--cid"; "01hx";
            "-o"; "temperature"; "0.7"; "-o"; "max_tokens"; "256"]
           ++ ["-o"; "reasoning"; Samples.reasoning_json] ++ ["--no-stream"])
  /\ json_dumps (PyRuntime := Samples.python) (Samples.deep_reasoning 999)
     = Raise (Exc "RecursionError"
                  "maximum recursion depth exceeded while encoding a JSON object")
  /\ Strict.chat_message_cmd (H := Samples.python) (Samples.deep_chat 999)
     = Ok (["llm"; "chat"; "-m"; "gpt-4o"; "--cid"; "01hx";
            "-o"; "temperature"; "0.7"; "-o"; "max_tokens"; "256"]
           ++ ["-o"; "effort";
               py_str (H := Samples.python) (Samples.nested 999 (PStr "high"))]
           ++ ["--no-stream"]).
Proof.
  assert (Hitems : Samples.reasoning <> []) by discriminate.
  assert (Hdeep : Samples.deep_reasoning 999 <> []) by discriminate.
  assert (Hraise : json_dumps (PyRuntime := Samples.python) (Samples.deep_reasoning 999)
                   = Raise (Exc "RecursionError"
                                "maximum recursion depth exceeded while encoding a JSON object"))
    by (vm_compute; reflexivity).
  split; [reflexivity|split; [|split; [exact Hraise|]]].
  - exact (proj1 (proj2 (@reasoning_json_or_fallback Samples.python Samples.reasoning Hitems)
                        (Samples.chat "hi") eq_refl sample_options_print _ _ eq_refl eq_refl)
                 _ eq_refl).
  - exact (proj1 (proj2 (proj2 (@reasoning_json_or_fallback Samples.python
                                  (Samples.deep_reasoning 999) Hdeep)
                               (Samples.deep_chat 999) eq_refl sample_options_print
                               _ _ eq_refl eq_refl))
                 _ Hraise deep_value_prints).
Defined.


Lemma upload_clipboard_same_witness :
  upload_clipboard_image (H := Samples.python) (Samples.machine_printing 0 "" "")
                         Samples.picture
  = Return (PDict [("filename", PStr "shot.png");
                   ("path", PStr "/tmp/tmpk3q9x0aw_shot.png");
                   ("size", PInt 4);
                   ("mimetype", PStr "image/png")]).
Proof.
  exact (proj1 (proj2 (@upload_clipboard_same Samples.python
                         (Samples.machine_printing 0 "" "") Samples.picture))
               "/tmp/tmpk3q9x0aw_shot.png" [x89; x50; x4e; x47] eq_refl eq_refl eq_refl).
Defined.

(* ================================================================== *)
(** * Text: white space, lines and words *)
(* ================================================================== *)

Lemma chars_eqb_eq (a b : list ascii) : chars_eqb a b = true -> a = b.
Proof.
  unfold chars_eqb. rewrite String.eqb_eq. intros Heq.
  rewrite <- (list_ascii_of_string_of_list_ascii a), Heq.
  apply list_ascii_of_string_of_list_ascii.
Qed.

(** A white-space character is one byte below 128, or two or three bytes
    from 128 on. *)
Lemma is_space_shape (back : bool) (p : list ascii) :
  is_space back p = true ->
  (exists c, p = [c] /\ (N_of_ascii c < 128)%N)
  \/ ((2 <= List.length p)%nat /\ Forall (fun c => (128 <= N_of_ascii c)%N) p).
Proof.
  unfold is_space. intros Hsp. apply existsb_exists in Hsp.
  destruct Hsp as (sp & Hin & Heq). apply chars_eqb_eq in Heq.
  assert (Hp : p = if back then rev sp else sp).
  { destruct back; [|exact Heq]. now rewrite <- Heq, rev_involutive. }
  clear Heq. vm_compute in Hin.
  repeat (destruct Hin as [<-|Hin];
          [subst p; destruct back;
           (left; eexists; split; [reflexivity|vm_compute; reflexivity])
           || (right; split; [simpl; lia|repeat constructor; vm_compute; discriminate])|]).
  destruct Hin.
Qed.

(** No white-space character of several bytes holds a newline. *)
Lemma is_space_no_newline (back : bool) (p : list ascii) :
  In newline p -> (2 <= List.length p)%nat -> is_space back p = false.
Proof.
  intros Hin Hlen. destruct (is_space back p) eqn:Hsp; [|reflexivity].
  destruct (is_space_shape _ _ Hsp) as [(c & -> & _)|[_ Hall]].
  - simpl in Hlen. lia.
  - rewrite Forall_forall in Hall. apply Hall in Hin. vm_compute in Hin. now destruct Hin.
Qed.

(** [drop_space] drops one white-space character after the other. *)
Lemma drop_space_unfold (back : bool) (l : list ascii) :
  drop_space back l
  = match space_at back l with
    | Some rest => drop_space back rest
    | None => l
    end.
Proof.
  destruct l as [|c1 [|c2 [|c3 l]]]; cbn [drop_space space_at]; try reflexivity.
  - now destruct (is_space back [c1]).
  - destruct (is_space back [c1]); [reflexivity|]. now destruct (is_space back [c1; c2]).
  - destruct (is_space back [c1]); [reflexivity|].
    destruct (is_space back [c1; c2]); [reflexivity|].
    now destruct (is_space back [c1; c2; c3]).
Qed.

Lemma space_at_split (back : bool) (l rest : list ascii) :
  space_at back l = Some rest ->
  exists p, l = p ++ rest /\ p <> [] /\ is_space back p = true.
Proof.
  destruct l as [|c1 [|c2 [|c3 l]]]; cbn [space_at]; try discriminate.
  - destruct (is_space back [c1]) eqn:H1; [|discriminate].
    intros [= <-]. exists [c1]. now repeat split.
  - destruct (is_space back [c1]) eqn:H1.
    { intros [= <-]. exists [c1]. now repeat split. }
    destruct (is_space back [c1; c2]) eqn:H2; [|discriminate].
    intros [= <-]. exists [c1; c2]. now repeat split.
  - destruct (is_space back [c1]) eqn:H1.
    { intros [= <-]. exists [c1]. now repeat split. }
    destruct (is_space back [c1; c2]) eqn:H2.
    { intros [= <-]. exists [c1; c2]. now repeat split. }
    destruct (is_space back [c1; c2; c3]) eqn:H3; [|discriminate].
    intros [= <-]. exists [c1; c2; c3]. now repeat split.
Qed.

Lemma space_at_shorter (back : bool) (l rest : list ascii) :
  space_at back l = Some rest -> (List.length rest < List.length l)%nat.
Proof.
  intros Hsp. destruct (space_at_split _ _ Hsp) as (p & -> & Hp & _).
  rewrite length_app. destruct p; [easy|simpl; lia].
Qed.

(** Induction on the steps of [drop_space]. *)
Lemma drop_space_ind (back : bool) (P : list ascii -> Prop) :
  (forall l rest, space_at back l = Some rest -> P rest -> P l) ->
  (forall l, space_at back l = None -> P l) ->
  forall l, P l.
Proof.
  intros Hstep Hstop l.
  remember (List.length l) as n eqn:Hn. revert l Hn.
  induction n as [n IH] using lt_wf_ind. intros l ->.
  destruct (space_at back l) as [rest|] eqn:Hsp; [|now apply Hstop].
  apply (Hstep l rest Hsp). apply (IH (List.length rest)); [|reflexivity].
  now apply space_at_shorter with back.
Qed.

Lemma drop_space_head (back : bool) (l : list ascii) :
  space_at back (drop_space back l) = None.
Proof.
  induction l as [l rest Hsp IH|l Hsp] using (drop_space_ind back);
    rewrite drop_space_unfold, Hsp; assumption.
Qed.

Lemma drop_space_fixed (back : bool) (l : list ascii) :
  space_at back l = None -> drop_space back l = l.
Proof. intros Hsp. now rewrite drop_space_unfold, Hsp. Qed.

Lemma drop_space_suffix (back : bool) (l : list ascii) :
  exists a, l = a ++ drop_space back l.
Proof.
  induction l as [l rest Hsp (a & IH)|l Hsp] using (drop_space_ind back);
    rewrite drop_space_unfold, Hsp.
  - destruct (space_at_split _ _ Hsp) as (p & -> & _).
    exists (p ++ a). now rewrite <- app_assoc, <- IH.
  - now exists [].
Qed.

Lemma space_at_app (back : bool) (l rest x : list ascii) :
  space_at back l = Some rest -> space_at back (l ++ x) = Some (rest ++ x).
Proof.
  destruct l as [|c1 [|c2 [|c3 l]]]; cbn [space_at app]; try discriminate.
  - destruct (is_space back [c1]); [|discriminate]. now intros [= <-].
  - destruct (is_space back [c1]); [now intros [= <-]|].
    destruct (is_space back [c1; c2]); [|discriminate]. now intros [= <-].
  - destruct (is_space back [c1]); [now intros [= <-]|].
    destruct (is_space back [c1; c2]); [now intros [= <-]|].
    destruct (is_space back [c1; c2; c3]); [|discriminate]. now intros [= <-].
Qed.

Lemma space_at_prefix (back : bool) (l x : list ascii) :
  space_at back (l ++ x) = None -> space_at back l = None.
Proof.
  intros Hsp. destruct (space_at back l) as [rest|] eqn:Hl; [|reflexivity].
  now rewrite (space_at_app _ _ x Hl) in Hsp.
Qed.

(** [strip] gives a piece of the text, between what it drops. *)
Lemma strip_chars_middle (l : list ascii) :
  exists a b, l = a ++ strip_chars l ++ b
              /\ drop_space false l = strip_chars l ++ b
              /\ rev (strip_chars l) = drop_space true (rev (strip_chars l ++ b)).
Proof.
  unfold strip_chars.
  destruct (drop_space_suffix false l) as (a & Ha).
  destruct (drop_space_suffix true (rev (drop_space false l))) as (b & Hb).
  exists a, (rev b).
  assert (Hmid : drop_space false l
                 = rev (drop_space true (rev (drop_space false l))) ++ rev b).
  { rewrite <- rev_app_distr, <- Hb. now rewrite rev_involutive. }
  split; [|split].
  - now rewrite <- Hmid.
  - exact Hmid.
  - rewrite <- Hmid. now rewrite rev_involutive.
Qed.

Lemma strip_chars_head (l : list ascii) : space_at false (strip_chars l) = None.
Proof.
  destruct (strip_chars_middle l) as (a & b & _ & Hmid & _).
  apply space_at_prefix with b. rewrite <- Hmid. apply drop_space_head.
Qed.

Lemma strip_chars_last (l : list ascii) : space_at true (rev (strip_chars l)) = None.
Proof.
  destruct (strip_chars_middle l) as (a & b & _ & _ & Hrev).
  rewrite Hrev. apply drop_space_head.
Qed.

Lemma strip_chars_fixed (l : list ascii) :
  space_at false l = None -> space_at true (rev l) = None -> strip_chars l = l.
Proof.
  intros Hhead Hlast. unfold strip_chars.
  rewrite (drop_space_fixed _ _ Hhead), (drop_space_fixed _ _ Hlast).
  apply rev_involutive.
Qed.

(** What [strip] gives has no white space left to strip. *)
Lemma strip_chars_idempotent (l : list ascii) :
  strip_chars (strip_chars l) = strip_chars l.
Proof. apply strip_chars_fixed; [apply strip_chars_head|apply strip_chars_last]. Qed.

Lemma strip_chars_fixed_inv (l : list ascii) :
  strip_chars l = l -> space_at false l = None /\ space_at true (rev l) = None.
Proof.
  intros Hfix. split.
  - rewrite <- Hfix. apply strip_chars_head.
  - rewrite <- Hfix. apply strip_chars_last.
Qed.

Lemma strip_chars_in (c : ascii) (l : list ascii) : In c (strip_chars l) -> In c l.
Proof.
  intros Hin. destruct (strip_chars_middle l) as (a & b & Hl & _).
  rewrite Hl. apply in_or_app. right. apply in_or_app. now left.
Qed.

Lemma str_strip_idempotent (s : string) : str_strip (str_strip s) = str_strip s.
Proof.
  unfold str_strip. now rewrite list_ascii_of_string_of_list_ascii, strip_chars_idempotent.
Qed.


(** ** Lines *)

Lemma chars_app (a b : string) :
  list_ascii_of_string (a ++ b) = list_ascii_of_string a ++ list_ascii_of_string b.
Proof. induction a as [|c a IH]; simpl; [reflexivity|]. now rewrite IH. Qed.

Lemma str_split_pieces (sep : ascii) (s : string) :
  Forall (fun piece => ~ In sep (list_ascii_of_string piece)) (str_split sep s).
Proof.
  induction s as [|c s IH]; simpl.
  - repeat constructor. now intros [].
  - destruct (Ascii.eqb_spec c sep) as [->|Hc].
    + constructor; [now intros []|exact IH].
    + destruct (str_split sep s) as [|piece pieces].
      * repeat constructor. intros [H|[]]. now apply Hc.
      * inversion IH as [|? ? Hpiece Hpieces]; subst. constructor; [|exact Hpieces].
        simpl. intros [H|H]; [now apply Hc|now apply Hpiece].
Qed.

Lemma str_split_piece (sep : ascii) (a b : string) :
  ~ In sep (list_ascii_of_string a) ->
  str_split sep (a ++ String sep b)%string = a :: str_split sep b.
Proof.
  induction a as [|c a IH]; simpl; intros Hsep.
  - now rewrite Ascii.eqb_refl.
  - destruct (Ascii.eqb_spec c sep) as [->|Hc]; [exfalso; apply Hsep; now left|].
    rewrite IH by (intros Hin; apply Hsep; now right). reflexivity.
Qed.

Lemma str_split_single (sep : ascii) (a : string) :
  ~ In sep (list_ascii_of_string a) -> str_split sep a = [a].
Proof.
  induction a as [|c a IH]; simpl; intros Hsep; [reflexivity|].
  destruct (Ascii.eqb_spec c sep) as [->|Hc]; [exfalso; apply Hsep; now left|].
  rewrite IH by (intros Hin; apply Hsep; now right). reflexivity.
Qed.

(** Splitting at the separator what [join] put together gives the parts
    back. *)
Lemma str_split_join (sep : ascii) (parts : list string) :
  parts <> [] ->
  Forall (fun part => ~ In sep (list_ascii_of_string part)) parts ->
  str_split sep (str_join (String sep "") parts) = parts.
Proof.
  intros Hne Hparts. induction Hparts as [|part parts Hpart Hparts IH]; [easy|].
  destruct parts as [|part' parts].
  - now apply str_split_single.
  - change (str_join (String sep "") (part :: part' :: parts))
      with (part ++ String sep (str_join (String sep "") (part' :: parts)))%string.
    rewrite str_split_piece by exact Hpart. now rewrite IH.
Qed.

Lemma is_space_newline (back : bool) : is_space back [newline] = true.
Proof. now destruct back. Qed.

(** A text that does not start with white space does not either when a
    line follows it. *)
Lemma space_at_app_line (back : bool) (a q : list ascii) :
  a <> [] -> space_at back a = None -> space_at back (a ++ newline :: q) = None.
Proof.
  intros Hne Hsp.
  destruct a as [|c1 [|c2 [|c3 a]]]; [easy| | |]; cbn [space_at app] in *;
    [| |now repeat destruct (is_space back _)].
  - destruct (is_space back [c1]); [discriminate|].
    rewrite (is_space_no_newline back [c1; newline]) by (simpl; auto).
    destruct q as [|c3 q]; [reflexivity|].
    now rewrite (is_space_no_newline back [c1; newline; c3]) by (simpl; auto).
  - destruct (is_space back [c1]); [discriminate|].
    destruct (is_space back [c1; c2]); [discriminate|].
    now rewrite (is_space_no_newline back [c1; c2; newline]) by (simpl; auto).
Qed.

Lemma str_join_head (sep : string) (part : string) (parts : list string) :
  exists t, str_join sep (part :: parts) = (part ++ t)%string
            /\ (t = "" \/ exists q, t = (sep ++ q)%string).
Proof.
  destruct parts as [|part' parts].
  - exists "". split; [|now left]. simpl. clear. induction part; simpl; congruence.
  - exists (sep ++ str_join sep (part' :: parts))%string. split; [reflexivity|]. right. eauto.
Qed.

Lemma string_app_assoc (a b c : string) : ((a ++ b) ++ c = a ++ b ++ c)%string.
Proof. induction a as [|x a IH]; simpl; [reflexivity|]. now rewrite IH. Qed.

Lemma string_app_nil_r (a : string) : (a ++ "")%string = a.
Proof. induction a as [|x a IH]; simpl; [reflexivity|]. now rewrite IH. Qed.

Lemma str_join_last (sep : string) (parts : list string) :
  parts <> [] ->
  exists h part, In part parts /\ str_join sep parts = (h ++ part)%string
                 /\ (h = "" \/ exists q, h = (q ++ sep)%string).
Proof.
  induction parts as [|part parts IH]; [easy|]. intros _.
  destruct parts as [|part' parts].
  - exists "", part. split; [now left|]. split; [reflexivity|now left].
  - destruct IH as (h & last & Hin & Hjoin & Hh); [discriminate|].
    exists (part ++ sep ++ h)%string, last. split; [now right|]. split.
    + change (str_join sep (part :: part' :: parts))
        with (part ++ sep ++ str_join sep (part' :: parts))%string.
      now rewrite Hjoin, !string_app_assoc.
    + right. destruct Hh as [->|(q & ->)].
      * exists part. now rewrite string_app_nil_r.
      * exists (part ++ sep ++ q)%string. now rewrite !string_app_assoc.
Qed.

Lemma clean_name_chars (name : string) :
  clean_name name ->
  list_ascii_of_string name <> []
  /\ space_at false (list_ascii_of_string name) = None
  /\ space_at true (rev (list_ascii_of_string name)) = None.
Proof.
  intros (Hne & Hstrip & _). split.
  - destruct name; [easy|discriminate].
  - apply strip_chars_fixed_inv. unfold str_strip in Hstrip.
    rewrite <- Hstrip at 2. now rewrite list_ascii_of_string_of_list_ascii.
Qed.

(** The names of a listing, one a line, have no white space around
    them as a whole. *)
Lemma join_lines_edges (names : list string) :
  names <> [] -> Forall clean_name names ->
  let text := list_ascii_of_string (str_join nl names) in
  space_at false text = None
  /\ space_at false (text ++ [newline]) = None
  /\ space_at true (rev text) = None.
Proof.
  intros Hne Hnames text. subst text.
  destruct names as [|name names]; [easy|].
  destruct (str_join_head nl name names) as (t & Hhead & Ht).
  destruct (@str_join_last nl (name :: names) Hne) as (h & last & Hin & Hlast & Hh).
  assert (Hfirst : clean_name name) by now inversion Hnames.
  assert (Hend : clean_name last) by (rewrite Forall_forall in Hnames; auto).
  apply clean_name_chars in Hfirst, Hend.
  destruct Hfirst as (Hne1 & Hhead1 & _). destruct Hend as (Hne2 & _ & Hlast2).
  split; [|split].
  - rewrite Hhead, chars_app. destruct Ht as [->|(q & ->)].
    + now rewrite app_nil_r.
    + now apply space_at_app_line.
  - rewrite Hhead, chars_app, <- app_assoc. destruct Ht as [->|(q & ->)].
    + now apply space_at_app_line.
    + now apply space_at_app_line.
  - rewrite Hlast, chars_app, rev_app_distr. destruct Hh as [->|(q & ->)].
    + now rewrite app_nil_r.
    + rewrite chars_app, rev_app_distr. apply space_at_app_line; [|assumption].
      intros Hrev. apply Hne2. apply (f_equal (@rev ascii)) in Hrev.
      now rewrite rev_involutive in Hrev.
Qed.

Lemma str_strip_join_lines (names : list string) :
  names <> [] -> Forall clean_name names ->
  str_strip (str_join nl names) = str_join nl names
  /\ str_strip (str_join nl names ++ nl)%string = str_join nl names.
Proof.
  intros Hne Hnames.
  destruct (join_lines_edges Hne Hnames) as (Hhead & Hhead' & Hlast).
  unfold str_strip. split.
  - rewrite strip_chars_fixed by assumption. apply string_of_list_ascii_of_string.
  - rewrite chars_app. change (list_ascii_of_string nl) with [newline].
    unfold strip_chars. rewrite (drop_space_fixed _ _ Hhead').
    rewrite rev_app_distr. cbn [rev app].
    rewrite drop_space_unfold. cbn [space_at]. rewrite is_space_newline.
    rewrite (drop_space_fixed _ _ Hlast), rev_involutive.
    apply string_of_list_ascii_of_string.
Qed.

(** [split_space] ends the word under way at a white-space character and
    takes one byte into it otherwise. *)
Lemma split_space_unfold (l word : list ascii) :
  split_space l word
  = let flush rest := match word with [] => rest | _ :: _ => rev word :: rest end in
    match space_at false l with
    | Some rest => flush (split_space rest [])
    | None =>
        match l with
        | [] => flush []
        | c :: l' => split_space l' (c :: word)
        end
    end.
Proof.
  destruct l as [|c1 [|c2 [|c3 l]]]; cbn [split_space space_at]; try reflexivity.
  - now destruct (is_space false [c1]).
  - destruct (is_space false [c1]); [reflexivity|]. now destruct (is_space false [c1; c2]).
  - destruct (is_space false [c1]); [reflexivity|].
    destruct (is_space false [c1; c2]); [reflexivity|].
    now destruct (is_space false [c1; c2; c3]).
Qed.

Lemma split_space_words (l word : list ascii) :
  (forall a b, rev word = a ++ b -> b <> [] -> space_at false (b ++ l) = None) ->
  Forall (fun w => w <> [] /\ forall a b, w = a ++ b -> space_at false b = None)
         (split_space l word).
Proof.
  remember (List.length l) as n eqn:Hn. revert l word Hn.
  induction n as [n IH] using lt_wf_ind. intros l word -> Hword.
  assert (Hflush : forall rest,
             Forall (fun w => w <> [] /\ forall a b, w = a ++ b -> space_at false b = None)
                    rest ->
             Forall (fun w => w <> [] /\ forall a b, w = a ++ b -> space_at false b = None)
                    (match word with [] => rest | _ :: _ => rev word :: rest end)).
  { intros rest Hrest. destruct word as [|c word]; [exact Hrest|].
    constructor; [|exact Hrest]. split; [apply rev_cons_nonempty|].
    intros a b Hsplit. destruct b as [|x b]; [reflexivity|].
    apply space_at_prefix with l. apply Hword with a; [exact Hsplit|discriminate]. }
  rewrite split_space_unfold. cbv zeta.
  destruct (space_at false l) as [rest|] eqn:Hsp.
  - apply Hflush. apply (IH (List.length rest)); [|reflexivity|].
    + now apply space_at_shorter with false.
    + intros a b Hrev Hb. destruct a, b; try discriminate. now contradiction Hb.
  - destruct l as [|c l]; [apply Hflush; constructor|].
    apply (IH (List.length l)); [simpl; lia|reflexivity|].
    intros a b Hrev Hb. cbn [rev] in Hrev.
    destruct (exists_last Hb) as (b' & x & ->).
    rewrite app_assoc in Hrev. apply app_inj_tail in Hrev. destruct Hrev as [Hrev <-].
    rewrite <- app_assoc. cbn [app].
    destruct b' as [|y b']; [exact Hsp|].
    apply Hword with a; [exact Hrev|discriminate].
Qed.

(** The words of [split()] are not empty and hold no white space. *)
Lemma str_words_spaceless (s : string) :
  Forall (fun w => w <> "" /\ spaceless w) (str_words s).
Proof.
  unfold str_words. apply Forall_forall. intros w Hw.
  apply in_map_iff in Hw. destruct Hw as (l & <- & Hl).
  pose proof (@split_space_words (list_ascii_of_string s) []) as Hwords.
  rewrite Forall_forall in Hwords. destruct (Hwords) with l as [Hne Hfree].
  - intros a b Hrev Hb. destruct a, b; try discriminate. now contradiction Hb.
  - exact Hl.
  - split.
    + destruct l; [easy|discriminate].
    + unfold spaceless. rewrite list_ascii_of_string_of_list_ascii. exact Hfree.
Qed.

(* ================================================================== *)
(** * Templates and help *)
(* ================================================================== *)

Lemma filter_all {A} (f : A -> bool) (l : list A) :
  Forall (fun x => f x = true) l -> filter f l = l.
Proof. induction 1 as [|x l Hx _ IH]; simpl; [reflexivity|]. now rewrite Hx, IH. Qed.

Lemma map_fixed {A} (f : A -> A) (l : list A) :
  Forall (fun x => f x = x) l -> map f l = l.
Proof. induction 1 as [|x l Hx _ IH]; simpl; [reflexivity|]. now rewrite Hx, IH. Qed.

Lemma replace_crlf_fixed (s : string) : no_carriage_return s -> replace_crlf s = s.
Proof.
  unfold no_carriage_return.
  induction s as [|c s IH]; intros Hs; [reflexivity|].
  assert (Hc : Ascii.eqb c carriage_return = false).
  { apply Ascii.eqb_neq. intros ->. apply Hs. now left. }
  assert (Hrest : replace_crlf s = s) by (apply IH; intros Hin; apply Hs; now right).
  cbn [replace_crlf]. rewrite Hc. cbn [andb].
  destruct s as [|c' s]; [reflexivity|]. now rewrite Hrest.
Qed.

Lemma replace_cr_fixed (s : string) : no_carriage_return s -> replace_cr s = s.
Proof.
  unfold no_carriage_return.
  induction s as [|c s IH]; intros Hs; [reflexivity|].
  assert (Hc : Ascii.eqb c carriage_return = false).
  { apply Ascii.eqb_neq. intros ->. apply Hs. now left. }
  cbn [replace_cr]. rewrite Hc, IH; [reflexivity|].
  intros Hin. apply Hs. now right.
Qed.

(** A text without ['\r'] is captured as it is. *)
Lemma translate_newlines_plain (data : list byte) (text : string) :
  bytes_decode data = Ok text -> no_carriage_return text ->
  translate_newlines data = Ok text.
Proof.
  intros Hdata Htext. unfold translate_newlines. rewrite Hdata. cbn [bind].
  now rewrite (replace_crlf_fixed Htext), (replace_cr_fixed Htext).
Qed.

(** What [communicate] gives when both outputs decode, and when one does
    not. *)
Lemma communicate_text (child : Child) (stdout stderr : string) :
  translate_newlines (stdout_bytes child) = Ok stdout ->
  translate_newlines (stderr_bytes child) = Ok stderr ->
  communicate child
  = Ok {| run_returncode := exit_code child; run_stdout := stdout; run_stderr := stderr |}.
Proof. intros Hstdout Hstderr. unfold communicate. now rewrite Hstdout, Hstderr. Qed.

Lemma communicate_cases (child : Child) :
  (exists stdout stderr,
      translate_newlines (stdout_bytes child) = Ok stdout
      /\ translate_newlines (stderr_bytes child) = Ok stderr)
  \/ (exists e, communicate child = Raise e
                /\ exc_class e = "UnicodeDecodeError"
                /\ (bytes_decode (stdout_bytes child) = Raise e
                    \/ bytes_decode (stderr_bytes child) = Raise e)).
Proof.
  unfold communicate, translate_newlines, bytes_decode.
  destruct (utf8_scan (stdout_bytes child) 0) as [e|]; cbn [bind].
  - right. eexists. split; [reflexivity|split; [reflexivity|now left]].
  - destruct (utf8_scan (stderr_bytes child) 0) as [e|]; cbn [bind].
    + right. eexists. split; [reflexivity|split; [reflexivity|now right]].
    + left. eauto.
Qed.

Lemma get_templates_run (os : OS) (done : CompletedProcess) :
  os_run os ["llm"; "templates"; "list"] = Ok done ->
  run_returncode done = 0 ->
  get_templates os
  = Return (PDict [("templates",
                    PList (map PStr
                             (map str_strip
                                (filter (fun line => truthy (PStr (str_strip line)))
                                        (str_split newline
                                                   (str_strip (run_stdout done)))))))]).
Proof.
  intros Hrun Hcode. unfold get_templates, subprocess_run.
  rewrite Hrun, Hcode. reflexivity.
Qed.

(** X1.  When the command ends with code 0, [get_templates] answers with a
    list of names, none of which is empty, holds a newline or has white
    space around it; an output that is only white space gives the empty
    list. *)
Theorem templates_are_clean (os : OS) (done : CompletedProcess) :
  os_run os ["llm"; "templates"; "list"] = Ok done ->
  run_returncode done = 0 ->
  exists names,
    get_templates os = Return (PDict [("templates", PList (map PStr names))])
    /\ Forall clean_name names
    /\ (str_strip (run_stdout done) = "" -> names = []).
Proof.
  intros Hrun Hcode. eexists. split; [exact (get_templates_run os Hrun Hcode)|]. split.
  - apply Forall_forall. intros name Hname.
    apply in_map_iff in Hname. destruct Hname as (line & <- & Hline).
    apply filter_In in Hline. destruct Hline as [Hline Htruthy].
    split; [|split].
    + intros Hempty. rewrite Hempty in Htruthy. discriminate.
    + apply str_strip_idempotent.
    + pose proof (str_split_pieces newline (str_strip (run_stdout done)))
        as Hpieces.
      rewrite Forall_forall in Hpieces. intros Hin. apply (Hpieces line Hline).
      unfold str_strip in Hin. rewrite list_ascii_of_string_of_list_ascii in Hin.
      now apply strip_chars_in.
  - intros ->. reflexivity.
Qed.

(** The names the handler reads from a captured text that is the names
    joined by newlines. *)
Lemma templates_of_lines (os : OS) (done : CompletedProcess) (names : list string) :
  os_run os ["llm"; "templates"; "list"] = Ok done ->
  run_returncode done = 0 ->
  Forall clean_name names ->
  run_stdout done = str_join nl names \/ run_stdout done = (str_join nl names ++ nl)%string ->
  get_templates os = Return (PDict [("templates", PList (map PStr names))]).
Proof.
  intros Hrun Hcode Hnames Hout. rewrite (get_templates_run os Hrun Hcode).
  destruct names as [|name names].
  - destruct Hout as [->| ->]; reflexivity.
  - assert (Hne : name :: names <> []) by discriminate.
    destruct (str_strip_join_lines Hne Hnames) as [Hstrip Hstrip'].
    assert (Hlines : str_split newline (str_strip (run_stdout done))
                     = name :: names).
    { destruct Hout as [->| ->]; rewrite ?Hstrip, ?Hstrip';
        apply (@str_split_join newline); try assumption;
        eapply Forall_impl; [|exact Hnames| |exact Hnames]; now intros n (_ & _ & Hn). }
    rewrite Hlines, filter_all, map_fixed; [reflexivity| |].
    + eapply Forall_impl; [|exact Hnames]. now intros n (_ & Hn & _).
    + eapply Forall_impl; [|exact Hnames]. intros n (Hn & -> & _).
      destruct n; [easy|reflexivity].
Qed.

Lemma no_carriage_return_app (a b : string) :
  no_carriage_return a -> no_carriage_return b -> no_carriage_return (a ++ b).
Proof.
  unfold no_carriage_return. intros Ha Hb Hin.
  rewrite chars_app in Hin. apply in_app_or in Hin. tauto.
Qed.

Lemma no_carriage_return_nl : no_carriage_return nl.
Proof. intros [Hin|[]]. discriminate Hin. Qed.

Lemma no_carriage_return_join (names : list string) :
  Forall no_carriage_return names -> no_carriage_return (str_join nl names).
Proof.
  induction 1 as [|name names Hname Hnames IH]; [intros []|].
  destruct names as [|name' names]; [exact Hname|].
  change (str_join nl (name :: name' :: names))
    with (name ++ nl ++ str_join nl (name' :: names))%string.
  auto using no_carriage_return_app, no_carriage_return_nl.
Qed.

(** X2.  Names printed one a line are read back as they are: when the
    command ends with code 0, its error output is valid UTF-8, and its
    standard output is the UTF-8 text of the names joined by newlines,
    with or without a newline at its end, [get_templates] returns exactly
    these names, in their order.  The names are not empty, have no white
    space around them, and hold no newline and no carriage return (which
    [text=True] would turn into a newline). *)
Theorem templates_round_trip (os : OS) (child : Child) (names : list string)
        (printed : string) :
  os_run os ["llm"; "templates"; "list"] = communicate child ->
  exit_code child = 0 ->
  bytes_decode (stdout_bytes child) = Ok printed ->
  (exists errors, bytes_decode (stderr_bytes child) = Ok errors) ->
  Forall clean_name names ->
  Forall no_carriage_return names ->
  printed = str_join nl names \/ printed = (str_join nl names ++ nl)%string ->
  get_templates os = Return (PDict [("templates", PList (map PStr names))]).
Proof.
  intros Hrun Hcode Hprinted [errors Herrors] Hnames Hplain Hout.
  assert (Hstdout : translate_newlines (stdout_bytes child) = Ok printed).
  { apply translate_newlines_plain; [exact Hprinted|].
    pose proof (no_carriage_return_join Hplain) as Hjoin.
    destruct Hout as [->| ->];
      auto using no_carriage_return_app, no_carriage_return_nl. }
  assert (Hstderr : translate_newlines (stderr_bytes child)
                    = Ok (replace_cr (replace_crlf errors)))
    by (unfold translate_newlines; now rewrite Herrors).
  rewrite (communicate_text child Hstdout Hstderr) in Hrun.
  apply (templates_of_lines os Hrun Hcode Hnames Hout).
Qed.

(** X3.  [get_help] runs [llm], the words of the path, then [--help], and
    answers whatever the exit code of the command: with the command as
    one text, and with the standard output, or the error output when the
    standard output is empty.  An exception of the run becomes a 500, and
    none leaves the handler.  Without a path the command is [llm --help];
    when [shlex.split] raises, the words are those of [split()], none
    empty and none holding white space. *)
Theorem help_answers_whatever_the_exit_code `{PyRuntime} (os : OS) (path : option string) :
  let cmd := ["llm"] ++ help_parts path ++ ["--help"] in
  (forall done,
      os_run os cmd = Ok done ->
      get_help os path
      = Return (PDict [("command", PStr (str_join " " cmd));
                       ("help", PStr (if (run_stdout done =? "")%string
                                      then run_stderr done
                                      else run_stdout done))]))
  /\ (forall e,
         os_run os cmd = Raise e ->
         get_help os path = HTTPException 500 ("Failed to run help: " ++ exc_str e)%string)
  /\ (forall e, get_help os path <> Uncaught e)
  /\ (path = None \/ path = Some "" -> cmd = ["llm"; "--help"])
  /\ (forall text tokens,
         path = Some text -> text <> "" -> shlex_split text = Ok tokens ->
         cmd = "llm" :: tokens ++ ["--help"])
  /\ (forall text e,
         path = Some text -> text <> "" -> shlex_split text = Raise e ->
         cmd = "llm" :: str_words text ++ ["--help"]
         /\ Forall (fun word => word <> "" /\ spaceless word) (str_words text)).
Proof.
  intros cmd. subst cmd. unfold get_help.
  split; [|split; [|split; [|split; [|split]]]].
  - intros done ->. cbn [truthy]. now destruct (run_stdout done =? "")%string.
  - now intros e ->.
  - intros e. now destruct (os_run os _).
  - now intros [->| ->].
  - intros text tokens -> Htext Hsplit. unfold help_parts.
    destruct text as [|c text]; [easy|]. cbn [truthy_str the_str String.eqb negb].
    now rewrite Hsplit.
  - intros text e -> Htext Hsplit. unfold help_parts.
    destruct text as [|c text]; [easy|]. cbn [truthy_str the_str String.eqb negb].
    rewrite Hsplit. split; [reflexivity|apply str_words_spaceless].
Qed.

Lemma plain_char_inv (c : ascii) :
  plain_char c = true ->
  Reference.is_whitespace c = false /\ Reference.is_quote c = false
  /\ Ascii.eqb c Reference.backslash = false.
Proof.
  unfold plain_char. intros Hc. apply negb_true_iff in Hc.
  apply orb_false_iff in Hc. destruct Hc as [Hc Hb].
  apply orb_false_iff in Hc. now destruct Hc.
Qed.

(** In a word, the lexer takes plain characters one by one. *)
Lemma shlex_tokens_word (w rest token : string) (quoted : bool) :
  Forall (fun c => plain_char c = true) (list_ascii_of_string w) ->
  Reference.shlex_tokens Reference.InWord token quoted (w ++ rest)
  = Reference.shlex_tokens Reference.InWord (token ++ w) quoted rest.
Proof.
  revert token. induction w as [|c w IH]; intros token Hw.
  - now rewrite string_app_nil_r.
  - inversion Hw as [|? ? Hc Hw']; subst.
    destruct (plain_char_inv _ Hc) as (H1 & H2 & H3).
    cbn [append Reference.shlex_tokens]. rewrite H1, H2, H3, (IH _ Hw').
    unfold Reference.snoc. now rewrite string_app_assoc.
Qed.

(** [shlex.split] gives back plain words joined by single spaces. *)
Lemma shlex_split_plain_words (words : list string) :
  words <> [] -> Forall plain_word words ->
  Reference.shlex_split (str_join " " words) = Ok words.
Proof.
  intros Hne Hwords. unfold Reference.shlex_split.
  induction Hwords as [|w words [Hw Hplain] Hrest IH]; [easy|].
  destruct w as [|c w]; [easy|].
  inversion Hplain as [|? ? Hc Hw']; subst.
  destruct (plain_char_inv _ Hc) as (H1 & H2 & H3).
  destruct words as [|w2 words].
  - cbn [str_join Reference.shlex_tokens]. rewrite H1, H3, H2.
    rewrite <- (string_app_nil_r w) at 1. rewrite (shlex_tokens_word w _ _ _ Hw').
    reflexivity.
  - change (str_join " " (String c w :: w2 :: words))
      with (String c (w ++ String " " (str_join " " (w2 :: words))))%string.
    cbn [Reference.shlex_tokens]. rewrite H1, H3, H2.
    rewrite (shlex_tokens_word w _ _ _ Hw').
    cbn [Reference.shlex_tokens append].
    change (Reference.is_whitespace " ") with true. cbv iota.
    rewrite IH by discriminate. reflexivity.
Qed.

Lemma str_join_app (sep : string) (a b : list string) :
  a <> [] -> b <> [] ->
  str_join sep (a ++ b) = (str_join sep a ++ sep ++ str_join sep b)%string.
Proof.
  intros Ha Hb. induction a as [|part a IH]; [easy|].
  destruct a as [|part' a].
  - destruct b; [easy|reflexivity].
  - change (str_join sep ((part :: part' :: a) ++ b))
      with (part ++ sep ++ str_join sep ((part' :: a) ++ b))%string.
    rewrite IH by discriminate.
    change (str_join sep (part :: part' :: a))
      with (part ++ sep ++ str_join sep (part' :: a))%string.
    now rewrite !string_app_assoc.
Qed.

(** X18.  With the reference [shlex.split], a path made of plain words
    (no white space, quote or backslash in them) separated by single
    spaces gives exactly these words: [get_help] runs [llm], the words,
    then [--help], and reports the command as [llm], the path and
    [--help] separated by single spaces, as the examples of its
    documentation have it. *)
Theorem help_of_plain_words (recursion_limit : nat) (os : OS) (words : list string) :
  words <> [] -> Forall plain_word words ->
  forall path, path = str_join " " words ->
  help_parts (H := Reference.runtime recursion_limit) (Some path) = words
  /\ (forall done,
         os_run os ("llm" :: words ++ ["--help"]) = Ok done ->
         get_help (H := Reference.runtime recursion_limit) os (Some path)
         = Return (PDict [("command", PStr ("llm " ++ path ++ " --help"));
                          ("help", PStr (if (run_stdout done =? "")%string
                                         then run_stderr done
                                         else run_stdout done))])).
Proof.
  intros Hne Hwords path ->.
  assert (Hparts : help_parts (H := Reference.runtime recursion_limit)
                              (Some (str_join " " words)) = words).
  { unfold help_parts.
    assert (Hpath : truthy_str (Some (str_join " " words)) = true).
    { destruct words as [|w words]; [easy|]. inversion Hwords as [|? ? [Hw _] _]; subst.
      destruct w as [|c w]; [easy|]. now destruct words. }
    rewrite Hpath. cbn [the_str].
    change (shlex_split (PyRuntime := Reference.runtime recursion_limit)
                        (str_join " " words))
      with (Reference.shlex_split (str_join " " words)).
    now rewrite shlex_split_plain_words. }
  split; [exact Hparts|].
  intros done Hrun. unfold get_help. rewrite Hparts. cbn [app]. rewrite Hrun.
  cbn [truthy]. do 4 f_equal.
  - change ("llm" :: words ++ ["--help"]) with (["llm"] ++ (words ++ ["--help"])).
    rewrite str_join_app by (try discriminate; now destruct words).
    rewrite str_join_app by (try discriminate; assumption).
    reflexivity.
  - now destruct (run_stdout done =? "")%string.
Qed.

(* ================================================================== *)
(** * Commands that fail or cannot be started *)
(* ================================================================== *)

(** X4.  When the command of a listing handler ends with a code other
    than 0 and its two outputs are valid UTF-8, the handler raises a 500
    whose detail is its own prefix followed by the error output as text;
    the standard output is not looked at.  When an output is not valid
    UTF-8, [subprocess.run] raises [UnicodeDecodeError] before the exit
    code is looked at, and the handler lets it through. *)
Theorem listing_failure_is_http_500 `{PyRuntime} (os : OS) (child : Child) :
  exit_code child <> 0 ->
  (forall stdout stderr,
      translate_newlines (stdout_bytes child) = Ok stdout ->
      translate_newlines (stderr_bytes child) = Ok stderr ->
      (os_run os ["llm"; "models"; "list"; "--json"] = communicate child ->
       get_models os = HTTPException 500 ("Failed to get models: " ++ stderr)%string)
      /\ (os_run os ["llm"; "templates"; "list"] = communicate child ->
          get_templates os
          = HTTPException 500 ("Failed to get templates: " ++ stderr)%string)
      /\ (os_run os ["llm"; "tools"; "list"; "--json"] = communicate child ->
          get_tools os = HTTPException 500 ("Failed to get tools: " ++ stderr)%string)
      /\ (forall count,
             os_run os ["llm"; "logs"; "list"; "-n"; py_str (PInt count); "--json"]
             = communicate child ->
             get_logs os count
             = HTTPException 500 ("Failed to get logs: " ++ stderr)%string)
      /\ (forall limit,
             os_run os ["llm"; "logs"; "list"; "-n"; "0"; "--json"] = communicate child ->
             list_conversations os limit
             = Some (HTTPException 500
                       ("Failed to list conversations: " ++ stderr)%string))
      /\ (forall cid,
             os_run os ["llm"; "logs"; "list"; "--cid"; cid; "--json"] = communicate child ->
             get_conversation os cid
             = HTTPException 500 ("Failed to fetch conversation: " ++ stderr)%string))
  /\ (forall e,
         communicate child = Raise e ->
         exc_class e = "UnicodeDecodeError"
         /\ (os_run os ["llm"; "models"; "list"; "--json"] = communicate child ->
             get_models os = Uncaught e)
         /\ (os_run os ["llm"; "templates"; "list"] = communicate child ->
             get_templates os = Uncaught e)
         /\ (os_run os ["llm"; "tools"; "list"; "--json"] = communicate child ->
             get_tools os = Uncaught e)
         /\ (forall count,
                os_run os ["llm"; "logs"; "list"; "-n"; py_str (PInt count); "--json"]
                = communicate child ->
                get_logs os count = Uncaught e)
         /\ (forall limit,
                os_run os ["llm"; "logs"; "list"; "-n"; "0"; "--json"] = communicate child ->
                list_conversations os limit = Some (Uncaught e))
         /\ (forall cid,
                os_run os ["llm"; "logs"; "list"; "--cid"; cid; "--json"]
                = communicate child ->
                get_conversation os cid = Uncaught e)).
Proof.
  intros Hcode. apply Z.eqb_neq in Hcode. split.
  - intros stdout stderr Hstdout Hstderr.
    pose proof (communicate_text child Hstdout Hstderr) as Hdone.
    unfold get_models, get_templates, get_tools, get_logs, list_conversations,
      get_conversation, subprocess_run.
    repeat split; intros;
      repeat match goal with Heq : os_run _ _ = _ |- _ => rewrite Heq end;
      rewrite Hdone; cbn [run_returncode run_stderr]; now rewrite Hcode.
  - intros e He. split.
    + destruct (communicate_cases child)
        as [(stdout & stderr & Hstdout & Hstderr)|(e' & He' & Hclass & _)].
      * rewrite (communicate_text child Hstdout Hstderr) in He. discriminate He.
      * congruence.
    + unfold get_models, get_templates, get_tools, get_logs, list_conversations,
        get_conversation, subprocess_run.
      repeat split; intros;
        repeat match goal with Heq : os_run _ _ = _ |- _ => rewrite Heq end;
        now rewrite He.
Qed.


(* ================================================================== *)
(** * Prompt requests: attachment types and empty fields *)
(* ================================================================== *)

Lemma add_attachment_types_raise (pairs rest : list (list string)) (entry : list string)
      (cmd : list string) :
  Forall (fun pair => List.length pair = 2%nat) pairs ->
  List.length entry <> 2%nat ->
  add_attachment_types cmd (pairs ++ entry :: rest)
  = Raise (unpack_error (List.length entry)).
Proof.
  intros Hpairs Hentry. revert cmd.
  induction Hpairs as [|pair pairs Hlen _ IH]; intros cmd.
  - destruct entry as [|a [|b [|c entry]]]; try reflexivity. now contradiction Hentry.
  - destruct pair as [|a [|b [|c pair]]]; try discriminate. apply IH.
Qed.

Lemma add_attachment_types_cases (pairs : list (list string)) (cmd : list string) :
  Forall (fun pair => List.length pair = 2%nat) pairs
  \/ exists good entry rest,
       pairs = good ++ entry :: rest
       /\ Forall (fun pair => List.length pair = 2%nat) good
       /\ List.length entry <> 2%nat.
Proof.
  induction pairs as [|pair pairs IH]; [left; constructor|].
  destruct (Nat.eq_dec (List.length pair) 2) as [Hlen|Hlen].
  - destruct IH as [Hall|(good & entry & rest & -> & Hgood & Hentry)].
    + left. now constructor.
    + right. exists (pair :: good), entry, rest. repeat split; auto.
  - right. exists [], pair, pairs. repeat split; auto.
Qed.

(** X6.  An entry of [attachment_types] that has not two items stops
    [execute_prompt] with the [ValueError] of the unpacking, on any
    machine, with or without streaming, once the options and the reasoning
    are in the vector: when [str] returns on the values of the options
    and, should [json.dumps] raise, on those of the reasoning.  The builder
    raises in these three cases and in no other: [str] raises on a value
    of the options, [str] raises on a value of the reasoning after
    [json.dumps] has raised, or an entry has not two items. *)
Theorem malformed_attachment_type_is_uncaught `{PyRuntime} (request : PromptRequest.t) :
  (forall good entry rest,
      PromptRequest.attachment_types request = Some (good ++ entry :: rest) ->
      Forall (fun pair => List.length pair = 2%nat) good ->
      List.length entry <> 2%nat ->
      values_print (the_list (PromptRequest.options request)) ->
      (forall e, json_dumps (the_list (PromptRequest.reasoning request)) = Raise e ->
                 values_print (the_list (PromptRequest.reasoning request))) ->
      Strict.execute_prompt_cmd request = Raise (unpack_error (List.length entry))
      /\ (forall os,
            Strict.execute_prompt os request = Uncaught (unpack_error (List.length entry)))
      /\ exc_class (unpack_error (List.length entry)) = "ValueError"
      /\ ((List.length entry < 2)%nat ->
          exc_str (unpack_error (List.length entry))
          = ("not enough values to unpack (expected 2, got "
             ++ decimal_N (N.of_nat (List.length entry)) ++ ")")%string)
      /\ ((2 < List.length entry)%nat ->
          exc_str (unpack_error (List.length entry))
          = "too many values to unpack (expected 2)"))
  /\ (forall e,
         Strict.execute_prompt_cmd request = Raise e ->
         first_unprintable (the_list (PromptRequest.options request)) e
         \/ (values_print (the_list (PromptRequest.options request))
             /\ (exists e', json_dumps (the_list (PromptRequest.reasoning request)) = Raise e')
             /\ first_unprintable (the_list (PromptRequest.reasoning request)) e)
         \/ (values_print (the_list (PromptRequest.options request))
             /\ exists good entry rest,
                  PromptRequest.attachment_types request = Some (good ++ entry :: rest)
                  /\ Forall (fun pair => List.length pair = 2%nat) good
                  /\ List.length entry <> 2%nat
                  /\ e = unpack_error (List.length entry))).
Proof.
  assert (Hraise : forall good entry rest,
             PromptRequest.attachment_types request = Some (good ++ entry :: rest) ->
             Forall (fun pair => List.length pair = 2%nat) good ->
             List.length entry <> 2%nat ->
             execute_prompt_cmd request = Raise (unpack_error (List.length entry))).
  { intros good entry rest Htypes Hgood Hentry. unfold execute_prompt_cmd.
    rewrite Htypes. cbn [the_list].
    replace (truthy_list (Some (good ++ entry :: rest))) with true
      by (now destruct good).
    now rewrite add_attachment_types_raise. }
  split.
  - intros good entry rest Htypes Hgood Hentry Hoptions Hreasoning.
    pose proof (Hraise good entry rest Htypes Hgood Hentry) as Hcmd.
    rewrite <- (strict_prompt_cmd_prints request Hoptions Hreasoning) in Hcmd.
    split; [exact Hcmd|split; [|split; [|split]]].
    + intros os. unfold Strict.execute_prompt. now rewrite Hcmd.
    + unfold unpack_error. now destruct (List.length entry <? 2)%nat.
    + intros Hlt. unfold unpack_error. apply Nat.ltb_lt in Hlt. now rewrite Hlt.
    + intros Hgt. unfold unpack_error.
      replace (List.length entry <? 2)%nat with false; [reflexivity|].
      symmetry. apply Nat.ltb_ge. lia.
  - intros e Hcmd.
    destruct (values_print_cases (the_list (PromptRequest.options request)))
      as [Hoptions|[e0 Hoptions]].
    2: { left. rewrite (proj1 (strict_cmd_options_raise e0) request Hoptions) in Hcmd.
         now injection Hcmd as <-. }
    right.
    assert (Hcases : (forall e', json_dumps (the_list (PromptRequest.reasoning request))
                                 = Raise e' ->
                                 values_print (the_list (PromptRequest.reasoning request)))
                     \/ exists e' e1,
                          json_dumps (the_list (PromptRequest.reasoning request)) = Raise e'
                          /\ first_unprintable
                               (the_list (PromptRequest.reasoning request)) e1).
    { destruct (json_dumps (the_list (PromptRequest.reasoning request))) as [text|e'].
      - left. intros e' He'. discriminate He'.
      - destruct (values_print_cases (the_list (PromptRequest.reasoning request)))
          as [Hprint|[e1 Hfirst]].
        + left. intros _ _. exact Hprint.
        + right. exists e', e1. split; [reflexivity|exact Hfirst]. }
    destruct Hcases as [Hreasoning|(e' & e1 & Hdumps & Hfirst)].
    2: { left. split; [exact Hoptions|split; [now exists e'|]].
         rewrite (proj1 (strict_cmd_reasoning_raise e' e1) request Hoptions Hdumps Hfirst)
           in Hcmd.
         now injection Hcmd as <-. }
    right. split; [exact Hoptions|].
    rewrite (strict_prompt_cmd_prints request Hoptions Hreasoning) in Hcmd.
    destruct (add_attachment_types_cases
                (the_list (PromptRequest.attachment_types request)) [])
      as [Hall|(good & entry & rest & Hsplit & Hgood & Hentry)].
    + rewrite (execute_prompt_cmd_closed request Hall) in Hcmd. discriminate.
    + assert (Htypes : PromptRequest.attachment_types request
                       = Some (good ++ entry :: rest)).
      { destruct (PromptRequest.attachment_types request) as [pairs|]; simpl in Hsplit.
        - now subst.
        - now destruct good. }
      exists good, entry, rest. repeat split; try assumption.
      rewrite (Hraise good entry rest Htypes Hgood Hentry) in Hcmd. congruence.
Qed.









(** X8.  A prompt is run in one of two ways, never both.  Without
    streaming the handler runs the command to its end; when it ends with
    code 0 and its two outputs are valid UTF-8, the handler returns the
    standard output as text, with every CRLF and CR turned into LF, hence
    as it is when it holds no CR, whatever the text of the error output;
    when an output is not valid UTF-8, the [UnicodeDecodeError] of
    [subprocess.run] leaves the handler.  With streaming the handler
    returns the generator and runs nothing itself. *)
Theorem prompt_modes_are_separate `{PyRuntime} (request : PromptRequest.t)
        (cmd : list string) :
  Strict.execute_prompt_cmd request = Ok cmd ->
  (PromptRequest.stream request = false ->
   (forall os child stdout stderr,
       os_run os cmd = communicate child -> exit_code child = 0 ->
       bytes_decode (stdout_bytes child) = Ok stdout ->
       bytes_decode (stderr_bytes child) = Ok stderr ->
       Strict.execute_prompt os request
       = Return (JSONResponse
                   (PDict [("response", PStr (replace_cr (replace_crlf stdout)))]))
       /\ (no_carriage_return stdout ->
           Strict.execute_prompt os request
           = Return (JSONResponse (PDict [("response", PStr stdout)]))))
   /\ (forall os child e,
          os_run os cmd = communicate child ->
          bytes_decode (stdout_bytes child) = Raise e
          \/ (exists stdout, bytes_decode (stdout_bytes child) = Ok stdout)
             /\ bytes_decode (stderr_bytes child) = Raise e ->
          Strict.execute_prompt os request = Uncaught e)
   /\ (forall os os',
          os_run os cmd = os_run os' cmd ->
          Strict.execute_prompt os request = Strict.execute_prompt os' request))
  /\ (PromptRequest.stream request = true ->
      (forall os,
          Strict.execute_prompt os request
          = Return (StreamingResponse (stream_llm_response os cmd)))
      /\ (forall os os',
             os_exec os cmd = os_exec os' cmd ->
             Strict.execute_prompt os request = Strict.execute_prompt os' request)).
Proof.
  intros Hcmd. unfold Strict.execute_prompt. rewrite Hcmd.
  split; intros ->; [split; [|split]|split].
  - intros os child stdout stderr Hrun Hcode Hstdout Hstderr.
    assert (Hdone : communicate child
                    = Ok {| run_returncode := exit_code child;
                            run_stdout := replace_cr (replace_crlf stdout);
                            run_stderr := replace_cr (replace_crlf stderr) |}).
    { apply communicate_text; unfold translate_newlines;
        now rewrite ?Hstdout, ?Hstderr. }
    unfold subprocess_run. rewrite Hrun, Hdone. cbn [run_returncode run_stdout].
    rewrite Hcode. split; [reflexivity|].
    intros Hplain. now rewrite (replace_crlf_fixed Hplain), (replace_cr_fixed Hplain).
  - intros os child e Hrun Hraise.
    unfold subprocess_run, communicate, translate_newlines. rewrite Hrun.
    unfold communicate, translate_newlines.
    destruct Hraise as [Hstdout|[[stdout Hstdout] Hstderr]].
    + now rewrite Hstdout.
    + now rewrite Hstdout, Hstderr.
  - intros os os' Hrun. unfold subprocess_run. now rewrite Hrun.
  - reflexivity.
  - intros os os' Hexec. unfold stream_llm_response, create_subprocess_exec.
    now rewrite Hexec.
Qed.

(* ================================================================== *)
(** * Streams: one child, nothing lost *)
(* ================================================================== *)

Lemma spawned_yields (texts : list string) : spawned (map Yield texts) = [].
Proof. induction texts as [|t texts IH]; simpl; [reflexivity|exact IH]. Qed.

(** Every run of [stream_llm_response] starts the child and then only
    yields. *)
Lemma stream_events (os : OS) (cmd : list string) :
  exists texts, stream_llm_response os cmd = (Spawn cmd :: map Yield texts, Ok tt).
Proof.
  destruct (os_exec os cmd) as [p|e] eqn:Hexec.
  - destruct (stream_run os cmd Hexec) as (tail & Hrun & Htail).
    destruct (read_lines_shape (stdout_readline p)) as (texts & _ & Hfst).
    rewrite Hrun, Hfst.
    destruct (snd (read_lines (stdout_readline p))) as [[]|e].
    + rewrite report_exit_run in Htail.
      destruct (returncode p =? 0); [|destruct (stderr_read p) as [err|e];
                                       [destruct (bytes_decode err)|]];
        cbn [fst snd app] in Htail; subst tail;
        try (exists texts; now rewrite app_nil_r);
        eexists (texts ++ [_]); now rewrite map_app.
    + subst tail. eexists (texts ++ [_]). now rewrite map_app.
  - rewrite (stream_spawn_failure os cmd Hexec). now exists [error_text (exc_str e)].
Qed.

(** X9.  A run of either generator starts exactly one child, with the
    vector it was given, before anything else, and ends normally.
    [stream_llm_response] then only yields and never touches the standard
    input; [stream_llm_chat_response] writes the message at most once,
    closes the input only after that, and then only yields. *)
Theorem one_child_per_stream (os : OS) (cmd : list string) (message : string) :
  (exists texts,
      stream_llm_response os cmd = (Spawn cmd :: map Yield texts, Ok tt))
  /\ spawned (fst (stream_llm_response os cmd)) = [cmd]
  /\ stdin_of (fst (stream_llm_response os cmd)) = []
  /\ spawned (fst (stream_llm_chat_response os cmd message)) = [cmd]
  /\ (exists texts,
         let sent := StdinWrite (str_encode (message ++ nl)) in
         stream_llm_chat_response os cmd message = (Spawn cmd :: map Yield texts, Ok tt)
         \/ stream_llm_chat_response os cmd message
            = (Spawn cmd :: sent :: map Yield texts, Ok tt)
         \/ stream_llm_chat_response os cmd message
            = (Spawn cmd :: sent :: StdinClose :: map Yield texts, Ok tt)).
Proof.
  destruct (stream_events os cmd) as (texts & Hrun).
  assert (Hchat : exists texts',
             let sent := StdinWrite (str_encode (message ++ nl)) in
             stream_llm_chat_response os cmd message = (Spawn cmd :: map Yield texts', Ok tt)
             \/ stream_llm_chat_response os cmd message
                = (Spawn cmd :: sent :: map Yield texts', Ok tt)
             \/ stream_llm_chat_response os cmd message
                = (Spawn cmd :: sent :: StdinClose :: map Yield texts', Ok tt)).
  { destruct (os_exec os cmd) as [p|e] eqn:Hexec.
    - destruct (stdin_drain p) as [[]|e] eqn:Hdrain.
      + destruct (chat_run os cmd message Hexec Hdrain) as (es & Hes & Hchat).
        exists texts. right. right. rewrite Hchat. rewrite Hrun in Hes.
        now injection Hes as <-.
      + exists [error_text (exc_str e)]. right. left.
        apply (chat_drain_failure os cmd message Hexec Hdrain).
    - exists [error_text (exc_str e)]. left.
      apply (chat_spawn_failure os cmd message Hexec). }
  split; [now exists texts|]. rewrite Hrun. cbn [fst].
  split; [|split; [|split; [|exact Hchat]]].
  - cbn. now rewrite spawned_yields.
  - cbn. apply stdin_of_yields.
  - destruct Hchat as (texts' & [-> | [-> | ->]]); cbn; now rewrite spawned_yields.
Qed.

(** The byte of a newline is in none of the ranges of a character of
    several bytes. *)
Ltac not_newline H := vm_compute in H; discriminate H.

(** A well-formed text starts with a character that the scan passes
    whatever follows it; a newline is a character of its own. *)
Lemma utf8_scan_step (bs : list byte) (p : nat) :
  bs <> [] -> utf8_scan bs p = None ->
  exists ch rest,
    bs = ch ++ rest /\ ch <> []
    /\ (In x0a ch -> ch = [x0a])
    /\ (forall rest' q, utf8_scan (ch ++ rest') q = utf8_scan rest' (List.length ch + q)%nat).
Proof.
  destruct bs as [|b1 r1]; [easy|]. intros _. cbn [utf8_scan].
  destruct (in_range 0 127 b1) eqn:H1.
  { intros _. exists [b1], r1. repeat split; [discriminate| |].
    - now intros [->|[]].
    - intros rest' q. cbn [app utf8_scan]. now rewrite H1. }
  destruct (in_range 194 223 b1) eqn:H2.
  { destruct r1 as [|b2 r2]; [discriminate|].
    destruct (is_cont b2) eqn:H3; [|discriminate].
    intros _. exists [b1; b2], r2. repeat split; [discriminate| |].
    - intros [->|[->|[]]]; [not_newline H2|not_newline H3].
    - intros rest' q. cbn [app utf8_scan]. now rewrite H1, H2, H3. }
  destruct (in_range 224 239 b1) eqn:H3.
  { destruct r1 as [|b2 [|b3 r3]]; try discriminate;
      destruct (second_ok b1 b2) eqn:H4; try discriminate.
    destruct (is_cont b3) eqn:H5; [|discriminate].
    intros _. exists [b1; b2; b3], r3. repeat split; [discriminate| |].
    - intros [->|[->|[->|[]]]]; [not_newline H3| |not_newline H5].
      unfold second_ok in H4. repeat destruct (in_range _ _ b1); not_newline H4.
    - intros rest' q. cbn [app utf8_scan]. now rewrite H1, H2, H3, H4, H5. }
  destruct (in_range 240 244 b1) eqn:H4.
  { destruct r1 as [|b2 [|b3 [|b4 r4]]]; try discriminate;
      destruct (second_ok b1 b2) eqn:H5; try discriminate;
      destruct (is_cont b3) eqn:H6; try discriminate.
    destruct (is_cont b4) eqn:H7; [|discriminate].
    intros _. exists [b1; b2; b3; b4], r4. repeat split; [discriminate| |].
    - intros [->|[->|[->|[->|[]]]]]; [not_newline H4| |not_newline H6|not_newline H7].
      unfold second_ok in H5. repeat destruct (in_range _ _ b1); not_newline H5.
    - intros rest' q. cbn [app utf8_scan]. now rewrite H1, H2, H3, H4, H5, H6, H7. }
  discriminate.
Qed.

(** Whether a text is well formed does not depend on where it starts. *)
Lemma utf8_scan_pos (bs : list byte) (p q : nat) :
  utf8_scan bs p = None -> utf8_scan bs q = None.
Proof.
  remember (List.length bs) as n eqn:Hn. revert bs p q Hn.
  induction n as [n IH] using lt_wf_ind. intros bs p q -> Hscan.
  destruct bs as [|b bs]; [reflexivity|].
  destruct (@utf8_scan_step (b :: bs) p) as (ch & rest & Hsplit & Hch & _ & Hpass);
    [discriminate|exact Hscan|].
  rewrite Hsplit, Hpass in *.
  apply (IH (List.length rest)) with (p := (List.length ch + p)%nat); [|reflexivity|exact Hscan].
  rewrite length_app. destruct ch; [easy|simpl; lia].
Qed.

(** A well-formed text that holds a newline is well formed up to it and
    after it. *)
Lemma utf8_scan_line (l1 l2 : list byte) (p : nat) :
  utf8_scan (l1 ++ x0a :: l2) p = None ->
  utf8_scan (l1 ++ [x0a]) 0 = None /\ utf8_scan l2 0 = None.
Proof.
  remember (List.length l1) as n eqn:Hn. revert l1 p Hn.
  induction n as [n IH] using lt_wf_ind. intros l1 p -> Hscan.
  destruct l1 as [|b l1].
  - split; [reflexivity|]. cbn in Hscan. now apply utf8_scan_pos with (1 + p)%nat.
  - destruct (@utf8_scan_step ((b :: l1) ++ x0a :: l2) p)
      as (ch & rest & Hsplit & Hch & Hnl & Hpass); [discriminate|exact Hscan|].
    rewrite Hsplit, Hpass in Hscan.
    apply app_eq_app in Hsplit. destruct Hsplit as (l & [[Hl1 Hrest]|[Hl1 Hrest]]).
    + (* the character ends in [b :: l1] *)
      assert (Hlen : (List.length l < List.length (b :: l1))%nat).
      { rewrite Hl1, length_app. destruct ch; [easy|simpl; lia]. }
      rewrite Hrest in Hscan.
      destruct (IH _ Hlen l _ eq_refl Hscan) as [Hline Hafter].
      split; [|exact Hafter].
      rewrite Hl1, <- app_assoc, Hpass. now apply utf8_scan_pos with 0%nat.
    + (* the character would reach the newline *)
      destruct l as [|x l].
      * rewrite app_nil_r in Hl1. simpl in Hrest. subst rest.
        assert (Hlen : (List.length (@nil byte) < List.length (b :: l1))%nat)
          by (simpl; lia).
        destruct (IH _ Hlen [] _ eq_refl Hscan) as [Hline Hafter].
        split; [|exact Hafter].
        rewrite <- Hl1, Hpass. now apply utf8_scan_pos with 0%nat.
      * injection Hrest as <- _.
        assert (Hin : In x0a ch) by (rewrite Hl1; apply in_or_app; right; now left).
        apply Hnl in Hin. rewrite Hin in Hl1. injection Hl1 as _ Hl1. now destruct l1.
Qed.

Lemma lines_from_valid (out line : list byte) :
  utf8_scan (rev line ++ out) 0 = None ->
  Forall (fun l => utf8_scan l 0 = None) (lines_from out line).
Proof.
  revert line. induction out as [|b out IH]; intros line Hscan.
  - rewrite app_nil_r in Hscan. destruct line; repeat constructor. exact Hscan.
  - cbn [lines_from]. destruct (Byte.eqb b x0a) eqn:Hb.
    + apply Byte.byte_dec_bl in Hb. subst b.
      destruct (utf8_scan_line _ _ _ Hscan) as [Hline Hafter].
      constructor; [exact Hline|]. now apply IH.
    + apply IH. cbn [rev]. now rewrite <- app_assoc.
Qed.

Lemma string_of_list_byte_app (a b : list byte) :
  string_of_list_byte (a ++ b) = (string_of_list_byte a ++ string_of_list_byte b)%string.
Proof.
  unfold string_of_list_byte. induction a as [|x a IH]; simpl; [reflexivity|].
  now rewrite IH.
Qed.

Lemma str_join_empty_cons (part : string) (parts : list string) :
  str_join "" (part :: parts) = (part ++ str_join "" parts)%string.
Proof.
  destruct parts as [|part' parts]; [|reflexivity].
  simpl. induction part as [|c part IH]; simpl; [reflexivity|]. now rewrite <- IH.
Qed.

Lemma str_join_empty_app (a b : list string) :
  str_join "" (a ++ b) = (str_join "" a ++ str_join "" b)%string.
Proof.
  induction a as [|part a IH]; [reflexivity|].
  cbn [app]. rewrite !str_join_empty_cons, IH.
  clear. induction part as [|c part IH]; simpl; [reflexivity|]. now rewrite IH.
Qed.

Lemma str_join_decoded (lines : list (list byte)) :
  str_join "" (map string_of_list_byte lines) = string_of_list_byte (List.concat lines).
Proof.
  induction lines as [|line lines IH]; [reflexivity|].
  cbn [map List.concat]. now rewrite str_join_empty_cons, IH, string_of_list_byte_app.
Qed.

(** The lines of a well-formed output decode one by one. *)
Lemma lines_of_decode (out : list byte) (text : string) :
  bytes_decode out = Ok text ->
  Forall2 decodes (lines_of out) (map string_of_list_byte (lines_of out))
  /\ str_join "" (map string_of_list_byte (lines_of out)) = text.
Proof.
  unfold bytes_decode. destruct (utf8_scan out 0) eqn:Hscan; [discriminate|].
  intros [= <-]. split.
  - pose proof (lines_from_valid out [] Hscan) as Hvalid.
    pose proof (lines_from_nonempty out []) as Hne.
    unfold lines_of. induction (lines_from out []) as [|line lines IH]; [constructor|].
    inversion Hvalid; inversion Hne; subst. constructor; [|now apply IH].
    split; [assumption|]. unfold bytes_decode.
    now match goal with Hl : utf8_scan line 0 = None |- _ => rewrite Hl end.
  - now rewrite str_join_decoded, lines_of_concat.
Qed.

(** The chunks of a run whose lines all decode. *)
Lemma stream_decoded_run (os : OS) (cmd : list string) (p : Process)
      (lines : list (list byte)) (texts : list string) :
  os_exec os cmd = Ok p ->
  stdout_readline p = map Ok lines ->
  Forall2 decodes lines texts ->
  (returncode p = 0 -> chunks (stream_llm_response os cmd) = texts)
  /\ (forall err text,
         returncode p <> 0 -> stderr_read p = Ok err -> bytes_decode err = Ok text ->
         chunks (stream_llm_response os cmd) = texts ++ [error_text text]).
Proof.
  intros Hexec Hout Hdec.
  destruct (stream_run os cmd Hexec) as (tail & Hrun & Htail).
  unfold chunks. rewrite Hrun. cbn [fst].
  rewrite <- (app_nil_r (map Ok lines)) in Hout.
  rewrite Hout, (read_lines_decoded [] Hdec) in *. cbn [fst snd read_lines gret] in *.
  rewrite report_exit_run in Htail.
  rewrite !app_nil_r, chunks_of_spawn, chunks_of_app, chunks_of_yields.
  split.
  - intros Hcode. rewrite Hcode in Htail. cbn in Htail. subst tail. apply app_nil_r.
  - intros err text Hcode Herr Htext. apply Z.eqb_neq in Hcode.
    rewrite Hcode, Herr, Htext in Htail. cbn in Htail. now subst tail.
Qed.

(** X10.  Nothing of the output is lost or added: when the child prints a
    well-formed UTF-8 text, read line by line, the chunks put together are
    that text if the child ends with code 0, and that text followed by the
    error chunk otherwise. *)
Theorem stream_is_lossless (os : OS) (cmd : list string) (p : Process)
        (out : list byte) (text : string) :
  os_exec os cmd = Ok p ->
  stdout_readline p = map Ok (lines_of out) ->
  bytes_decode out = Ok text ->
  (returncode p = 0 ->
   str_join "" (chunks (stream_llm_response os cmd)) = text
   /\ (forall message, stdin_drain p = Ok tt ->
         str_join "" (chunks (stream_llm_chat_response os cmd message)) = text))
  /\ (forall err etext,
         returncode p <> 0 -> stderr_read p = Ok err -> bytes_decode err = Ok etext ->
         str_join "" (chunks (stream_llm_response os cmd))
         = (text ++ nl ++ "Error: " ++ etext)%string
         /\ (forall message, stdin_drain p = Ok tt ->
               str_join "" (chunks (stream_llm_chat_response os cmd message))
               = (text ++ nl ++ "Error: " ++ etext)%string)).
Proof.
  intros Hexec Hout Hdecode.
  destruct (lines_of_decode out Hdecode) as [Hlines Hjoin].
  destruct (stream_decoded_run os cmd Hexec Hout Hlines) as [Hzero Hfail].
  split.
  - intros Hcode. rewrite (Hzero Hcode). split; [exact Hjoin|].
    intros message Hdrain.
    now rewrite (chat_chunks os cmd message Hexec Hdrain), (Hzero Hcode).
  - intros err etext Hcode Herr Hetext.
    assert (Hrun : str_join "" (chunks (stream_llm_response os cmd))
                   = (text ++ nl ++ "Error: " ++ etext)%string).
    { rewrite (Hfail err etext Hcode Herr Hetext), str_join_empty_app, Hjoin.
      reflexivity. }
    split; [exact Hrun|].
    intros message Hdrain. now rewrite (chat_chunks os cmd message Hexec Hdrain).
Qed.

(* ================================================================== *)
(** * Uploads *)
(* ================================================================== *)

(** X11.  Whatever step of an upload raises (creating the temporary file,
    reading the upload, writing it), [upload_file] raises a 500 with the
    text of the exception, and no exception leaves it; when it returns,
    the size it reports is the number of bytes it wrote and the path is
    that of the temporary file.  An upload without a name gets the suffix
    [_None]. *)
Theorem upload_failure_is_http_500 `{PyRuntime} (os : OS) (file : UploadFile) :
  let suffix := ("_" ++ py_str (opt_str (filename file)))%string in
  (forall e,
      os_mkstemp os suffix = Raise e ->
      upload_file os file = HTTPException 500 ("File upload failed: " ++ exc_str e)%string)
  /\ (forall path e,
         os_mkstemp os suffix = Ok path ->
         read file = Raise e ->
         upload_file os file = HTTPException 500 ("File upload failed: " ++ exc_str e)%string)
  /\ (forall path content e,
         os_mkstemp os suffix = Ok path ->
         read file = Ok content ->
         os_write os path content = Raise e ->
         upload_file os file = HTTPException 500 ("File upload failed: " ++ exc_str e)%string)
  /\ (forall e, upload_file os file <> Uncaught e)
  /\ (forall value, upload_file os file = Return value ->
        exists path content,
          os_mkstemp os suffix = Ok path /\ read file = Ok content
          /\ os_write os path content = Ok tt
          /\ dict_get (match value with PDict d => d | _ => [] end) "size" PNone
             = PInt (Z.of_nat (List.length content))
          /\ dict_get (match value with PDict d => d | _ => [] end) "path" PNone
             = PStr path)
  /\ (filename file = None -> suffix = "_None").
Proof.
  intros suffix. subst suffix. unfold upload_file, bind.
  split; [|split; [|split; [|split; [|split]]]].
  - intros e ->. reflexivity.
  - intros path e -> ->. reflexivity.
  - intros path content e -> -> ->. reflexivity.
  - intros e.
    destruct (os_mkstemp os _) as [path|e1]; [|discriminate].
    destruct (read file) as [content|e2]; [|discriminate].
    destruct (os_write os path content) as [[]|e3]; discriminate.
  - intros value.
    destruct (os_mkstemp os _) as [path|e1]; [|discriminate].
    destruct (read file) as [content|e2]; [|discriminate].
    destruct (os_write os path content) as [[]|e3] eqn:Hwrite; [|discriminate].
    intros [= <-]. exists path, content. now repeat split.
  - intros ->. reflexivity.
Qed.

(* ================================================================== *)
(** * Conversations: counts, skipped rows and limits *)
(* ================================================================== *)

(** Every row of a conversation adds one to its count. *)
Lemma touch_count (row : pydict) (conv conv' : Conv.t) :
  touch row conv = Some conv' -> Conv.count conv' = Conv.count conv + 1.
Proof.
  unfold touch. cbn [Conv.latest Conv.count].
  destruct (truthy (dict_get row "datetime_utc" PNone)); [|now intros [= <-]].
  destruct (dict_get row "datetime_utc" PNone); try discriminate.
  destruct (negb (truthy (Conv.latest conv))); [now intros [= <-]|].
  destruct (Conv.latest conv); try discriminate.
  destruct (str_gt s s0); now intros [= <-].
Qed.

Lemma setdefault_touch_total (convs convs' : convs_t) (cid : string) (dflt : Conv.t)
      (row : pydict) :
  setdefault_touch convs cid dflt row = Some convs' ->
  Conv.count dflt = 0 ->
  Forall (fun c => 1 <= Conv.count c) (map snd convs) ->
  total_count (map snd convs') = total_count (map snd convs) + 1
  /\ Forall (fun c => 1 <= Conv.count c) (map snd convs').
Proof.
  revert convs'. induction convs as [|[k conv] convs IH]; intros convs' Hset Hzero Hpos;
    cbn [setdefault_touch] in Hset.
  - destruct (touch row dflt) as [conv'|] eqn:Htouch; [|discriminate].
    injection Hset as <-. apply touch_count in Htouch.
    unfold total_count. cbn. split; [lia|]. repeat constructor. lia.
  - inversion Hpos as [|? ? Hconv Hrest]; subst.
    destruct (k =? cid)%string.
    + destruct (touch row conv) as [conv'|] eqn:Htouch; [|discriminate].
      injection Hset as <-. apply touch_count in Htouch.
      unfold total_count in *. cbn. split; [lia|]. constructor; [lia|exact Hrest].
    + destruct (setdefault_touch convs cid dflt row) as [rest'|]; [|discriminate].
      injection Hset as <-. destruct (IH rest' eq_refl Hzero Hrest) as [Htotal Hpos'].
      unfold total_count in *. cbn. split; [lia|]. now constructor.
Qed.

Lemma conv_step_total (convs convs' : convs_t) (row : pyval) :
  conv_step convs row = Some convs' ->
  Forall (fun c => 1 <= Conv.count c) (map snd convs) ->
  total_count (map snd convs')
  = total_count (map snd convs) + (if has_id row then 1 else 0)
  /\ Forall (fun c => 1 <= Conv.count c) (map snd convs').
Proof.
  intros Hstep Hpos. destruct row as [| | | | | |d]; try discriminate.
  unfold conv_step in Hstep. unfold has_id, row_cid, row_str.
  destruct (dict_get d "conversation_id" PNone) as [|b|z|t|s|l|e] eqn:Hcid;
    cbn [truthy negb] in Hstep.
  - injection Hstep as <-. split; [lia|exact Hpos].
  - destruct b; [discriminate|]. injection Hstep as <-. split; [lia|exact Hpos].
  - destruct (negb (z =? 0)); [discriminate|]. injection Hstep as <-.
    split; [lia|exact Hpos].
  - destruct (negb (float_text_is_zero t)); [discriminate|]. injection Hstep as <-.
    split; [lia|exact Hpos].
  - destruct s as [|c s].
    + injection Hstep as <-. split; [lia|exact Hpos].
    + cbn in Hstep. now apply (setdefault_touch_total _ _ _ _ Hstep).
  - destruct l; [|discriminate]. injection Hstep as <-. split; [lia|exact Hpos].
  - destruct e; [|discriminate]. injection Hstep as <-. split; [lia|exact Hpos].
Qed.

Lemma conv_loop_total (rows : list pyval) (convs convs' : convs_t) :
  conv_loop convs rows = Some convs' ->
  Forall (fun c => 1 <= Conv.count c) (map snd convs) ->
  total_count (map snd convs')
  = total_count (map snd convs) + Z.of_nat (List.length (filter has_id rows))
  /\ Forall (fun c => 1 <= Conv.count c) (map snd convs').
Proof.
  revert convs. induction rows as [|row rows IH]; intros convs Hloop Hpos; simpl in Hloop.
  - injection Hloop as <-. simpl. split; [lia|exact Hpos].
  - destruct (conv_step convs row) as [convs1|] eqn:Hstep; [|discriminate].
    destruct (conv_step_total _ _ Hstep Hpos) as [Htotal1 Hpos1].
    destruct (IH _ Hloop Hpos1) as [Htotal Hpos']. split; [|exact Hpos'].
    rewrite Htotal, Htotal1. cbn [filter]. destruct (has_id row); simpl List.length; lia.
Qed.

Lemma total_count_perm (l l' : list Conv.t) :
  Permutation l l' -> total_count l = total_count l'.
Proof.
  unfold total_count. induction 1; simpl; lia.
Qed.

Lemma total_count_firstn (n : nat) (l : list Conv.t) :
  Forall (fun c => 1 <= Conv.count c) l ->
  total_count (firstn n l) <= total_count l
  /\ Z.of_nat (List.length l) <= total_count l.
Proof.
  intros Hpos. revert n. unfold total_count.
  induction Hpos as [|c l Hc _ IH]; intros n.
  - rewrite firstn_nil. simpl. lia.
  - destruct n as [|n]; cbn [firstn map fold_right List.length].
    + destruct (IH 0%nat). lia.
    + destruct (IH n). lia.
Qed.

(** X12.  Every summary of the answer counts at least one row, and the
    counts add up to at most the number of rows that carry a conversation
    id: to exactly that number when the limit is not below the number of
    rows. *)
Theorem counts_add_up (rows : list pyval) (limit : Z) (out : list Conv.t) :
  conversations_of (PList rows) limit = Some out ->
  Forall (fun c => 1 <= Conv.count c) out
  /\ total_count out <= Z.of_nat (List.length (filter has_id rows))
  /\ (Z.of_nat (List.length rows) <= limit ->
      total_count out = Z.of_nat (List.length (filter has_id rows))).
Proof.
  unfold conversations_of.
  destruct (conv_loop [] rows) as [convs|] eqn:Hloop; [|discriminate].
  intros [= <-].
  destruct (@conv_loop_total rows [] convs Hloop) as [Htotal Hpos]; [constructor|].
  change (total_count (map snd [])) with 0 in Htotal.
  pose proof (sorted_reverse_perm (map snd convs)) as Hperm.
  assert (Hpos' : Forall (fun c => 1 <= Conv.count c) (sorted_reverse (map snd convs))).
  { rewrite Forall_forall in *. intros c Hc. apply Hpos.
    now apply (Permutation_in _ Hperm). }
  rewrite <- (total_count_perm Hperm) in Htotal.
  destruct (slice_to_firstn (sorted_reverse (map snd convs)) limit) as (n & Hslice & Hn).
  rewrite Hslice. destruct (total_count_firstn n Hpos') as [Hle Hlen].
  split; [|split].
  - rewrite Forall_forall in *. intros c Hc. apply Hpos'.
    rewrite <- (firstn_skipn n (sorted_reverse (map snd convs))).
    apply in_or_app. now left.
  - lia.
  - intros Hlimit. rewrite firstn_all2; [lia|].
    assert (Hfilter : (List.length (filter has_id rows) <= List.length rows)%nat)
      by apply filter_length_le.
    rewrite Hn by lia. lia.
Qed.

Lemma conv_step_no_id (convs : convs_t) (row : pyval) :
  row_ok row = true -> has_id row = false -> conv_step convs row = Some convs.
Proof.
  intros Hok Hid. destruct row as [| | | | | |d]; try discriminate.
  simpl in Hok. apply andb_true_iff in Hok. destruct Hok as [Hcid _].
  unfold has_id in Hid. destruct (row_cid (PDict d)) eqn:Hrow; [discriminate|].
  unfold conv_step. now rewrite (row_str_none _ _ Hcid Hrow).
Qed.

Lemma conv_loop_filter (rows : list pyval) (convs : convs_t) :
  Forall (fun row => row_ok row = true) rows ->
  conv_loop convs rows = conv_loop convs (filter has_id rows).
Proof.
  intros Hrows. revert convs.
  induction Hrows as [|row rows Hrow _ IH]; intros convs; [reflexivity|].
  cbn [filter]. destruct (has_id row) eqn:Hid.
  - cbn [conv_loop]. destruct (conv_step convs row); [apply IH|reflexivity].
  - cbn [conv_loop]. rewrite (conv_step_no_id convs row Hrow Hid). apply IH.
Qed.

(** X13.  Rows without a conversation id change nothing: the answer is
    that of the rows with an id alone, and the empty list when no row has
    one. *)
Theorem rows_without_id_are_skipped (rows : list pyval) (limit : Z) :
  Forall (fun row => row_ok row = true) rows ->
  conversations_of (PList rows) limit = conversations_of (PList (filter has_id rows)) limit
  /\ (Forall (fun row => has_id row = false) rows ->
      conversations_of (PList rows) limit = Some []).
Proof.
  intros Hrows. unfold conversations_of.
  rewrite (conv_loop_filter [] Hrows). split; [reflexivity|].
  intros Hnone.
  replace (filter has_id rows) with (@nil pyval).
  - cbn. unfold slice_to. now destruct (limit <? 0); rewrite firstn_nil.
  - symmetry. clear Hrows. induction Hnone as [|row rows Hrow _ IH]; [reflexivity|].
    cbn. now rewrite Hrow.
Qed.

(** X14.  The limit is applied as a Python slice and never rejected: 0
    gives the empty list, a limit of at least the number of conversations
    gives them all, and a negative limit [-k] leaves out the last [k]
    summaries (all of them when there are no more than [k]). *)
Theorem limit_is_a_python_slice `{PyRuntime} (rows : list pyval) (convs : convs_t) :
  conv_loop [] rows = Some convs ->
  forall limit all,
    all = sorted_reverse (map snd convs) ->
    exists out,
      conversations_of (PList rows) limit = Some out
      /\ (forall os done,
             os_run os ["llm"; "logs"; "list"; "-n"; "0"; "--json"] = Ok done ->
             run_returncode done = 0 ->
             json_loads (run_stdout done) = Ok (PList rows) ->
             list_conversations os limit = Some (Return (PList (map Conv.to_dict out))))
      /\ (limit = 0 -> out = [])
      /\ (0 <= limit -> out = firstn (Z.to_nat limit) all)
      /\ (Z.of_nat (List.length all) <= limit -> out = all)
      /\ (limit < 0 -> out = firstn (List.length all - Z.to_nat (- limit)) all)
      /\ (limit <= - Z.of_nat (List.length all) -> out = [])
      /\ List.length all = List.length convs.
Proof.
  intros Hloop limit all ->.
  exists (slice_to (sorted_reverse (map snd convs)) limit).
  assert (Hout : conversations_of (PList rows) limit
                 = Some (slice_to (sorted_reverse (map snd convs)) limit))
    by (unfold conversations_of; now rewrite Hloop).
  split; [exact Hout|]. split; [|unfold slice_to; repeat split].
  - intros os done Hrun Hcode Hjson. unfold list_conversations, subprocess_run.
    rewrite Hrun, Hcode. change (true && negb (0 =? 0)) with false. cbv iota.
    now rewrite Hjson, Hout.
  - now intros ->.
  - intros Hlimit. apply Z.ltb_ge in Hlimit. now rewrite Hlimit.
  - intros Hlimit. replace (limit <? 0) with false by (symmetry; apply Z.ltb_ge; lia).
    apply firstn_all2. lia.
  - intros Hlimit. apply Z.ltb_lt in Hlimit. rewrite Hlimit. f_equal. lia.
  - intros Hlimit. destruct (limit <? 0) eqn:Hneg.
    + replace (Z.to_nat (Z.of_nat (List.length (sorted_reverse (map snd convs))) + limit))
        with 0%nat by lia. reflexivity.
    + apply Z.ltb_ge in Hneg.
      assert (Hnil : sorted_reverse (map snd convs) = [])
        by (apply length_zero_iff_nil; lia).
      rewrite Hnil. apply firstn_nil.
  - rewrite (Permutation_length (sorted_reverse_perm (map snd convs))). apply length_map.
Qed.

(* ================================================================== *)
(** * Conversations: what a summary depends on *)
(* ================================================================== *)

(** [setdefault] and the loop body change the entry of [cid] and no
    other. *)
Lemma setdefault_touch_get (convs : convs_t) (cid : string) (dflt : Conv.t) (row : pydict) :
  match setdefault_touch convs cid dflt row with
  | Some convs' =>
      conv_get convs' cid
      = touch row (match conv_get convs cid with Some c => c | None => dflt end)
      /\ forall k, k <> cid -> conv_get convs' k = conv_get convs k
  | None => touch row (match conv_get convs cid with Some c => c | None => dflt end) = None
  end.
Proof.
  induction convs as [|[k c] convs IH]; cbn [setdefault_touch conv_get].
  - destruct (touch row dflt) as [c'|] eqn:Htouch; [|reflexivity].
    cbn [conv_get]. rewrite String.eqb_refl. split; [reflexivity|].
    intros k Hk. destruct (String.eqb_spec cid k); congruence.
  - destruct (String.eqb_spec k cid) as [->|Hk].
    + destruct (touch row c) as [c'|] eqn:Htouch; [|reflexivity].
      cbn [conv_get]. rewrite String.eqb_refl. split; [reflexivity|].
      intros k Hk. destruct (String.eqb_spec cid k); congruence.
    + destruct (setdefault_touch convs cid dflt row) as [rest'|]; [|exact IH].
      destruct IH as [Hsame Hother]. cbn [conv_get].
      destruct (String.eqb_spec k cid); [congruence|]. split; [exact Hsame|].
      intros k' Hk'. destruct (k =? k')%string; [reflexivity|now apply Hother].
Qed.

(** A row of another conversation, or of none, leaves the summary of
    [cid] as it is. *)
Lemma conv_step_other (convs convs' : convs_t) (row : pyval) (cid : string) :
  conv_step convs row = Some convs' ->
  in_conversation cid row = false ->
  conv_get convs' cid = conv_get convs cid.
Proof.
  intros Hstep Hother. destruct row as [| | | | | |d]; try discriminate.
  destruct (row_cid (PDict d)) as [cid'|] eqn:Hcid.
  - rewrite (conv_step_group convs d Hcid) in Hstep.
    pose proof (setdefault_touch_get convs cid'
                  {| Conv.conversation_id := cid';
                     Conv.latest := dict_get d "datetime_utc" PNone;
                     Conv.model := dict_get d "model" PNone;
                     Conv.count := 0;
                     Conv.last_prompt := dict_get d "prompt" (PStr "") |} d) as Hget.
    rewrite Hstep in Hget. destruct Hget as [_ Hrest]. apply Hrest.
    intros ->. unfold in_conversation in Hother. rewrite Hcid, String.eqb_refl in Hother.
    discriminate.
  - unfold conv_step in Hstep. unfold row_cid, row_str in Hcid.
    destruct (dict_get d "conversation_id" PNone) as [|b|z|t|s|l|e];
      cbn [truthy negb] in Hstep.
    + now injection Hstep as <-.
    + destruct b; [discriminate|]. now injection Hstep as <-.
    + destruct (negb (z =? 0)); [discriminate|]. now injection Hstep as <-.
    + destruct (negb (float_text_is_zero t)); [discriminate|]. now injection Hstep as <-.
    + destruct s; [|discriminate]. now injection Hstep as <-.
    + destruct l; [|discriminate]. now injection Hstep as <-.
    + destruct e; [|discriminate]. now injection Hstep as <-.
Qed.

Lemma conv_loop_own (rows : list pyval) (cid : string) (convs own convs' : convs_t) :
  conv_get own cid = conv_get convs cid ->
  (forall k, k <> cid -> conv_get own k = None) ->
  conv_loop convs rows = Some convs' ->
  exists own',
    conv_loop own (filter (in_conversation cid) rows) = Some own'
    /\ conv_get own' cid = conv_get convs' cid
    /\ (forall k, k <> cid -> conv_get own' k = None).
Proof.
  revert convs own. induction rows as [|row rows IH]; intros convs own Hsame Hnone Hloop.
  - injection Hloop as <-. now exists own.
  - cbn [conv_loop] in Hloop.
    destruct (conv_step convs row) as [convs1|] eqn:Hstep; [|discriminate].
    cbn [filter]. destruct (in_conversation cid row) eqn:Hin.
    + apply in_conversation_iff in Hin.
      destruct row as [| | | | | |d]; try discriminate.
      cbn [conv_loop]. rewrite (conv_step_group own d Hin).
      rewrite (conv_step_group convs d Hin) in Hstep.
      set (dflt := {| Conv.conversation_id := cid;
                      Conv.latest := dict_get d "datetime_utc" PNone;
                      Conv.model := dict_get d "model" PNone;
                      Conv.count := 0;
                      Conv.last_prompt := dict_get d "prompt" (PStr "") |}) in *.
      pose proof (setdefault_touch_get convs cid dflt d) as Hfull.
      pose proof (setdefault_touch_get own cid dflt d) as Hown.
      rewrite Hstep in Hfull. destruct Hfull as [Hfull _].
      rewrite Hsame in Hown.
      destruct (setdefault_touch own cid dflt d) as [own1|].
      * destruct Hown as [Hown Hrest]. apply (IH convs1 own1); try assumption.
        -- now rewrite Hown, Hfull.
        -- intros k Hk. rewrite (Hrest k Hk). now apply Hnone.
      * rewrite <- Hfull in Hown. clear - Hown Hstep.
        assert (Hget : conv_get convs1 cid <> None).
        { clear Hown. revert convs1 Hstep.
          induction convs as [|[k c] convs IHc]; intros convs1 Hstep;
            cbn [setdefault_touch] in Hstep.
          - destruct (touch d dflt); [|discriminate]. injection Hstep as <-.
            cbn. now rewrite String.eqb_refl.
          - destruct (String.eqb_spec k cid) as [->|Hk].
            + destruct (touch d c); [|discriminate]. injection Hstep as <-.
              cbn. now rewrite String.eqb_refl.
            + destruct (setdefault_touch convs cid dflt d) as [rest|]; [|discriminate].
              injection Hstep as <-. cbn.
              destruct (String.eqb_spec k cid); [congruence|]. now apply IHc. }
        congruence.
    + apply (IH convs1 own); try assumption.
      now rewrite (conv_step_other convs row cid Hstep Hin).
Qed.

(** X15.  The summary of a conversation depends on the rows of that
    conversation only: the loop run on these rows alone ends with the same
    summary for it, and with no other. *)
Theorem summary_depends_on_own_rows (rows : list pyval) (convs : convs_t) (cid : string) :
  conv_loop [] rows = Some convs ->
  exists own,
    conv_loop [] (filter (in_conversation cid) rows) = Some own
    /\ conv_get own cid = conv_get convs cid
    /\ (forall k, k <> cid -> conv_get own k = None).
Proof.
  intros Hloop. now apply (@conv_loop_own rows cid [] [] convs).
Qed.

Lemma conv_get_in (convs : convs_t) (cid : string) (c : Conv.t) :
  conv_get convs cid = Some c -> In (cid, c) convs.
Proof.
  induction convs as [|[k x] convs IH]; cbn [conv_get]; [discriminate|].
  destruct (String.eqb_spec k cid) as [->|Hk].
  - intros [= ->]. now left.
  - intros Hget. right. now apply IH.
Qed.

Lemma conv_get_none (convs : convs_t) (cid : string) :
  conv_get convs cid = None -> ~ In cid (map fst convs).
Proof.
  induction convs as [|[k x] convs IH]; cbn [conv_get]; [now intros _ []|].
  destruct (String.eqb_spec k cid) as [->|Hk]; [discriminate|].
  intros Hget [Hin|Hin]; [now apply Hk|now apply IH].
Qed.

Lemma in_conv_get (convs : convs_t) (cid : string) (c : Conv.t) :
  NoDup (map fst convs) -> In (cid, c) convs -> conv_get convs cid = Some c.
Proof.
  induction convs as [|[k x] convs IH]; [now intros _ []|].
  cbn [map fst conv_get]. intros Hnodup Hin. inversion Hnodup as [|? ? Hk Hrest]; subst.
  destruct Hin as [[= -> ->]|Hin].
  - now rewrite String.eqb_refl.
  - destruct (String.eqb_spec k cid) as [->|Hne]; [|now apply IH].
    exfalso. apply Hk. apply in_map_iff. now exists (cid, c).
Qed.

Lemma leb_ltb_trans (a b c : string) :
  String.leb a b = true -> String.ltb b c = true -> String.ltb a c = true.
Proof.
  intros Hab Hbc. destruct (String.ltb a c) eqn:Hac; [reflexivity|].
  apply not_ltb_leb in Hac.
  pose proof (leb_trans _ _ _ Hac Hab) as Hcb.
  unfold String.ltb, String.leb in *.
  rewrite (String.compare_antisym c b) in Hcb.
  destruct (String.compare b c); discriminate.
Qed.

(** A later row does not change which row a summary reports, as long as
    the summary keeps its fields. *)
Lemma reported_row_snoc (seen : list pyval) (cid : string) (c c' : Conv.t) (row : pyval) :
  reported_row seen cid c ->
  Conv.latest c' = Conv.latest c ->
  Conv.model c' = Conv.model c ->
  Conv.last_prompt c' = Conv.last_prompt c ->
  reported_row (seen ++ [row]) cid c'.
Proof.
  intros (pre & d & post & -> & Hcid & Hlatest & Hmodel & Hprompt & Hpre & Hfirst) H1 H2 H3.
  exists pre, d, (post ++ [row]). rewrite <- app_assoc.
  repeat split; try assumption; congruence.
Qed.

(** What [touch] does to the fields of a summary: it keeps them, or takes
    those of the row, whose timestamp is then greater than [latest]. *)
Lemma touch_fields (d : pydict) (c0 c : Conv.t) :
  touch d c0 = Some c ->
  (Conv.latest c = Conv.latest c0 /\ Conv.model c = Conv.model c0
   /\ Conv.last_prompt c = Conv.last_prompt c0)
  \/ (Conv.latest c = dict_get d "datetime_utc" PNone
      /\ Conv.model c = dict_get d "model" PNone
      /\ Conv.last_prompt c = dict_get d "prompt" (PStr "")
      /\ exists t, row_time (PDict d) = Some t
                   /\ (truthy (Conv.latest c0) = false
                       \/ exists l, Conv.latest c0 = PStr l /\ String.ltb l t = true)).
Proof.
  unfold touch. cbn [Conv.latest Conv.count Conv.model Conv.last_prompt].
  destruct (truthy (dict_get d "datetime_utc" PNone)) eqn:Htruthy;
    [|intros [= <-]; left; now repeat split].
  destruct (dict_get d "datetime_utc" PNone) as [| | | |t| |] eqn:Htime; try discriminate.
  assert (Hrow : row_time (PDict d) = Some t).
  { unfold row_time, row_str. rewrite Htime. destruct t; [discriminate|reflexivity]. }
  destruct (truthy (Conv.latest c0)) eqn:Hlatest; cbn [negb].
  - destruct (Conv.latest c0) as [| | | |l| |] eqn:Hl; try discriminate.
    unfold str_gt. destruct (String.ltb l t) eqn:Hlt; intros [= <-].
    + right. repeat split. exists t. split; [exact Hrow|]. right. now exists l.
    + left. cbn. now repeat split.
  - intros [= <-]. right. repeat split. exists t. split; [exact Hrow|now left].
Qed.

Lemma row_time_nonempty (row : pyval) (t : string) : row_time row = Some t -> t <> "".
Proof.
  unfold row_time, row_str. destruct row; try discriminate.
  destruct (dict_get entries "datetime_utc" PNone) as [| | | |[|c s]| |]; try discriminate.
  now intros [= <-].
Qed.

Lemma leb_empty (t : string) : String.leb t "" = true -> t = "".
Proof. now destruct t. Qed.

(** One turn of the loop keeps the reported rows. *)
Lemma conv_step_reported (seen : list pyval) (convs convs' : convs_t) (row : pyval) :
  convs_ok seen convs ->
  (forall cid c, conv_get convs cid = Some c -> reported_row seen cid c) ->
  row_ok row = true ->
  conv_step convs row = Some convs' ->
  forall cid c, conv_get convs' cid = Some c -> reported_row (seen ++ [row]) cid c.
Proof.
  intros (Hnodup & Hkeys & Hsum) Hrep Hrow Hstep cid c Hget.
  destruct (in_conversation cid row) eqn:Hin.
  - apply in_conversation_iff in Hin.
    destruct row as [| | | | | |d]; try discriminate.
    rewrite (conv_step_group convs d Hin) in Hstep.
    set (dflt := {| Conv.conversation_id := cid;
                    Conv.latest := dict_get d "datetime_utc" PNone;
                    Conv.model := dict_get d "model" PNone;
                    Conv.count := 0;
                    Conv.last_prompt := dict_get d "prompt" (PStr "") |}) in *.
    pose proof (setdefault_touch_get convs cid dflt d) as Htouch.
    rewrite Hstep in Htouch. destruct Htouch as [Htouch _].
    rewrite Hget in Htouch. symmetry in Htouch.
    destruct (conv_get convs cid) as [c0|] eqn:Hold.
    + (* the conversation has a summary *)
      pose proof (Hrep cid c0 Hold) as Hc0.
      destruct (Hsum cid c0 (conv_get_in _ _ Hold)) as (_ & _ & _ & Hmax & _).
      destruct (touch_fields _ _ Htouch)
        as [(H1 & H2 & H3)|(H1 & H2 & H3 & t & Htime & Hnewer)].
      * now apply reported_row_snoc with c0.
      * exists seen, d, []. repeat split; try assumption.
        -- intros row' t' Hrow' Hcid' Htime'. exists t. split; [exact Htime|].
           destruct (Hmax row' t' Hrow' Hcid' Htime') as (m & Hm & Hle).
           destruct Hnewer as [Hfalsy|(l & Hl & Hlt)].
           ++ rewrite Hm in Hfalsy. cbn in Hfalsy. apply negb_false_iff in Hfalsy.
              apply String.eqb_eq in Hfalsy. subst m. apply leb_empty in Hle.
              now apply row_time_nonempty in Htime'.
           ++ rewrite Hl in Hm. injection Hm as <-. now apply leb_ltb_trans with l.
        -- congruence.
    + (* the first row of the conversation *)
      assert (Hfresh : forall row', In row' seen -> row_cid row' <> Some cid).
      { intros row' Hrow' Hcid'. apply (conv_get_none _ _ Hold). apply Hkeys. eauto. }
      exists seen, d, [].
      destruct (touch_fields _ _ Htouch) as [(H1 & H2 & H3)|(H1 & H2 & H3 & _)];
        repeat split; try assumption; try (intros row' t' Hrow' Hcid'; now apply Hfresh in Hrow').
  - (* a row of another conversation, or of none *)
    rewrite (conv_step_other convs row cid Hstep Hin) in Hget.
    pose proof (Hrep cid c Hget) as Hc. now apply reported_row_snoc with c.
Qed.

Lemma conv_loop_reported (rows seen : list pyval) (convs convs' : convs_t) :
  convs_ok seen convs ->
  (forall cid c, conv_get convs cid = Some c -> reported_row seen cid c) ->
  Forall (fun row => row_ok row = true) rows ->
  conv_loop convs rows = Some convs' ->
  forall cid c, conv_get convs' cid = Some c -> reported_row (seen ++ rows) cid c.
Proof.
  revert seen convs. induction rows as [|row rows IH]; intros seen convs Hok Hrep Hrows Hloop.
  - injection Hloop as <-. now rewrite app_nil_r.
  - inversion Hrows as [|? ? Hrow Hrows']; subst. cbn [conv_loop] in Hloop.
    destruct (conv_step_ok row Hok Hrow) as (convs1 & Hstep & Hok1).
    rewrite Hstep in Hloop. intros cid c Hget.
    replace (seen ++ row :: rows) with ((seen ++ [row]) ++ rows)
      by now rewrite <- app_assoc.
    apply (IH (seen ++ [row]) convs1); try assumption.
    now apply conv_step_reported with convs.
Qed.

(** X16.  The model and the prompt a summary reports are those of the
    first row of the conversation that carries its greatest timestamp:
    every earlier row of the conversation has a smaller timestamp or none,
    no row of it has a greater one, and a summary that reports a row
    without timestamp reports the first row of the conversation. *)
Theorem summary_reports_first_newest_row (rows : list pyval) (convs : convs_t)
        (cid : string) (c : Conv.t) :
  Forall (fun row => row_ok row = true) rows ->
  conv_loop [] rows = Some convs ->
  In (cid, c) convs ->
  reported_row rows cid c
  /\ (forall row t,
         In row rows -> row_cid row = Some cid -> row_time row = Some t ->
         exists m, Conv.latest c = PStr m /\ String.leb t m = true).
Proof.
  intros Hrows Hloop Hin.
  destruct (conv_loop_ok (seen := []) convs_ok_nil Hrows) as (convs1 & Hloop1 & Hok).
  rewrite Hloop in Hloop1. injection Hloop1 as <-. cbn [app] in Hok.
  destruct Hok as (Hnodup & Hkeys & Hsum). split.
  - apply (@conv_loop_reported rows [] [] convs convs_ok_nil); try assumption.
    + intros k x Hget. discriminate Hget.
    + now apply in_conv_get.
  - now destruct (Hsum cid c Hin) as (_ & _ & _ & Hmax & _).
Qed.

Lemma setdefault_touch_keys (convs convs' : convs_t) (cid : string) (dflt : Conv.t)
      (row : pydict) :
  setdefault_touch convs cid dflt row = Some convs' ->
  map fst convs'
  = if existsb (String.eqb cid) (map fst convs) then map fst convs
    else map fst convs ++ [cid].
Proof.
  revert convs'. induction convs as [|[k c] convs IH]; intros convs' Hset;
    cbn [setdefault_touch] in Hset.
  - destruct (touch row dflt); [|discriminate]. now injection Hset as <-.
  - cbn [map fst existsb]. rewrite (String.eqb_sym cid k).
    destruct (k =? cid)%string.
    + destruct (touch row c); [|discriminate]. now injection Hset as <-.
    + destruct (setdefault_touch convs cid dflt row) as [rest|]; [|discriminate].
      injection Hset as <-. cbn [map fst orb]. rewrite (IH rest eq_refl).
      now destruct (existsb (String.eqb cid) (map fst convs)).
Qed.

(** The dictionary holds the conversations in the order their first rows
    come in. *)
Lemma conv_loop_keys (rows : list pyval) (convs convs' : convs_t) :
  Forall (fun row => row_ok row = true) rows ->
  conv_loop convs rows = Some convs' ->
  map fst convs' = map fst convs ++ first_ids rows (map fst convs).
Proof.
  intros Hrows. revert convs.
  induction Hrows as [|row rows Hrow _ IH]; intros convs Hloop; cbn [conv_loop] in Hloop.
  - injection Hloop as <-. now rewrite app_nil_r.
  - destruct (conv_step convs row) as [convs1|] eqn:Hstep; [|discriminate].
    cbn [first_ids]. destruct (row_cid row) as [cid|] eqn:Hcid.
    + destruct row as [| | | | | |d]; try discriminate.
      rewrite (conv_step_group convs d Hcid) in Hstep.
      apply setdefault_touch_keys in Hstep. rewrite (IH _ Hloop), Hstep.
      destruct (existsb (String.eqb cid) (map fst convs)); [reflexivity|].
      now rewrite <- app_assoc.
    + assert (Hsame : conv_step convs row = Some convs).
      { destruct row as [| | | | | |d]; try discriminate.
        simpl in Hrow. apply andb_true_iff in Hrow. destruct Hrow as [Hok _].
        unfold conv_step. now rewrite (row_str_none _ _ Hok Hcid). }
      rewrite Hsame in Hstep. injection Hstep as <-. now apply IH.
Qed.

(** X17.  The dictionary holds the conversations in the order their first
    rows come in the logs, and the sort keeps that order among the
    summaries of equal [latest]: conversations that tie are listed in the
    order of their first rows. *)
Theorem ties_keep_log_order (rows : list pyval) (convs : convs_t) :
  Forall (fun row => row_ok row = true) rows ->
  conv_loop [] rows = Some convs ->
  map Conv.conversation_id (map snd convs) = first_ids rows []
  /\ (forall latest,
         filter (fun c => (sort_key c =? latest)%string) (sorted_reverse (map snd convs))
         = filter (fun c => (sort_key c =? latest)%string) (map snd convs))
  /\ (forall limit, Z.of_nat (List.length rows) <= limit ->
        conversations_of (PList rows) limit = Some (sorted_reverse (map snd convs))).
Proof.
  intros Hrows Hloop.
  destruct (conv_loop_ok (seen := []) convs_ok_nil Hrows) as (convs1 & Hloop1 & Hok).
  rewrite Hloop in Hloop1. injection Hloop1 as <-. cbn [app] in Hok.
  destruct Hok as (Hnodup & Hkeys & Hsum).
  split; [|split].
  - rewrite <- (conv_loop_keys [] Hrows Hloop : map fst convs = first_ids rows []).
    clear - Hsum. induction convs as [|[k c] convs IH]; [reflexivity|].
    cbn [map fst snd]. f_equal.
    + now destruct (Hsum k c (or_introl eq_refl)) as (Hid & _).
    + apply IH. intros cid x Hin. apply Hsum. now right.
  - intros latest. apply sorted_reverse_stable.
  - intros limit Hlimit. unfold conversations_of. rewrite Hloop. f_equal.
    unfold slice_to. replace (limit <? 0) with false by (symmetry; apply Z.ltb_ge; lia).
    apply firstn_all2.
    rewrite (Permutation_length (sorted_reverse_perm (map snd convs))), length_map.
    assert (Hlen : (List.length convs <= List.length rows)%nat).
    { rewrite <- (length_map fst convs), (conv_loop_keys [] Hrows Hloop). cbn [map app].
      clear. generalize (@nil string). induction rows as [|row rows IH]; intros seen;
        cbn [first_ids List.length]; [lia|].
      destruct (row_cid row) as [cid|].
      - destruct (existsb (String.eqb cid) seen); [specialize (IH seen); lia|].
        cbn [List.length]. specialize (IH (seen ++ [cid])). lia.
      - specialize (IH seen). lia. }
    lia.
Qed.

(* ================================================================== *)
(** * The further properties on sample inputs *)
(* ================================================================== *)

(** The names of a sample listing are clean. *)
Ltac clean_names :=
  repeat constructor; try discriminate; try reflexivity;
  intros Hin; vm_compute in Hin;
  repeat (destruct Hin as [Hin|Hin]; [discriminate Hin|]); exact Hin.

Lemma templates_are_clean_witness :
  let os := Samples.machine_printing 0 Samples.templates_out "" in
  get_templates os = Return (PDict [("templates", PList [PStr "summary"; PStr "fix bug"])])
  /\ Forall clean_name ["summary"; "fix bug"].
Proof.
  intros os.
  destruct (@templates_are_clean os
              {| run_returncode := 0; run_stdout := Samples.templates_out;
                 run_stderr := "" |} eq_refl eq_refl) as (names & Hret & Hclean & _).
  assert (Hrun : get_templates os
                 = Return (PDict [("templates", PList [PStr "summary"; PStr "fix bug"])]))
    by reflexivity.
  split; [exact Hrun|].
  rewrite Hrun in Hret. injection Hret as Hnames.
  destruct names as [|a [|b [|c names]]]; try discriminate Hnames.
  injection Hnames as -> ->. exact Hclean.
Defined.

Lemma templates_round_trip_witness :
  Forall clean_name ["summary"; "fix bug"]
  /\ Forall no_carriage_return ["summary"; "fix bug"]
  /\ get_templates (Samples.machine_printing 0 ("summary" ++ nl ++ "fix bug" ++ nl) "")
     = Return (PDict [("templates", PList [PStr "summary"; PStr "fix bug"])]).
Proof.
  assert (Hnames : Forall clean_name ["summary"; "fix bug"]) by clean_names.
  assert (Hplain : Forall no_carriage_return ["summary"; "fix bug"]) by clean_names.
  split; [exact Hnames|split; [exact Hplain|]].
  exact (@templates_round_trip
           (Samples.machine_printing 0 ("summary" ++ nl ++ "fix bug" ++ nl) "")
           {| exit_code := 0;
              stdout_bytes := str_encode ("summary" ++ nl ++ "fix bug" ++ nl);
              stderr_bytes := [] |}
           ["summary"; "fix bug"] ("summary" ++ nl ++ "fix bug" ++ nl)
           eq_refl eq_refl eq_refl (ex_intro _ ""%string eq_refl) Hnames Hplain
           (or_intror eq_refl)).
Defined.

Lemma help_answers_whatever_the_exit_code_witness :
  get_help (H := Samples.python) (Samples.machine_printing 2 "" "No such command")
           (Some "logs list")
  = Return (PDict [("command", PStr "llm logs list --help");
                   ("help", PStr "No such command")])
  /\ get_help (H := Samples.python) (Samples.machine_printing 0 "Usage: llm" "") (Some "it's")
     = Return (PDict [("command", PStr "llm it's --help"); ("help", PStr "Usage: llm")]).
Proof.
  split.
  - exact (proj1 (@help_answers_whatever_the_exit_code Samples.python
                    (Samples.machine_printing 2 "" "No such command") (Some "logs list"))
                 {| run_returncode := 2; run_stdout := ""; run_stderr := "No such command" |}
                 eq_refl).
  - exact (proj1 (@help_answers_whatever_the_exit_code Samples.python
                    (Samples.machine_printing 0 "Usage: llm" "") (Some "it's"))
                 {| run_returncode := 0; run_stdout := "Usage: llm"; run_stderr := "" |}
                 eq_refl).
Defined.

Lemma listing_failure_is_http_500_witness :
  let os := Samples.machine_printing 1 "[]" "boom" in
  let os' := Samples.machine_writing 1 [] Samples.bad_line in
  get_models (H := Samples.python) os = HTTPException 500 "Failed to get models: boom"
  /\ get_templates os = HTTPException 500 "Failed to get templates: boom"
  /\ get_conversation (H := Samples.python) os "01hx"
     = HTTPException 500 "Failed to fetch conversation: boom"
  /\ get_models (H := Samples.python) os'
     = Uncaught (Exc "UnicodeDecodeError"
                     "'utf-8' codec can't decode byte 0xff in position 0: invalid start byte").
Proof.
  intros os os'.
  destruct (@listing_failure_is_http_500 Samples.python os
              {| exit_code := 1; stdout_bytes := str_encode "[]";
                 stderr_bytes := str_encode "boom" |})
    as (Hfail & _); [discriminate|].
  destruct (Hfail "[]"%string "boom"%string eq_refl eq_refl)
    as (Hmodels & Htemplates & _ & _ & _ & Hconv).
  destruct (@listing_failure_is_http_500 Samples.python os'
              {| exit_code := 1; stdout_bytes := []; stderr_bytes := Samples.bad_line |})
    as (_ & Hescape); [discriminate|].
  destruct (Hescape _ eq_refl) as (_ & Hmodels' & _).
  split; [exact (Hmodels eq_refl)|split; [exact (Htemplates eq_refl)|split]].
  - exact (Hconv "01hx" eq_refl).
  - exact (Hmodels' eq_refl).
Defined.


Lemma malformed_attachment_type_is_uncaught_witness :
  Strict.execute_prompt (H := Samples.python) Samples.missing Samples.malformed_request
  = Uncaught (Exc "ValueError" "not enough values to unpack (expected 2, got 1)").
Proof.
  exact (proj1 (proj2 (proj1 (@malformed_attachment_type_is_uncaught Samples.python
                                Samples.malformed_request)
                             [["/tmp/c.bin"; "image/png"]] ["/tmp/d.bin"] [] eq_refl
                             ltac:(repeat constructor) ltac:(discriminate)
                             (Forall_nil _) (fun _ _ => Forall_nil _)))
               Samples.missing).
Defined.


Lemma one_child_per_stream_witness :
  let os := Samples.machine_starting (Samples.child Samples.hello_lines 1 Samples.boom) in
  spawned (fst (stream_llm_chat_response os ["llm"; "chat"] "hi")) = [["llm"; "chat"]]
  /\ stdin_of (fst (stream_llm_response os ["llm"; "prompt"; "hi"])) = [].
Proof.
  intros os. split.
  - exact (proj1 (proj2 (proj2 (proj2 (one_child_per_stream os ["llm"; "chat"] "hi"))))).
  - exact (proj1 (proj2 (proj2 (one_child_per_stream os ["llm"; "prompt"; "hi"] "")))).
Defined.

Lemma stream_is_lossless_witness :
  let p := Samples.child_printing Samples.accented 0 [] in
  let os := Samples.machine_starting p in
  bytes_decode (list_byte_of_string Samples.accented) = Ok Samples.accented
  /\ List.length (chunks (stream_llm_response os ["llm"; "prompt"; "hi"])) = 2%nat
  /\ str_join "" (chunks (stream_llm_response os ["llm"; "prompt"; "hi"])) = Samples.accented.
Proof.
  intros p os. split; [reflexivity|split; [reflexivity|]].
  exact (proj1 (proj1 (@stream_is_lossless os ["llm"; "prompt"; "hi"] p
                         (list_byte_of_string Samples.accented) Samples.accented
                         eq_refl eq_refl eq_refl)
                      eq_refl)).
Defined.

Lemma upload_failure_is_http_500_witness :
  upload_file (H := Samples.python) Samples.missing
              {| filename := None; content_type := None;
                 read := Raise (Exc "ClientDisconnect" "connection lost") |}
  = HTTPException 500 "File upload failed: connection lost".
Proof.
  exact (proj1 (proj2 (@upload_failure_is_http_500 Samples.python Samples.missing
                         {| filename := None; content_type := None;
                            read := Raise (Exc "ClientDisconnect" "connection lost") |}))
               "/tmp/tmpk3q9x0aw_None" (Exc "ClientDisconnect" "connection lost")
               eq_refl eq_refl).
Defined.

Lemma counts_add_up_witness :
  conversations_of (PList Samples.ties) 50
  = Some [Samples.prompt_summary "a" "2024-01-02" 3 "first";
          Samples.prompt_summary "b" "2024-01-01" 1 "other"]
  /\ List.length (filter has_id Samples.ties) = 4%nat
  /\ total_count [Samples.prompt_summary "a" "2024-01-02" 3 "first";
                  Samples.prompt_summary "b" "2024-01-01" 1 "other"] = 4.
Proof.
  split; [reflexivity|split; [reflexivity|]].
  exact (proj2 (proj2 (@counts_add_up Samples.ties 50 _ eq_refl)) ltac:(vm_compute; discriminate)).
Defined.

Lemma rows_without_id_are_skipped_witness :
  Forall (fun row => row_ok row = true) Samples.ties
  /\ filter has_id Samples.ties
     = [Samples.prompt_row "a" "2024-01-01" "old"; Samples.prompt_row "a" "2024-01-02" "first";
        Samples.prompt_row "b" "2024-01-01" "other";
        Samples.prompt_row "a" "2024-01-02" "second"]
  /\ conversations_of (PList Samples.ties) 50
     = conversations_of (PList (filter has_id Samples.ties)) 50.
Proof.
  assert (Hrows : Forall (fun row => row_ok row = true) Samples.ties)
    by (repeat constructor).
  split; [exact Hrows|split; [reflexivity|]].
  exact (proj1 (@rows_without_id_are_skipped Samples.ties 50 Hrows)).
Defined.

Lemma limit_is_a_python_slice_witness :
  conv_loop [] Samples.ties = Some Samples.ties_convs
  /\ conversations_of (PList Samples.ties) (-1)
     = Some [Samples.prompt_summary "a" "2024-01-02" 3 "first"]
  /\ conversations_of (PList Samples.ties) 0 = Some [].
Proof.
  assert (Hloop : conv_loop [] Samples.ties = Some Samples.ties_convs)
    by (vm_compute; reflexivity).
  pose proof (@limit_is_a_python_slice Samples.python Samples.ties Samples.ties_convs Hloop)
    as Hslice.
  split; [exact Hloop|split].
  - destruct (Hslice (-1) (map snd Samples.ties_convs) ltac:(vm_compute; reflexivity))
      as (out & Hout & _ & _ & _ & _ & Hneg & _).
    rewrite Hout. f_equal. apply Hneg. reflexivity.
  - destruct (Hslice 0 (map snd Samples.ties_convs) ltac:(vm_compute; reflexivity))
      as (out & Hout & _ & Hzero & _).
    rewrite Hout. f_equal. apply Hzero. reflexivity.
Defined.

Lemma summary_depends_on_own_rows_witness :
  exists own,
    conv_loop [] [Samples.prompt_row "b" "2024-01-01" "other"] = Some own
    /\ conv_get own "b" = Some (Samples.prompt_summary "b" "2024-01-01" 1 "other").
Proof.
  destruct (@summary_depends_on_own_rows Samples.ties _ "b" eq_refl)
    as (own & Hown & Hget & _).
  exists own. split; [exact Hown|]. rewrite Hget. reflexivity.
Defined.

Lemma summary_reports_first_newest_row_witness :
  reported_row Samples.ties "a" (Samples.prompt_summary "a" "2024-01-02" 3 "first").
Proof.
  refine (proj1 (@summary_reports_first_newest_row Samples.ties _ "a"
                   (Samples.prompt_summary "a" "2024-01-02" 3 "first") _ eq_refl _)).
  - repeat constructor.
  - now left.
Defined.

Lemma ties_keep_log_order_witness :
  Forall (fun row => row_ok row = true) Samples.same_day
  /\ first_ids Samples.same_day [] = ["b"; "a"]
  /\ conversations_of (PList Samples.same_day) 50
     = Some [Samples.prompt_summary "b" "2024-01-01" 1 "x";
             Samples.prompt_summary "a" "2024-01-01" 1 "y"].
Proof.
  assert (Hrows : Forall (fun row => row_ok row = true) Samples.same_day)
    by (repeat constructor).
  assert (Hloop : conv_loop [] Samples.same_day = Some Samples.same_day_convs)
    by (vm_compute; reflexivity).
  split; [exact Hrows|split; [reflexivity|]].
  rewrite (proj2 (proj2 (@ties_keep_log_order Samples.same_day Samples.same_day_convs
                           Hrows Hloop))
                 50 ltac:(vm_compute; discriminate)).
  reflexivity.
Defined.

Lemma prompt_modes_are_separate_witness :
  Strict.execute_prompt (H := Samples.python) (Samples.machine_printing 0 "A cat." "warning")
                        (Samples.prompt_request "--no-cache")
  = Return (JSONResponse (PDict [("response", PStr "A cat.")]))
  /\ Strict.execute_prompt (H := Samples.python)
       (Samples.machine_writing 0 [x41; x0d; x0a; x42; x0d] [])
       (Samples.prompt_request "--no-cache")
     = Return (JSONResponse (PDict [("response", PStr ("A" ++ nl ++ "B" ++ nl))])).
Proof.
  pose proof (proj1 (@prompt_modes_are_separate Samples.python
                       (Samples.prompt_request "--no-cache") Samples.prompt_cmd eq_refl)
                    eq_refl) as (Hrun & _).
  split.
  - refine (proj2 (Hrun (Samples.machine_printing 0 "A cat." "warning")
                        {| exit_code := 0; stdout_bytes := str_encode "A cat.";
                           stderr_bytes := str_encode "warning" |}
                        "A cat."%string "warning"%string eq_refl eq_refl eq_refl eq_refl) _).
    intros Hin. vm_compute in Hin.
    repeat (destruct Hin as [Hin|Hin]; [discriminate Hin|]). exact Hin.
  - exact (proj1 (Hrun (Samples.machine_writing 0 [x41; x0d; x0a; x42; x0d] [])
                       {| exit_code := 0; stdout_bytes := [x41; x0d; x0a; x42; x0d];
                          stderr_bytes := [] |}
                       _ ""%string eq_refl eq_refl eq_refl eq_refl)).
Defined.

Lemma help_of_plain_words_witness :
  Forall plain_word ["logs"; "list"]
  /\ get_help (H := Samples.python) (Samples.machine_printing 0 "Usage: llm logs list" "")
              (Some "logs list")
     = Return (PDict [("command", PStr "llm logs list --help");
                      ("help", PStr "Usage: llm logs list")]).
Proof.
  assert (Hwords : Forall plain_word ["logs"; "list"])
    by (repeat constructor; discriminate).
  split; [exact Hwords|].
  exact (proj2 (@help_of_plain_words 1000
                  (Samples.machine_printing 0 "Usage: llm logs list" "")
                  ["logs"; "list"] ltac:(discriminate) Hwords "logs list" eq_refl)
               {| run_returncode := 0; run_stdout := "Usage: llm logs list";
                  run_stderr := "" |} eq_refl).
Defined.
